(** * map_worker: the Datawrapper choropleth publisher

    A shallow embedding of [src/data_retrieval/map_worker.py].  The script
    drives the remote charting API through a fixed sequence of HTTP calls and
    touches three local files: the CSV of county case counts (read), the
    [config.ini] holding the active map id (read and rewritten) and the HTML
    page holding the embed snippet (rewritten).

    Conventions of the embedding:
    - Python text is [string]; a character is an [ascii], standing for the
      code point of that number.
    - The value [response.json()] returns is a [json] value; a Python dict is
      the association list of its items (the keys of a dict are distinct).
    - A method of [DataWrapperMap] is a function from the state (the object
      and the world it acts on) to an outcome and the state it leaves behind;
      the state is left behind also when the method raises.
    - The remote service is an oracle: it answers a request knowing the
      requests sent before it.  The transport always delivers a response.
    - The three files are three distinct files.
    - A configuration is the content of a [ConfigParser]: the options of each
      section under their lower-case names, with the values as stored, before
      interpolation; the entry [DEFAULT] holds the defaults.  The world's
      [config_ini] is the configuration [config.read] yields when a process
      starts, and the configuration [config.write] wrote once a process has
      written the file; [reread] takes the second to the first.
    - The world keeps a trace of what the program did to it (requests sent,
      files written), oldest first, so that the order of the steps can be
      stated. *)

From Stdlib Require Import Ascii String ZArith NArith Lia.
From stdpp Require Import base strings gmap list.

(** ** Characters that a string literal cannot hold *)

Definition LF : ascii := "010"%char.
Definition CR : ascii := "013"%char.
Definition DQUOTE : ascii := "034"%char.

Definition nl : string := String LF EmptyString.
Definition dq : string := String DQUOTE EmptyString.

(** ** Values decoded from a response body *)

#[warnings="-register-all"]
Inductive json : Type :=
| JNull
| JBool (b : bool)
| JNum (n : Z)
| JStr (s : string)
| JArr (elems : list json)
| JObj (items : list (string * json)).

(** ** Exceptions and outcomes *)

Inductive exn : Type :=
| HTTPError (status : nat)
| KeyError (key : string)
| TypeError
| JSONDecodeError
| FileNotFoundError
| NoSectionError (section : string)
| CsvError
| ValueError
| InterpolationSyntaxError
| InterpolationMissingOptionError (name : string)
| InterpolationDepthError.

Inductive outcome (A : Type) : Type :=
| Return (a : A)
| Raise (e : exn).
Arguments Return {A} a.
Arguments Raise {A} e.

(** ** HTTP requests and responses *)

Inductive http_method : Type := POST | PATCH | PUT.

(** The body handed to [requests] as [data=].  The two fixed metadata
    dictionaries are named rather than spelled out; the create payload, the
    CSV text and the annotation note carry their variable parts. *)
Inductive payload : Type :=
| NoData
| ChartSpec (title type : string)
| MapSettings
| TooltipSettings
| AnnotateNotes (notes : string)
| Text (body : string).

Record request : Type := Request {
  method : http_method;
  url : string;
  data : payload;
  headers : list (string * string)
}.

Record response : Type := Response {
  status_code : nat;
  (* [None]: the body is not JSON, [response.json()] raises *)
  body : option json
}.

(** ** Wall-clock time and logging *)

Record datetime : Type := Datetime {
  year : nat; month : nat; day : nat;
  hour : nat; minute : nat; second : nat
}.

Inductive level : Type := DEBUG | INFO | ERROR.

(** A call to the [logging] module: its level and its message template. *)
Definition log_record : Type := level * string.

(** ** The object and its world *)

(** A [ConfigParser]: section name to option name to value.  The parser keeps
    option names in lower case and values as they were stored. *)
Abbreviation config_parser := (gmap string (gmap string string)).

(** What the program does to the world. *)
Inductive event : Type :=
| Sent (r : request)
| ConfigWritten (c : config_parser)
| HtmlOpened
| HtmlWritten (text : string).

Definition request_of (e : event) : option request :=
  match e with Sent r => Some r | _ => None end.

(** The requests of a trace, in order. *)
Definition sent_in (t : list event) : list request := omap request_of t.

Record DataWrapperMap : Type := Self {
  config : config_parser;
  api_auth_code : string;
  map_id : json;
  html_map_output : string;
  csv_file_path : string
}.

Record world : Type := World {
  (* the remote charting service *)
  api : list request -> request -> response;
  (* what [datetime.now()] returns *)
  clock : datetime;
  (* BASE_DIR/config.ini *)
  config_ini : config_parser;
  (* what opening [map_worker.log] for appending gives, in the directory of
     that name under the working directory *)
  log_file : string -> outcome unit;
  (* the file at [html_map_output]; [None] when it does not exist *)
  html_file : option string;
  (* the file at [csv_file_path]; [None] when it does not exist *)
  csv_file : option string;
  (* calls made to the logging module, oldest first *)
  log : list log_record;
  (* requests sent and files written, oldest first *)
  trace : list event
}.

Record state : Type := State { self : DataWrapperMap; env : world }.

Definition with_map_id (v : json) (s : state) : state :=
  let o := self s in
  State (Self (config o) (api_auth_code o) v (html_map_output o) (csv_file_path o))
        (env s).

Definition with_config (c : config_parser) (s : state) : state :=
  let o := self s in
  State (Self c (api_auth_code o) (map_id o) (html_map_output o) (csv_file_path o))
        (env s).

Definition with_config_ini (c : config_parser) (s : state) : state :=
  let w := env s in
  State (self s)
        (World (api w) (clock w) c (log_file w) (html_file w) (csv_file w) (log w) (trace w)).

Definition with_html_file (f : option string) (s : state) : state :=
  let w := env s in
  State (self s)
        (World (api w) (clock w) (config_ini w) (log_file w) f (csv_file w) (log w) (trace w)).

Definition with_log (l : list log_record) (s : state) : state :=
  let w := env s in
  State (self s)
        (World (api w) (clock w) (config_ini w) (log_file w) (html_file w) (csv_file w) l (trace w)).

Definition with_trace (t : list event) (s : state) : state :=
  let w := env s in
  State (self s)
        (World (api w) (clock w) (config_ini w) (log_file w) (html_file w) (csv_file w) (log w) t).

Definition record (e : event) (s : state) : state :=
  with_trace (trace (env s) ++ [e]) s.

(** The requests sent so far. *)
Definition sent (w : world) : list request := sent_in (trace w).

(** ** The monad of methods *)

Definition M (A : Type) : Type := state -> outcome A * state.

Definition ret {A} (a : A) : M A := fun s => (Return a, s).

Definition raise {A} (e : exn) : M A := fun s => (Raise e, s).

Definition bind {A B} (m : M A) (k : A -> M B) : M B :=
  fun s =>
    match m s with
    | (Return a, s') => k a s'
    | (Raise e, s') => (Raise e, s')
    end.

Notation "x <- m ;; k" := (bind m (fun x => k))
  (at level 100, m at next level, right associativity).
Notation "m ;;; k" := (bind m (fun _ => k))
  (at level 100, right associativity).

Definition lift {A} (o : outcome A) : M A := fun s => (o, s).

Definition get : M state := fun s => (Return s, s).

Definition modify (f : state -> state) : M unit := fun s => (Return tt, f s).

(** [try: m except requests.exceptions.HTTPError as err: handler err] *)
Definition try_except_HTTPError (m : M unit) (handler : exn -> M unit) : M unit :=
  fun s =>
    match m s with
    | (Raise (HTTPError st), s') => handler (HTTPError st) s'
    | r => r
    end.

(** ** Python primitives *)

(** [d[key]] on an association list of items *)
Fixpoint items_get (items : list (string * json)) (key : string) : option json :=
  match items with
  | [] => None
  | (k, v) :: rest => if String.eqb k key then Some v else items_get rest key
  end.

(** [v[key]] for a string [key]: only a dict can be subscripted by a string. *)
Definition subscript (v : json) (key : string) : outcome json :=
  match v with
  | JObj items =>
      match items_get items key with
      | Some x => Return x
      | None => Raise (KeyError key)
      end
  | _ => Raise TypeError
  end.

(** [prefix + v]: concatenation to a [str] needs a [str]. *)
Definition str_add (prefix : string) (v : json) : outcome string :=
  match v with
  | JStr s => Return (prefix +:+ s)
  | _ => Raise TypeError
  end.

(** ** The configuration parser

    [configparser.ConfigParser()], as the script makes it: option names are
    put in lower case, values are interpolated when they are read, the
    section [DEFAULT] supplies what a section lacks. *)

(** [str.lower], on the characters of one byte: the letters A to Z and the
    capital letters of Latin-1. *)
Definition lower_char (x : ascii) : ascii :=
  let n := nat_of_ascii x in
  if ((65 <=? n) && (n <=? 90))%nat
     || ((192 <=? n) && (n <=? 222) && negb (n =? 215))%nat
  then ascii_of_nat (n + 32) else x.

Fixpoint lower (s : string) : string :=
  match s with
  | EmptyString => EmptyString
  | String x rest => String (lower_char x) (lower rest)
  end.

Definition optionxform (option : string) : string := lower option.

Definition PERCENT : ascii := "%"%char.

(** ['%' in s] *)
Fixpoint has_percent (s : string) : bool :=
  match s with
  | EmptyString => false
  | String x rest => Ascii.eqb x PERCENT || has_percent rest
  end.

(** The characters of a name up to its closing parenthesis, and what follows
    the parenthesis. *)
Fixpoint key_name (s : string) : option (string * string) :=
  match s with
  | EmptyString => None
  | String x rest =>
      if Ascii.eqb x ")" then Some (EmptyString, rest)
      else match key_name rest with
           | Some (name, rest') => Some (String x name, rest')
           | None => None
           end
  end.

(** [_KEYCRE.match(s)] for the pattern [%\(([^)]+)\)s]: the name, and what
    follows the match. *)
Definition match_key (s : string) : option (string * string) :=
  match s with
  | String x (String y rest) =>
      if Ascii.eqb x PERCENT && Ascii.eqb y "(" then
        match key_name rest with
        | Some (String n name, String z rest') =>
            if Ascii.eqb z "s" then Some (String n name, rest') else None
        | _ => None
        end
      else None
  | _ => None
  end.

(** [value.replace('%%', '')] *)
Fixpoint without_escaped_percents (s : string) : string :=
  match s with
  | EmptyString => EmptyString
  | String x rest =>
      match rest with
      | String y rest' =>
          if Ascii.eqb x PERCENT && Ascii.eqb y PERCENT
          then without_escaped_percents rest'
          else String x (without_escaped_percents rest)
      | EmptyString => String x EmptyString
      end
  end.

(** [_KEYCRE.sub('', s)]; [n] bounds the length of [s]. *)
Fixpoint without_keys (n : nat) (s : string) : string :=
  match n, s with
  | S n', String x rest =>
      match match_key s with
      | Some (_, rest') => without_keys n' rest'
      | None => String x (without_keys n' rest)
      end
  | _, _ => s
  end.

(** No percent sign is left once the escaped percent signs and the
    references are taken out. *)
Definition valid_interpolation_syntax (value : string) : bool :=
  let tmp_value := without_escaped_percents value in
  negb (has_percent (without_keys (String.length tmp_value) tmp_value)).

Definition MAX_INTERPOLATION_DEPTH : nat := 10.

(** The loop of [_interpolate_some] over [rest]; [nested] interpolates a
    value one level deeper and [n] bounds the length of [rest]. *)
Fixpoint interpolate_loop (nested : string -> outcome string)
    (map : string -> option string) (n : nat) (rest : string) : outcome string :=
  match n, rest with
  | S n', String x r =>
      if negb (Ascii.eqb x PERCENT) then
        match interpolate_loop nested map n' r with
        | Return t => Return (String x t)
        | Raise e => Raise e
        end
      else
        match r with
        | String y r2 =>
            if Ascii.eqb y PERCENT then
              match interpolate_loop nested map n' r2 with
              | Return t => Return (String PERCENT t)
              | Raise e => Raise e
              end
            else if Ascii.eqb y "(" then
              match match_key rest with
              | None => Raise InterpolationSyntaxError
              | Some (name, r3) =>
                  let var := optionxform name in
                  match map var with
                  | None => Raise (InterpolationMissingOptionError var)
                  | Some v =>
                      match (if has_percent v then nested v else Return v) with
                      | Raise e => Raise e
                      | Return expanded =>
                          match interpolate_loop nested map n' r3 with
                          | Return t => Return (expanded +:+ t)
                          | Raise e => Raise e
                          end
                      end
                  end
              end
            else Raise InterpolationSyntaxError
        | EmptyString => Raise InterpolationSyntaxError
        end
  | _, _ => Return EmptyString
  end.

(** [_interpolate_some], with [levels] levels of nesting left. *)
Fixpoint interpolate_some (map : string -> option string) (levels : nat)
    (rest : string) {struct levels} : outcome string :=
  match levels with
  | 0 => Raise InterpolationDepthError
  | S levels' =>
      interpolate_loop (interpolate_some map levels') map (String.length rest) rest
  end.

(** [BasicInterpolation.before_get] *)
Definition before_get (map : string -> option string) (value : string)
  : outcome string :=
  interpolate_some map MAX_INTERPOLATION_DEPTH value.

(** The defaults of the parser. *)
Definition defaults (c : config_parser) : gmap string string :=
  default ∅ (c !! "DEFAULT").

(** The options a section sees: its own, then the defaults. *)
Definition unify_values (sec dflt : gmap string string) (name : string)
  : option string :=
  match sec !! name with
  | Some v => Some v
  | None => dflt !! name
  end.

(** [config[section][option]] *)
Definition config_getitem (c : config_parser) (section option : string)
  : outcome string :=
  match (if String.eqb section "DEFAULT" then Some ∅ else c !! section) with
  | None => Raise (KeyError section)
  | Some sec =>
      let d := unify_values sec (defaults c) in
      match d (optionxform option) with
      | None => Raise (KeyError option)
      | Some value => before_get d value
      end
  end.

(** [BasicInterpolation.before_set] *)
Definition before_set (value : string) : outcome string :=
  if valid_interpolation_syntax value then Return value else Raise ValueError.

(** [config.set(section, option, value)]: the value must be a [str]; unless
    it is empty its interpolation syntax must be valid; the section must
    exist. *)
Definition config_set (c : config_parser) (section option : string) (value : json)
  : outcome config_parser :=
  match value with
  | JStr v =>
      match (if String.eqb v EmptyString then Return v else before_set v) with
      | Raise e => Raise e
      | Return v =>
          if String.eqb section EmptyString || String.eqb section "DEFAULT" then
            Return (<["DEFAULT" := <[optionxform option := v]> (defaults c)]> c)
          else
            match c !! section with
            | None => Raise (NoSectionError section)
            | Some sec => Return (<[section := <[optionxform option := v]> sec]> c)
            end
      end
  | _ => Raise TypeError
  end.

(** [requests.post / patch / put]: the request goes out, the service answers. *)
Definition send (r : request) : M response :=
  fun s =>
    let resp := api (env s) (sent (env s)) r in
    (Return resp, record (Sent r) s).

(** [response.raise_for_status()] raises on a 4xx or 5xx status. *)
Definition raise_for_status (r : response) : M unit :=
  if (400 <=? status_code r)%nat && (status_code r <? 600)%nat
  then raise (HTTPError (status_code r))
  else ret tt.

(** [response.json()] *)
Definition response_json (r : response) : outcome json :=
  match body r with
  | Some v => Return v
  | None => Raise JSONDecodeError
  end.

Definition logging (lvl : level) (msg : string) : M unit :=
  modify (fun s => with_log (log (env s) ++ [(lvl, msg)]) s).

(** [logging.exception] logs at level ERROR. *)
Definition logging_exception (msg : string) : M unit := logging ERROR msg.
Definition logging_debug (msg : string) : M unit := logging DEBUG msg.
Definition logging_info (msg : string) : M unit := logging INFO msg.

Definition json_headers (auth : string) : list (string * string) :=
  [("content-type", "application/json"); ("Authorization", "Bearer " +:+ auth)].

(** ** Reading the CSV file

    [open(path)] opens the file in text mode: every line ending is handed
    over as a line feed, and iterating the file yields its lines, each with
    its line feed. *)

Fixpoint universal_newlines (raw : string) : string :=
  match raw with
  | EmptyString => EmptyString
  | String c rest =>
      if Ascii.eqb c CR then
        match rest with
        | String c2 rest2 =>
            if Ascii.eqb c2 LF then String LF (universal_newlines rest2)
            else String LF (universal_newlines rest)
        | EmptyString => String LF EmptyString
        end
      else String c (universal_newlines rest)
  end.

Fixpoint readlines_from (cur : string) (text : string) : list string :=
  match text with
  | EmptyString => match cur with EmptyString => [] | _ => [cur] end
  | String c rest =>
      if Ascii.eqb c LF then (cur +:+ nl) :: readlines_from EmptyString rest
      else readlines_from (cur +:+ String c EmptyString) rest
  end.

Definition readlines (text : string) : list string :=
  readlines_from EmptyString text.

(** [csv.reader(csv_file, delimiter=',')]: the reader of the standard library
    with the default dialect (quote character the double quote, doubled
    quotes inside a quoted field, minimal quoting, not strict, no escape
    character), as it is since Python 3.11.  The reader is a state machine
    fed one character at a time, and an end-of-line mark after each line. *)

Inductive parser_state : Type :=
| START_RECORD
| START_FIELD
| IN_FIELD
| IN_QUOTED_FIELD
| QUOTE_IN_QUOTED_FIELD
| EAT_CRNL.

Record reader : Type := Reader {
  rstate : parser_state;
  fields : list string;
  field : string
}.

Definition delimiter : ascii := ","%char.
Definition quotechar : ascii := DQUOTE.

(** [csv.field_size_limit()] *)
Definition field_limit : N := 131072%N.

Definition parse_reset : reader := Reader START_RECORD [] EmptyString.

Definition set_rstate (st : parser_state) (r : reader) : reader :=
  Reader st (fields r) (field r).

Definition parse_save_field (r : reader) : reader :=
  Reader (rstate r) (fields r ++ [field r]) EmptyString.

(** [None]: the field is larger than the field limit, [csv.Error]. *)
Definition parse_add_char (r : reader) (c : ascii) : option reader :=
  if (field_limit <=? N.of_nat (String.length (field r)))%N then None
  else Some (Reader (rstate r) (fields r) (field r +:+ String c EmptyString)).

Definition is_newline (c : ascii) : bool := Ascii.eqb c LF || Ascii.eqb c CR.

(** The state a record ends in: back to the start at the end-of-line mark,
    eating the line ending otherwise. *)
Definition after_record (c : option ascii) : parser_state :=
  match c with None => START_RECORD | Some _ => EAT_CRNL end.

Definition is_eol_or_newline (c : option ascii) : bool :=
  match c with None => true | Some ch => is_newline ch end.

(** The case [START_FIELD] of the machine. *)
Definition start_field (r : reader) (c : option ascii) : option reader :=
  if is_eol_or_newline c then
    Some (set_rstate (after_record c) (parse_save_field r))
  else match c with
  | None => Some r
  | Some ch =>
      if Ascii.eqb ch quotechar then Some (set_rstate IN_QUOTED_FIELD r)
      else if Ascii.eqb ch delimiter then Some (parse_save_field r)
      else option_map (set_rstate IN_FIELD) (parse_add_char r ch)
  end.

(** [c] is a character of the line, or [None] for the end-of-line mark.
    The result [None] is [csv.Error]. *)
Definition parse_process_char (r : reader) (c : option ascii) : option reader :=
  match rstate r with
  | START_RECORD =>
      match c with
      | None => Some r
      | Some ch =>
          if is_newline ch then Some (set_rstate EAT_CRNL r)
          else start_field (set_rstate START_FIELD r) c
      end
  | START_FIELD => start_field r c
  | IN_FIELD =>
      if is_eol_or_newline c then
        Some (set_rstate (after_record c) (parse_save_field r))
      else match c with
      | None => Some r
      | Some ch =>
          if Ascii.eqb ch delimiter
          then Some (set_rstate START_FIELD (parse_save_field r))
          else parse_add_char r ch
      end
  | IN_QUOTED_FIELD =>
      match c with
      | None => Some r
      | Some ch =>
          if Ascii.eqb ch quotechar then Some (set_rstate QUOTE_IN_QUOTED_FIELD r)
          else parse_add_char r ch
      end
  | QUOTE_IN_QUOTED_FIELD =>
      match c with
      | Some ch =>
          if Ascii.eqb ch quotechar
          then option_map (set_rstate IN_QUOTED_FIELD) (parse_add_char r ch)
          else if Ascii.eqb ch delimiter
          then Some (set_rstate START_FIELD (parse_save_field r))
          else if is_newline ch
          then Some (set_rstate EAT_CRNL (parse_save_field r))
          else option_map (set_rstate IN_FIELD) (parse_add_char r ch)
      | None => Some (set_rstate START_RECORD (parse_save_field r))
      end
  | EAT_CRNL =>
      match c with
      | None => Some (set_rstate START_RECORD r)
      | Some ch => if is_newline ch then Some r else None
      end
  end.

(** One line of the file: its characters, then the end-of-line mark. *)
Fixpoint feed_line (r : reader) (line : string) : option reader :=
  match line with
  | EmptyString => parse_process_char r None
  | String c rest =>
      match parse_process_char r (Some c) with
      | None => None
      | Some r' => feed_line r' rest
      end
  end.

Definition at_start_record (r : reader) : bool :=
  match rstate r with START_RECORD => true | _ => false end.

Definition in_quoted_field (r : reader) : bool :=
  match rstate r with IN_QUOTED_FIELD => true | _ => false end.

(** All records of the file.  A record is complete when a line leaves the
    machine at the start of a record; the reader then starts afresh.  When
    the lines run out inside a record, what was read is the last record. *)
Fixpoint reader_rows (r : reader) (lines : list string) : outcome (list (list string)) :=
  match lines with
  | [] =>
      if negb (String.eqb (field r) EmptyString) || in_quoted_field r
      then Return [fields (parse_save_field r)]
      else Return []
  | line :: rest =>
      match feed_line r line with
      | None => Raise CsvError
      | Some r' =>
          if at_start_record r' then
            match reader_rows parse_reset rest with
            | Return rows => Return (fields r' :: rows)
            | Raise e => Raise e
            end
          else reader_rows r' rest
      end
  end.

Definition csv_reader (raw : string) : outcome (list (list string)) :=
  reader_rows parse_reset (readlines (universal_newlines raw)).

(** ** Formatting the time *)

Definition digit (n : nat) : ascii := ascii_of_nat (48 + n mod 10).

Definition pad2 (n : nat) : string :=
  String (digit (n / 10)) (String (digit n) EmptyString).

Definition pad4 (n : nat) : string :=
  String (digit (n / 1000)) (String (digit (n / 100)) (pad2 n)).

(** What a directive of the format stands for: the zero-padded month, day,
    four-digit year, hour on the 24-hour clock, minute and second, and the
    AM/PM mark of the C locale (the script sets no other). *)
Definition directive (d : ascii) (t : datetime) : string :=
  if Ascii.eqb d "m" then pad2 (month t)
  else if Ascii.eqb d "d" then pad2 (day t)
  else if Ascii.eqb d "Y" then pad4 (year t)
  else if Ascii.eqb d "H" then pad2 (hour t)
  else if Ascii.eqb d "M" then pad2 (minute t)
  else if Ascii.eqb d "S" then pad2 (second t)
  else if Ascii.eqb d "p" then (if (hour t <? 12)%nat then "AM" else "PM")
  else String "%" (String d EmptyString).

Fixpoint strftime (fmt : string) (t : datetime) : string :=
  match fmt with
  | EmptyString => EmptyString
  | String c rest =>
      if Ascii.eqb c "%" then
        match rest with
        | String d rest' => directive d t +:+ strftime rest' t
        | EmptyString => String c EmptyString
        end
      else String c (strftime rest t)
  end.

(** ** The methods of [DataWrapperMap] *)

(** [__init__]: the files named by the two configured paths are the world's
    [html_file] and [csv_file]. *)
Definition init (c : config_parser) (environ : gmap string string)
  : outcome DataWrapperMap :=
  match config_getitem c "DATA_WRAPPER" "API_AUTH_CODE" with
  | Raise e => Raise e
  | Return var =>
      match environ !! var with
      | None => Raise (KeyError var)
      | Some auth =>
          match config_getitem c "DATA_WRAPPER" "MAP_ID" with
          | Raise e => Raise e
          | Return id =>
              match config_getitem c "DATA_SOURCES" "HTML_OUTPUT_FILE_PATH" with
              | Raise e => Raise e
              | Return html =>
                  match config_getitem c "DATA_SOURCES" "OUTPUT_CSV_FILE_PATH" with
                  | Raise e => Raise e
                  | Return csv => Return (Self c auth (JStr id) html csv)
                  end
              end
          end
      end
  end.

Definition set_map_id : M unit :=
  logging_debug "Writing new map_id to config file: %s" ;;;
  s <- get ;;
  c <- lift (config_set (config (self s)) "DATA_WRAPPER" "MAP_ID" (map_id (self s))) ;;
  modify (with_config c) ;;;
  (* the whole configuration is written over config.ini *)
  modify (fun s => record (ConfigWritten c) (with_config_ini c s)).

Definition create_choropleth : M unit :=
  s <- get ;;
  let url := "https://api.datawrapper.de/v3/charts" in
  let payload := ChartSpec "Irish Covid19 Cases" "d3-maps-choropleth" in
  let headers := json_headers (api_auth_code (self s)) in
  response <- send (Request POST url payload headers) ;;
  try_except_HTTPError (raise_for_status response)
    (fun err => logging_exception "Map Create Failed: error was: %s") ;;;
  logging_debug "Created new choropleth with map_id: %s" ;;;
  j <- lift (response_json response) ;;
  id <- lift (subscript j "id") ;;
  modify (with_map_id id) ;;;
  (* Store the map id for subsequent runs *)
  set_map_id.

Definition configure_map_settings : M unit :=
  s <- get ;;
  url <- lift (str_add "https://api.datawrapper.de/v3/charts/" (map_id (self s))) ;;
  let headers := json_headers (api_auth_code (self s)) in
  response <- send (Request PATCH url MapSettings headers) ;;
  try_except_HTTPError (raise_for_status response)
    (fun err => logging_exception "Map configuration setting failed: error was: %s") ;;;
  logging_debug "Updated map settings for map_id: %s".

Definition add_map_tooltip : M unit :=
  s <- get ;;
  url <- lift (str_add "https://api.datawrapper.de/v3/charts/" (map_id (self s))) ;;
  let headers := json_headers (api_auth_code (self s)) in
  response <- send (Request PATCH url TooltipSettings headers) ;;
  try_except_HTTPError (raise_for_status response)
    (fun err => logging_exception "Tooltip add failed for map_id: %s: error was: %s") ;;;
  logging_debug "Added tooltip hover settings for map_id: %s".

(** The loop [for row in csv_data: county_results += ', '.join(row) + '\n'] *)
Definition county_results_of (rows : list (list string)) : string :=
  fold_left (fun county_results row => county_results +:+ (String.concat ", " row +:+ nl))
            rows EmptyString.

Definition update_map_data : M unit :=
  s <- get ;;
  prefix <- lift (str_add "https://api.datawrapper.de/v3/charts/" (map_id (self s))) ;;
  let url := prefix +:+ "/data" in
  let headers := [("accept", "*/*"); ("content-type", "text/csv");
                  ("Authorization", "Bearer " +:+ api_auth_code (self s))] in
  raw <- lift (match csv_file (env s) with
               | Some raw => Return raw
               | None => Raise FileNotFoundError
               end) ;;
  csv_data <- lift (csv_reader raw) ;;
  let county_results := county_results_of csv_data in
  response <- send (Request PUT url (Text county_results) headers) ;;
  try_except_HTTPError (raise_for_status response)
    (fun err => logging_exception "Update of map data failed: error was: %s") ;;;
  logging_debug "Map data updated successfully from csv for map_id: %s".

Definition set_last_update_timestamp : M unit :=
  s <- get ;;
  let now := clock (env s) in
  let timestamp_now := strftime "%m/%d/%Y, %H:%M:%S %p" now in
  url <- lift (str_add "https://api.datawrapper.de/v3/charts/" (map_id (self s))) ;;
  let headers := json_headers (api_auth_code (self s)) in
  let payload := AnnotateNotes ("Last update:" +:+ timestamp_now) in
  response <- send (Request PATCH url payload headers) ;;
  try_except_HTTPError (raise_for_status response)
    (fun err => logging_exception "Set timestamp fail for map_id: %s: error was: %s") ;;;
  logging_debug "Set last update timestamp for map_id: %s".

(** [open(self.html_map_output, "w")] empties the file. *)
Definition open_html_w : M unit :=
  modify (fun s => record HtmlOpened (with_html_file (Some EmptyString) s)).

(** [html_file.write(v)] on the file just opened: only a [str] can be
    written. *)
Definition file_write (v : json) : M unit :=
  match v with
  | JStr text => modify (fun s => record (HtmlWritten text) (with_html_file (Some text) s))
  | _ => raise TypeError
  end.

Definition publish_map : M unit :=
  set_last_update_timestamp ;;;
  s <- get ;;
  prefix <- lift (str_add "https://api.datawrapper.de/charts/" (map_id (self s))) ;;
  let url := prefix +:+ "/publish" in
  let headers := json_headers (api_auth_code (self s)) in
  response <- send (Request POST url NoData headers) ;;
  try_except_HTTPError (raise_for_status response)
    (fun err => logging_exception "Map publishing fail for map_id: %s: error was: %s") ;;;
  logging_debug "Map published successfully for map_id: %s" ;;;
  j <- lift (response_json response) ;;
  d <- lift (subscript j "data") ;;
  m <- lift (subscript d "metadata") ;;
  embed_codes <- lift (subscript m "publish") ;;
  logging_debug "Writing html iframe to disk for map_id: %s" ;;;
  (* the file is opened, and so emptied, before the argument of [write]
     is evaluated *)
  open_html_w ;;;
  codes <- lift (subscript embed_codes "embed-codes") ;;
  snippet <- lift (subscript codes "embed-method-responsive") ;;
  file_write snippet.

Definition run_map_creation : M unit :=
  create_choropleth ;;;
  configure_map_settings ;;;
  add_map_tooltip ;;;
  update_map_data ;;;
  publish_map.

Definition run_map_update : M unit :=
  update_map_data ;;;
  publish_map.

(** ** The entry point

    [run_type] is the positional argument as [parse_args] returns it.  The
    result is the exit status of the process: 0 when [main] returns, 1 when
    an exception leaves it. *)

Definition exit_status {A} (o : outcome A) : nat :=
  match o with Return _ => 0 | Raise _ => 1 end.

(** The names [logging] knows for a level. *)
Definition level_names : list string :=
  ["CRITICAL"; "FATAL"; "ERROR"; "WARN"; "WARNING"; "INFO"; "DEBUG"; "NOTSET"].

(** [logging.basicConfig(filename=..., format=..., level=lvl)] on a root
    logger without handlers: the log file is opened for appending, then the
    level is set, which needs one of the names of a level. *)
Definition logging_basicConfig (dir lvl : string) (w : world) : outcome unit :=
  match log_file w dir with
  | Raise e => Raise e
  | Return _ =>
      if existsb (String.eqb lvl) level_names then Return tt else Raise ValueError
  end.

Definition main_body (run_type : string) (environ : gmap string string) (w : world)
  : outcome unit * world :=
  let c := config_ini w in
  match config_getitem c "LOGGING" "LOG_DIR" with
  | Raise e => (Raise e, w)
  | Return dir =>
      match config_getitem c "LOGGING" "LOG_LEVEL" with
      | Raise e => (Raise e, w)
      | Return lvl =>
          match logging_basicConfig dir lvl w with
          | Raise e => (Raise e, w)
          | Return _ =>
              match init c environ with
              | Raise e => (Raise e, w)
              | Return mapper =>
                  let m : M unit :=
                    if String.eqb run_type "create" then
                      logging_info "Initiating map creation process" ;;;
                      run_map_creation
                    else if String.eqb run_type "update" then
                      logging_info "Initiating map data update process" ;;;
                      run_map_update
                    else ret tt in
                  let '(o, s) := m (State mapper w) in
                  (o, env s)
              end
          end
      end
  end.

Definition main (run_type : string) (environ : gmap string string) (w : world)
  : nat * world :=
  let '(o, w') := main_body run_type environ w in
  (exit_status o, w').

(** * The vocabulary of the statements *)

(** ** The steps of the workflows, as the trace shows them *)

Inductive step : Type :=
| Create
| PersistIdentifier
| Configure
| SetTooltip
| PushData
| StampTimestamp
| Publish
| OpenArtifact
| WriteArtifact
| Unknown.

Definition step_of_request (r : request) : step :=
  match method r, data r with
  | POST, ChartSpec _ _ => Create
  | PATCH, MapSettings => Configure
  | PATCH, TooltipSettings => SetTooltip
  | PUT, Text _ => PushData
  | PATCH, AnnotateNotes _ => StampTimestamp
  | POST, NoData => Publish
  | _, _ => Unknown
  end.

Definition step_of (e : event) : step :=
  match e with
  | Sent r => step_of_request r
  | ConfigWritten _ => PersistIdentifier
  | HtmlOpened => OpenArtifact
  | HtmlWritten _ => WriteArtifact
  end.

Definition steps_of (t : list event) : list step := map step_of t.

Definition returned {A} (o : outcome A) : bool :=
  match o with Return _ => true | Raise _ => false end.

(** The three addresses built from a map identifier. *)
Definition chart_url (id : string) : string :=
  "https://api.datawrapper.de/v3/charts/" +:+ id.
Definition data_url (id : string) : string :=
  "https://api.datawrapper.de/v3/charts/" +:+ id +:+ "/data".
Definition publish_url (id : string) : string :=
  "https://api.datawrapper.de/charts/" +:+ id +:+ "/publish".

(** The request goes to the map [id]. *)
Definition addressed_to (id : json) (r : request) : bool :=
  match id with
  | JStr i =>
      String.eqb (url r) (chart_url i) || String.eqb (url r) (data_url i)
      || String.eqb (url r) (publish_url i)
  | _ => false
  end.

(** A method [emits] a list of steps when every run of it adds to the trace
    those steps, in that order, and nothing else: all of them when it
    returns, the first few of them when it raises. *)
Definition emits {A} (m : M A) (steps : list step) : Prop :=
  forall s, exists t,
    trace (env (m s).2) = (trace (env s) ++ t) /\
    if returned (m s).1 then steps_of t = steps
    else steps_of t `prefix_of` steps.

(** The order of the steps of the two workflows. *)
Definition creation_steps : list step :=
  [Create; PersistIdentifier; Configure; SetTooltip; PushData;
   StampTimestamp; Publish; OpenArtifact; WriteArtifact].

Definition update_steps : list step :=
  [PushData; StampTimestamp; Publish; OpenArtifact; WriteArtifact].

(** ** What the steps after creation keep

    The object is the same, [config.ini] is the same, and every request that
    was sent went to the map the object names. *)
Definition same_identifier (s s' : state) : Prop :=
  self s' = self s /\
  config_ini (env s') = config_ini (env s) /\
  exists t, trace (env s') = trace (env s) ++ t /\
            forallb (addressed_to (map_id (self s))) (sent_in t) = true.

(** ** The data payload *)

(** One row as it is sent: its fields joined by a comma and a space, then a
    line feed. *)
Definition row_line (row : list string) : string := String.concat ", " row +:+ nl.

(** The payload in the words of the specification: the rows one after the
    other, in their order, each as its line. *)
Definition transcoded (rows : list (list string)) : string :=
  String.concat "" (map row_line rows).

Definition data_headers (auth : string) : list (string * string) :=
  [("accept", "*/*"); ("content-type", "text/csv");
   ("Authorization", "Bearer " +:+ auth)].

(** ** Creating the map and persisting its identifier *)

(** The request [create_choropleth] sends. *)
Definition create_request (auth : string) : request :=
  Request POST "https://api.datawrapper.de/v3/charts"
    (ChartSpec "Irish Covid19 Cases" "d3-maps-choropleth") (json_headers auth).

(** A 2xx status. *)
Definition is_success (r : response) : bool :=
  (200 <=? status_code r)%nat && (status_code r <? 300)%nat.

(** The configuration with [i] as its MAP_ID entry. *)
Definition with_identifier (i : string) (c : config_parser) : config_parser :=
  match c !! "DATA_WRAPPER" with
  | Some sec => <["DATA_WRAPPER" := <["map_id" := i]> sec]> c
  | None => c
  end.

(** ** The pattern of the timestamp *)

Definition is_digit (c : ascii) : bool :=
  (48 <=? nat_of_ascii c)%nat && (nat_of_ascii c <=? 57)%nat.

(** The pieces of a pattern: a decimal digit, a given character, AM or PM. *)
Inductive piece : Type := D | L (c : ascii) | AMPM.

Fixpoint matches (p : list piece) (s : string) : bool :=
  match p, s with
  | [], EmptyString => true
  | D :: p', String c s' => is_digit c && matches p' s'
  | L x :: p', String c s' => Ascii.eqb c x && matches p' s'
  | AMPM :: p', String a (String b s') =>
      (Ascii.eqb a "A" || Ascii.eqb a "P") && Ascii.eqb b "M" && matches p' s'
  | _, _ => false
  end.

(** MM/DD/YYYY, HH:MM:SS (AM|PM) *)
Definition timestamp_pattern : list piece :=
  [D; D; L "/"; D; D; L "/"; D; D; D; D; L ","; L " ";
   D; D; L ":"; D; D; L ":"; D; D; L " "; AMPM].

(** The value of a string of decimal digits. *)
Definition decimal (s : string) : nat :=
  fold_left (fun n c => 10 * n + (nat_of_ascii c - 48)) (list_ascii_of_string s) 0.

(** The times the clock of a running system shows: a date and a time of day,
    in a year of four digits. *)
Definition valid_datetime (t : datetime) : bool :=
  (1000 <=? year t)%nat && (N.of_nat (year t) <=? 9999)%N &&
  (1 <=? month t)%nat && (month t <=? 12)%nat &&
  (1 <=? day t)%nat && (day t <=? 31)%nat &&
  (hour t <=? 23)%nat && (minute t <=? 59)%nat && (second t <=? 59)%nat.

Definition timestamp_format : string := "%m/%d/%Y, %H:%M:%S %p".

(** ** Text, character by character *)

Fixpoint string_forallb (P : ascii -> bool) (s : string) : bool :=
  match s with
  | EmptyString => true
  | String c rest => P c && string_forallb P rest
  end.

Definition is_not (c : ascii) (x : ascii) : bool := negb (Ascii.eqb x c).

(** The characters of a line without the end-of-line mark. *)
Fixpoint feed_chars (r : reader) (chars : string) : option reader :=
  match chars with
  | EmptyString => Some r
  | String c rest =>
      match parse_process_char r (Some c) with
      | None => None
      | Some r' => feed_chars r' rest
      end
  end.

(** ** The configuration file, written and read again *)

(** [config.get(section, name, raw=True)], for a name in lower case:
    the value as stored. *)
Definition config_raw (c : config_parser) (section name : string)
  : option string :=
  c !! section ≫= (.!! name).

(** [str.isspace] on a character of one byte. *)
Definition is_space (x : ascii) : bool :=
  let n := nat_of_ascii x in
  (((9 <=? n) && (n <=? 13)) || ((28 <=? n) && (n <=? 32))
   || (n =? 133) || (n =? 160))%nat.

Fixpoint lstrip (s : string) : string :=
  match s with
  | EmptyString => EmptyString
  | String x rest => if is_space x then lstrip rest else s
  end.

Fixpoint rstrip (s : string) : string :=
  match s with
  | EmptyString => EmptyString
  | String x rest =>
      match rstrip rest with
      | EmptyString => if is_space x then EmptyString else String x EmptyString
      | t => String x t
      end
  end.

(** [str.strip] *)
Definition strip (s : string) : string := rstrip (lstrip s).

(** Letters, digits and the underscore. *)
Definition name_char (x : ascii) : bool :=
  let n := nat_of_ascii x in
  (((48 <=? n) && (n <=? 57)) || ((65 <=? n) && (n <=? 90))
   || ((97 <=? n) && (n <=? 122)) || (n =? 95))%nat.

Definition section_name (s : string) : bool :=
  negb (String.eqb s EmptyString) && string_forallb name_char s.

Definition option_name (s : string) : bool :=
  section_name s && String.eqb (lower s) s.

Definition one_line (v : string) : bool :=
  string_forallb (fun x => negb (is_newline x)) v.

(** A configuration whose file is read line by line as it was written: the
    names hold letters, digits and underscores, and no value runs over a
    line. *)
Definition plain_file (c : config_parser) : Prop :=
  map_Forall (fun section sec =>
    section_name section = true /\
    map_Forall (fun option v => option_name option = true /\ one_line v = true)
               (sec : gmap string string)) c.

(** What [config.read] yields from the file [config.write] made of [c]: every
    value comes back without the white space at its ends.  [None]: the file
    is not a plain one, and what it reads as is not described. *)
Definition stripped (sec : gmap string string) : gmap string string :=
  strip <$> sec.

Definition reread (c : config_parser) : option config_parser :=
  if decide (plain_file c) then Some (stripped <$> c) else None.

(** A value [config.set] takes: the empty text, or a text whose
    interpolation syntax is valid. *)
Definition accepted (i : string) : bool :=
  String.eqb i EmptyString || valid_interpolation_syntax i.

(** An identifier the configuration stores and gives back as it is: it holds
    no percent sign and no white space. *)
Definition storable (i : string) : bool :=
  string_forallb (fun x => negb (Ascii.eqb x PERCENT) && negb (is_space x)) i.

(** ** A sample installation *)

Definition example_config : config_parser :=
  {[ "LOGGING" := {[ "log_dir" := "logs"; "log_level" := "DEBUG" ]};
     "DATA_WRAPPER" := {[ "api_auth_code" := "DW_TOKEN"; "map_id" := "abcde" ]};
     "DATA_SOURCES" := {[ "html_output_file_path" := "map.html";
                          "output_csv_file_path" := "cases.csv" ]} ]}.

Definition example_environ : gmap string string := {[ "DW_TOKEN" := "secret" ]}.

Definition example_csv : string := "CARLOW,5" +:+ nl +:+ "CAVAN,5" +:+ nl.

Definition example_rows : list (list string) := [["CARLOW"; "5"]; ["CAVAN"; "5"]].

(** The body of a publish response. *)
Definition published (snippet : string) : json :=
  JObj [("data", JObj [("metadata", JObj [("publish", JObj [("embed-codes",
     JObj [("embed-method-responsive", JStr snippet)])])])])].

(** The body the service sends with an error status. *)
Definition error_body (status : Z) (error message : string) : json :=
  JObj [("statusCode", JNum status); ("error", JStr error); ("message", JStr message)].

Definition is_create (r : request) : bool :=
  match step_of_request r with Create => true | _ => false end.

Definition is_publish (r : request) : bool :=
  match step_of_request r with Publish => true | _ => false end.

(** A service where every call succeeds. *)
Definition api_ok (history : list request) (r : request) : response :=
  if is_create r then Response 201 (Some (JObj [("id", JStr "XyZ12")]))
  else if is_publish r then Response 200 (Some (published "<iframe/>"))
  else Response 200 (Some (JObj [])).

(** A service that refuses the create call. *)
Definition api_create_fails (history : list request) (r : request) : response :=
  if is_create r
  then Response 401 (Some (error_body 401 "Unauthorized" "Missing authentication"))
  else api_ok history r.

(** A service that fails the publish call. *)
Definition api_publish_fails (history : list request) (r : request) : response :=
  if is_publish r
  then Response 500 (Some (error_body 500 "Internal Server Error" "An internal server error occurred"))
  else api_ok history r.

Definition example_world (service : list request -> request -> response) : world :=
  World service (Datetime 2020 3 21 18 39 33) example_config
        (fun _ => Return tt) (Some "<old/>") (Some example_csv) [] [].

Definition example_mapper : DataWrapperMap :=
  Self example_config "secret" (JStr "abcde") "map.html" "cases.csv".

Definition example_state (service : list request -> request -> response) : state :=
  State example_mapper (example_world service).

(** * More of the vocabulary *)

(** ** Requests that are sent whatever the answer *)

(** A status [raise_for_status] raises on. *)
Definition is_http_error (r : response) : bool :=
  (400 <=? status_code r)%nat && (status_code r <? 600)%nat.

(** What the status check of a method adds to the log. *)
Definition failure_log (r : response) (msg : string) : list log_record :=
  if is_http_error r then [(ERROR, msg)] else [].

(** The state a request method leaves: the request is in the trace and the
    log has its new records; nothing else has changed. *)
Definition after_request (r : request) (records : list log_record) (s : state)
  : state :=
  with_log (log (env s) ++ records) (record (Sent r) s).

Definition settings_request (i auth : string) : request :=
  Request PATCH (chart_url i) MapSettings (json_headers auth).

Definition tooltip_request (i auth : string) : request :=
  Request PATCH (chart_url i) TooltipSettings (json_headers auth).

Definition data_request (i auth : string) (rows : list (list string)) : request :=
  Request PUT (data_url i) (Text (county_results_of rows)) (data_headers auth).

Definition timestamp_request (i auth : string) (now : datetime) : request :=
  Request PATCH (chart_url i)
    (AnnotateNotes ("Last update:" +:+ strftime timestamp_format now))
    (json_headers auth).

Definition publish_request (i auth : string) : request :=
  Request POST (publish_url i) NoData (json_headers auth).

(** ** The body of the publish response *)

Definition outcome_bind {A B} (o : outcome A) (k : A -> outcome B) : outcome B :=
  match o with
  | Return a => k a
  | Raise e => Raise e
  end.

(** [response.json()['data']['metadata']['publish']] *)
Definition publish_section (r : response) : outcome json :=
  outcome_bind (response_json r) (fun j =>
  outcome_bind (subscript j "data") (fun d =>
  outcome_bind (subscript d "metadata") (fun m =>
  subscript m "publish"))).

(** [embed_codes['embed-codes']['embed-method-responsive']] *)
Definition responsive_code (embed_codes : json) : outcome json :=
  outcome_bind (subscript embed_codes "embed-codes") (fun codes =>
  subscript codes "embed-method-responsive").

(** [response.json()['id']] *)
Definition body_id (r : response) : outcome json :=
  outcome_bind (response_json r) (fun j => subscript j "id").

(** The state [publish_map] leaves once it has opened the artifact. *)
Definition artifact_opened (s : state) : state :=
  record HtmlOpened
    (with_html_file (Some EmptyString)
       (with_log (log (env s) ++ [(DEBUG, "Writing html iframe to disk for map_id: %s")]) s)).

(** The state the timestamp request and the publish request of
    [publish_map] leave. *)
Definition after_timestamp (i : string) (s : state) : state :=
  after_request (timestamp_request i (api_auth_code (self s)) (clock (env s)))
    (failure_log (api (env s) (sent (env s))
                    (timestamp_request i (api_auth_code (self s)) (clock (env s))))
       "Set timestamp fail for map_id: %s: error was: %s"
     ++ [(DEBUG, "Set last update timestamp for map_id: %s")]) s.

(** The answer to the publish request of [publish_map] run from [s]. *)
Definition publish_response (i : string) (s : state) : response :=
  api (env s)
    (sent (env s) ++ [timestamp_request i (api_auth_code (self s)) (clock (env s))])
    (publish_request i (api_auth_code (self s))).

Definition after_publish (i : string) (s : state) : state :=
  after_request (publish_request i (api_auth_code (self s)))
    (failure_log (publish_response i s)
       "Map publishing fail for map_id: %s: error was: %s"
     ++ [(DEBUG, "Map published successfully for map_id: %s")])
    (after_timestamp i s).

(** ** The create step *)

(** The answer to the create request of [create_choropleth] run from [s]. *)
Definition create_response (s : state) : response :=
  api (env s) (sent (env s)) (create_request (api_auth_code (self s))).

(** The state [create_choropleth] leaves when it has sent its request and
    logged. *)
Definition after_create_request (s : state) : state :=
  after_request (create_request (api_auth_code (self s)))
    (failure_log (create_response s) "Map Create Failed: error was: %s"
     ++ [(DEBUG, "Created new choropleth with map_id: %s")]) s.

(** The state [set_map_id] is in when it calls [config.set]: the object
    names the map [v]. *)
Definition identifier_assigned (v : json) (s : state) : state :=
  with_log (log (env (after_create_request s))
            ++ [(DEBUG, "Writing new map_id to config file: %s")])
    (with_map_id v (after_create_request s)).

(** The state [set_map_id] leaves when it has written [c] to config.ini. *)
Definition identifier_persisted (v : json) (c : config_parser) (s : state) : state :=
  record (ConfigWritten c) (with_config_ini c (with_config c (identifier_assigned v s))).

(** ** The workflows from end to end *)

(** What [update_map_data] gets when it reads and parses the CSV file. *)
Definition read_csv (w : world) : outcome (list (list string)) :=
  match csv_file w with
  | Some raw => csv_reader raw
  | None => Raise FileNotFoundError
  end.

(** The answer to the publish request of [run_map_update] run from [s]: the
    data request and the timestamp request went before it. *)
Definition update_publish_response (i : string) (rows : list (list string))
    (s : state) : response :=
  api (env s)
    (sent (env s)
     ++ [data_request i (api_auth_code (self s)) rows;
         timestamp_request i (api_auth_code (self s)) (clock (env s))])
    (publish_request i (api_auth_code (self s))).

(** The answer to the publish request of [run_map_creation] run from [s],
    when the map [i] was created: five requests went before it. *)
Definition creation_publish_response (i : string) (rows : list (list string))
    (s : state) : response :=
  api (env s)
    (sent (env s)
     ++ [create_request (api_auth_code (self s));
         settings_request i (api_auth_code (self s));
         tooltip_request i (api_auth_code (self s));
         data_request i (api_auth_code (self s)) rows;
         timestamp_request i (api_auth_code (self s)) (clock (env s))])
    (publish_request i (api_auth_code (self s))).

(** ** What no method touches *)

(** The service, the clock and the CSV file are the same. *)
Definition same_inputs (s s' : state) : Prop :=
  api (env s') = api (env s) /\
  clock (env s') = clock (env s) /\
  csv_file (env s') = csv_file (env s).

(** ** Files as the script expects them: bare fields *)

(** A character a field can hold without quotes. *)
Definition bare_char (x : ascii) : bool :=
  is_not delimiter x && is_not DQUOTE x && is_not CR x && is_not LF x.

Definition bare_field (f : string) : bool :=
  string_forallb bare_char f && (N.of_nat (String.length f) <=? field_limit)%N.

(** A row of bare fields; a row that is one empty field cannot be told from
    an empty row and is left out. *)
Definition bare_row (row : list string) : bool :=
  forallb bare_field row &&
  match row with
  | [EmptyString] => false
  | _ => true
  end.

Definition bare_line (row : list string) : string :=
  String.concat "," row +:+ nl.

Definition bare_text (rows : list (list string)) : string :=
  String.concat "" (map bare_line rows).

(** The text with a space after every comma. *)
Fixpoint comma_spaced (text : string) : string :=
  match text with
  | EmptyString => EmptyString
  | String c rest =>
      if Ascii.eqb c delimiter
      then String c (String " " (comma_spaced rest))
      else String c (comma_spaced rest)
  end.

(** ** Files that mix quoted and bare fields *)

(** A field as the file writes it: between double quotes, or bare. *)
Inductive cell : Type :=
| Quoted (content : string)
| Bare (content : string).

Definition content_of (c : cell) : string :=
  match c with
  | Quoted f => f
  | Bare f => f
  end.

(** The text with every double quote written twice. *)
Fixpoint doubled (f : string) : string :=
  match f with
  | EmptyString => EmptyString
  | String x rest =>
      if Ascii.eqb x DQUOTE then String DQUOTE (String DQUOTE (doubled rest))
      else String x (doubled rest)
  end.

(** The text of a field in the file. *)
Definition cell_text (c : cell) : string :=
  match c with
  | Quoted f => dq +:+ doubled f +:+ dq
  | Bare f => f
  end.

(** A character a quoted field can hold: any but a line ending. *)
Definition quotable_char (x : ascii) : bool := is_not CR x && is_not LF x.

(** A field within the field limit: between quotes any text of one line,
    commas and double quotes among them; without quotes a bare field. *)
Definition well_formed_cell (c : cell) : bool :=
  match c with
  | Quoted f =>
      string_forallb quotable_char f && (N.of_nat (String.length f) <=? field_limit)%N
  | Bare f => bare_field f
  end.

(** A row of such fields; a row that is one empty bare field cannot be told
    from an empty row and is left out. *)
Definition well_formed_row (row : list cell) : bool :=
  forallb well_formed_cell row &&
  match row with
  | [Bare EmptyString] => false
  | _ => true
  end.

Definition cells_line (row : list cell) : string :=
  String.concat "," (map cell_text row) +:+ nl.

Definition cells_text (rows : list (list cell)) : string :=
  String.concat "" (map cells_line rows).

(** The reader once it has read a field. *)
Definition after_cell (c : cell) (acc : list string) : reader :=
  match c with
  | Quoted f => Reader QUOTE_IN_QUOTED_FIELD acc f
  | Bare f =>
      Reader (match f with EmptyString => START_FIELD | _ => IN_FIELD end) acc f
  end.

(** The fields the rows stand for. *)
Definition contents (rows : list (list cell)) : list (list string) :=
  map (map content_of) rows.

(** The payload [update_map_data] makes of the text of a file. *)
Definition payload_of (raw : string) : outcome string :=
  match csv_reader raw with
  | Return rows => Return (county_results_of rows)
  | Raise e => Raise e
  end.

(** ** Line endings *)

(** The text with every line feed written as a carriage return and a line
    feed. *)
Fixpoint with_crlf (text : string) : string :=
  match text with
  | EmptyString => EmptyString
  | String c rest =>
      if Ascii.eqb c LF then String CR (String LF (with_crlf rest))
      else String c (with_crlf rest)
  end.

(** The text with every line feed written as a carriage return. *)
Fixpoint with_cr (text : string) : string :=
  match text with
  | EmptyString => EmptyString
  | String c rest =>
      if Ascii.eqb c LF then String CR (with_cr rest)
      else String c (with_cr rest)
  end.

(** ** The field limit *)

(** [n] times the character [c]. *)
Fixpoint string_repeat (c : ascii) (n : nat) : string :=
  match n with
  | O => EmptyString
  | S n' => String c (string_repeat c n')
  end.

(** ** More sample services and states *)

(** A service that answers every call with status 503 and no JSON body. *)
Definition api_unavailable (history : list request) (r : request) : response :=
  Response 503 None.

(** A service whose publish response has a publish section without embed
    codes. *)
Definition api_publish_no_code (history : list request) (r : request) : response :=
  if is_publish r
  then Response 200
         (Some (JObj [("data", JObj [("metadata", JObj [("publish", JObj [])])])]))
  else api_ok history r.

(** A service that answers the publish call with status 500 and the body of
    a publish all the same. *)
Definition api_publish_error_with_snippet (history : list request) (r : request)
  : response :=
  if is_publish r then Response 500 (Some (published "<iframe/>"))
  else api_ok history r.

(** A service that answers the create call with status 500 and an
    identifier all the same. *)
Definition api_create_error_with_id (history : list request) (r : request)
  : response :=
  if is_create r then Response 500 (Some (JObj [("id", JStr "XyZ12")]))
  else api_ok history r.

(** A service whose create response carries a number as identifier. *)
Definition api_create_numeric_id (history : list request) (r : request)
  : response :=
  if is_create r then Response 201 (Some (JObj [("id", JNum 7)]))
  else api_ok history r.

(** The DATA_WRAPPER section of the sample configuration. *)
Definition example_section : gmap string string :=
  {[ "api_auth_code" := "DW_TOKEN"; "map_id" := "abcde" ]}.

(** The publish section of the sample publish response. *)
Definition example_embed_codes : json :=
  JObj [("embed-codes", JObj [("embed-method-responsive", JStr "<iframe/>")])].

(** The sample installation without its CSV file. *)
Definition example_state_without_csv : state :=
  State example_mapper
        (World api_ok (Datetime 2020 3 21 18 39 33) example_config
               (fun _ => Return tt) (Some "<old/>") None [] []).

(** A service that answers every call with status 500; the bodies of its
    answers to the create and the publish requests are those of a success. *)
Definition api_errors_with_bodies (history : list request) (r : request) : response :=
  if is_create r then Response 500 (Some (JObj [("id", JStr "XyZ12")]))
  else if is_publish r then Response 500 (Some (published "<iframe/>"))
  else Response 500 None.

(** A service that creates the map under the identifier [i]. *)
Definition api_create_with_id (i : string) (history : list request) (r : request)
  : response :=
  if is_create r then Response 201 (Some (JObj [("id", JStr i)]))
  else api_ok history r.

(** The sample installation with a file that mixes quoted and bare fields. *)
Definition example_cells : list (list cell) :=
  [[Quoted "Cork, City"; Bare "7"]; [Bare "CAVAN"; Quoted "5"]].

Definition example_cells_state : state :=
  State example_mapper
        (World api_ok (Datetime 2020 3 21 18 39 33) example_config
               (fun _ => Return tt) (Some "<old/>") (Some (cells_text example_cells))
               [] []).

(** The map a process names when it starts on the file written from [c],
    and the address of the first request of its update workflow, started in
    the world [s] leaves. *)
Definition later_map_id (c : config_parser) (environ : gmap string string)
  : option json :=
  match reread c with
  | Some c2 =>
      match init c2 environ with
      | Return mapper2 => Some (map_id mapper2)
      | Raise _ => None
      end
  | None => None
  end.

Definition later_first_url (s : state) (environ : gmap string string)
  : option string :=
  match reread (config_ini (env s)) with
  | Some c2 =>
      match init c2 environ with
      | Return mapper2 =>
          match drop (length (sent (env s)))
                     (sent (env (run_map_update
                                   (State mapper2 (env (with_config_ini c2 s)))).2))
          with
          | r :: _ => Some (url r)
          | [] => None
          end
      | Raise _ => None
      end
  | None => None
  end.

(** The sample installation with another LOG_LEVEL. *)
Definition example_world_with_level (lvl : string) : world :=
  World api_ok (Datetime 2020 3 21 18 39 33)
        (<["LOGGING" := {[ "log_dir" := "logs"; "log_level" := lvl ]}]> example_config)
        (fun _ => Return tt) (Some "<old/>") (Some example_csv) [] [].

(** An object whose configuration has no section. *)
Definition example_state_without_section : state :=
  State (Self ∅ "secret" (JStr "abcde") "map.html" "cases.csv")
        (example_world api_ok).

(** A world whose config.ini is empty. *)
Definition example_world_without_config : world :=
  World api_ok (Datetime 2020 3 21 18 39 33) ∅
        (fun _ => Return tt) (Some "<old/>") (Some example_csv) [] [].

(** A field one character longer than the field limit. *)
Definition example_long_field : string :=
  string_repeat "a" (N.to_nat (field_limit + 1)).

(** The sample installation with that field at the start of its CSV file. *)
Definition example_state_long_field : state :=
  State example_mapper
        (World api_ok (Datetime 2020 3 21 18 39 33) example_config
               (fun _ => Return tt) (Some "<old/>") (Some (example_long_field +:+ ",5" +:+ nl)) [] []).

(** * Lemmas *)

(** ** Reasoning about methods step by step *)

Lemma string_app_cons (x : ascii) (a b : string) :
  String x a +:+ b = String x (a +:+ b).
Proof. reflexivity. Qed.

Lemma string_app_nil_l (a : string) : EmptyString +:+ a = a.
Proof. reflexivity. Qed.

Lemma string_app_assoc (a b c : string) : (a +:+ b) +:+ c = a +:+ (b +:+ c).
Proof.
  induction a as [|x a IH]; [reflexivity|].
  now rewrite !string_app_cons, IH.
Qed.

Lemma string_app_nil_r (a : string) : a +:+ EmptyString = a.
Proof.
  induction a as [|x a IH]; [reflexivity|].
  now rewrite string_app_cons, IH.
Qed.

Section Respects.
(** A relation between the state before and the state after, which every
    step of a method keeps. *)
Variable R : state -> state -> Prop.
Hypothesis R_refl : forall s, R s s.
Hypothesis R_trans : forall s1 s2 s3, R s1 s2 -> R s2 s3 -> R s1 s3.

(** The rest of a method runs from whatever state its first step
    leaves. *)
Lemma step_then {A B} (m : M A) (k : A -> M B) (s : state) :
  R s (m s).2 ->
  (forall a s1, R s s1 -> R s1 (k a s1).2) ->
  R s (bind m k s).2.
Proof using R_trans.
  intros Hm Hk. unfold bind.
  destruct (m s) as [[a|e] s1]; simpl in *; [|assumption].
  eapply R_trans; [exact Hm | now apply Hk].
Qed.

Lemma get_then {B} (k : state -> M B) (s : state) :
  R s (k s s).2 -> R s (bind get k s).2.
Proof. trivial. Qed.

Lemma lift_then {A B} (o : outcome A) (k : A -> M B) (s : state) :
  (forall a, o = Return a -> R s (k a s).2) -> R s (bind (lift o) k s).2.
Proof using R_refl.
  intros Hk. unfold bind, lift. destruct o as [a|e]; simpl; [now apply Hk | apply R_refl].
Qed.
End Respects.

(** A run of [bind m k] that returns went through a run of [m] that
    returned. *)
Lemma bind_returned {A B} (m : M A) (k : A -> M B) (s : state) :
  returned (bind m k s).1 = true ->
  exists a s1, m s = (Return a, s1) /\ bind m k s = k a s1.
Proof.
  unfold bind. destruct (m s) as [[a|e] s1]; simpl; [|discriminate].
  intros _. now exists a, s1.
Qed.

(** ** The steps a method emits *)

Lemma emits_silent {A} (m : M A) :
  (forall s, trace (env (m s).2) = trace (env s)) -> emits m [].
Proof.
  intros H s. exists []. rewrite H, app_nil_r. split; [reflexivity|].
  destruct (returned _); simpl; [reflexivity | apply prefix_nil].
Qed.

Lemma emits_ret {A} (a : A) : emits (ret a) [].
Proof. now apply emits_silent. Qed.

Lemma emits_lift {A} (o : outcome A) : emits (lift o) [].
Proof. now apply emits_silent. Qed.

Lemma emits_get : emits get [].
Proof. now apply emits_silent. Qed.

Lemma emits_logging lvl msg : emits (logging lvl msg) [].
Proof. now apply emits_silent. Qed.

Lemma emits_with_map_id v : emits (modify (with_map_id v)) [].
Proof. now apply emits_silent. Qed.

Lemma emits_with_config c : emits (modify (with_config c)) [].
Proof. now apply emits_silent. Qed.

Lemma emits_status_check r msg :
  emits (try_except_HTTPError (raise_for_status r)
           (fun _ => logging_exception msg)) [].
Proof.
  apply emits_silent. intros s.
  unfold try_except_HTTPError, raise_for_status.
  now destruct (_ && _).
Qed.

Lemma emits_send r : emits (send r) [step_of_request r].
Proof. intros s. exists [Sent r]. now split. Qed.

Lemma emits_send_as r k : step_of_request r = k -> emits (send r) [k].
Proof. intros <-. apply emits_send. Qed.

Lemma emits_persist c :
  emits (modify (fun s => record (ConfigWritten c) (with_config_ini c s)))
        [PersistIdentifier].
Proof. intros s. exists [ConfigWritten c]. now split. Qed.

Lemma emits_open_html_w : emits open_html_w [OpenArtifact].
Proof. intros s. exists [HtmlOpened]. now split. Qed.

Lemma emits_file_write v : emits (file_write v) [WriteArtifact].
Proof.
  intros s. destruct v; simpl;
    try (exists []; rewrite app_nil_r; split; [reflexivity | apply prefix_nil]).
  exists [HtmlWritten s0]. now split.
Qed.

Lemma emits_bind {A B} (m : M A) (k : A -> M B) (l1 l2 l : list step) :
  emits m l1 -> (forall a, emits (k a) l2) -> l = (l1 ++ l2) ->
  emits (bind m k) l.
Proof.
  intros Hm Hk -> s. unfold bind.
  destruct (Hm s) as (t1 & E1 & P1).
  destruct (m s) as [[a|e] s1]; simpl in *.
  - destruct (Hk a s1) as (t2 & E2 & P2).
    exists (t1 ++ t2). rewrite E2, E1, List.app_assoc. split; [reflexivity|].
    unfold steps_of in *. rewrite map_app, P1.
    destruct (returned _).
    + now rewrite P2.
    + now apply prefix_app.
  - exists t1. split; [assumption|].
    now apply prefix_app_r.
Qed.

Create HintDb emits.

(** Proving [emits] along the text of a method; the methods already dealt
    with are in the hint database. *)
Ltac emits_auto :=
  lazymatch goal with
  | |- emits (bind _ _) _ =>
      eapply emits_bind;
      [ emits_auto | intros; cbv beta zeta; emits_auto | reflexivity ]
  | |- emits (ret _) _ => apply emits_ret
  | |- emits (lift _) _ => apply emits_lift
  | |- emits get _ => apply emits_get
  | |- emits (logging_debug _) _ => apply emits_logging
  | |- emits (logging_info _) _ => apply emits_logging
  | |- emits (logging_exception _) _ => apply emits_logging
  | |- emits (send _) _ =>
      eapply emits_send_as; cbn [step_of_request method data]; reflexivity
  | |- emits (try_except_HTTPError _ _) _ => apply emits_status_check
  | |- emits (modify (with_map_id _)) _ => apply emits_with_map_id
  | |- emits (modify (with_config _)) _ => apply emits_with_config
  | |- emits (modify (fun s => record (ConfigWritten _) _)) _ => apply emits_persist
  | |- emits open_html_w _ => apply emits_open_html_w
  | |- emits (file_write _) _ => apply emits_file_write
  | |- _ => solve [auto with emits]
  end.

Lemma emits_set_map_id : emits set_map_id [PersistIdentifier].
Proof. unfold set_map_id. emits_auto. Qed.
#[local] Hint Resolve emits_set_map_id : emits.

Lemma emits_create_choropleth :
  emits create_choropleth [Create; PersistIdentifier].
Proof.
  unfold create_choropleth. emits_auto.
Qed.

Lemma emits_configure_map_settings : emits configure_map_settings [Configure].
Proof. unfold configure_map_settings. emits_auto. Qed.

Lemma emits_add_map_tooltip : emits add_map_tooltip [SetTooltip].
Proof. unfold add_map_tooltip. emits_auto. Qed.

Lemma emits_update_map_data : emits update_map_data [PushData].
Proof. unfold update_map_data. emits_auto. Qed.

Lemma emits_set_last_update_timestamp :
  emits set_last_update_timestamp [StampTimestamp].
Proof. unfold set_last_update_timestamp. emits_auto. Qed.
#[local] Hint Resolve emits_set_last_update_timestamp : emits.

Lemma emits_publish_map :
  emits publish_map [StampTimestamp; Publish; OpenArtifact; WriteArtifact].
Proof.
  unfold publish_map. emits_auto.
Qed.

Lemma emits_run_map_creation : emits run_map_creation creation_steps.
Proof.
  unfold run_map_creation.
  eapply emits_bind; [apply emits_create_choropleth | intros | reflexivity].
  eapply emits_bind; [apply emits_configure_map_settings | intros | reflexivity].
  eapply emits_bind; [apply emits_add_map_tooltip | intros | reflexivity].
  eapply emits_bind; [apply emits_update_map_data | intros | reflexivity].
  apply emits_publish_map.
Qed.

Lemma emits_run_map_update : emits run_map_update update_steps.
Proof.
  unfold run_map_update.
  eapply emits_bind; [apply emits_update_map_data | intros | reflexivity].
  apply emits_publish_map.
Qed.

(** ** What the steps after creation keep *)

Lemma same_identifier_refl s : same_identifier s s.
Proof.
  repeat split. exists []. now rewrite app_nil_r.
Qed.

Lemma same_identifier_trans s1 s2 s3 :
  same_identifier s1 s2 -> same_identifier s2 s3 -> same_identifier s1 s3.
Proof.
  intros (Ho1 & Hc1 & t1 & Ht1 & Ha1) (Ho2 & Hc2 & t2 & Ht2 & Ha2).
  split; [congruence|]. split; [congruence|].
  exists (t1 ++ t2). split.
  - now rewrite Ht2, Ht1, List.app_assoc.
  - unfold sent_in in *. rewrite omap_app, forallb_app, Ha1.
    now rewrite Ho1 in Ha2.
Qed.

(** A step that only adds events which are not requests. *)
Lemma same_identifier_quiet (s s' : state) (t : list event) :
  self s' = self s -> config_ini (env s') = config_ini (env s) ->
  trace (env s') = trace (env s) ++ t -> sent_in t = [] ->
  same_identifier s s'.
Proof.
  intros Ho Hc Ht Hs. split; [assumption|]. split; [assumption|].
  exists t. now rewrite Hs.
Qed.

Lemma same_identifier_logging lvl msg s : same_identifier s (logging lvl msg s).2.
Proof. apply (same_identifier_quiet _ _ []); simpl; auto using app_nil_r. Qed.

Lemma same_identifier_status_check r msg s :
  same_identifier s
    (try_except_HTTPError (raise_for_status r) (fun _ => logging_exception msg) s).2.
Proof.
  unfold try_except_HTTPError, raise_for_status.
  destruct (_ && _); simpl.
  - apply same_identifier_logging.
  - apply same_identifier_refl.
Qed.

Lemma same_identifier_send r s :
  addressed_to (map_id (self s)) r = true -> same_identifier s (send r s).2.
Proof.
  intros H. split; [reflexivity|]. split; [reflexivity|].
  exists [Sent r]. simpl. now rewrite H.
Qed.

Lemma same_identifier_open_html_w s : same_identifier s (open_html_w s).2.
Proof. now apply (same_identifier_quiet _ _ [HtmlOpened]). Qed.

Lemma same_identifier_file_write v s : same_identifier s (file_write v s).2.
Proof.
  destruct v; try apply same_identifier_refl.
  now apply (same_identifier_quiet _ _ [HtmlWritten s0]).
Qed.

Lemma str_add_inv prefix v u :
  str_add prefix v = Return u -> exists i, v = JStr i /\ u = prefix +:+ i.
Proof.
  destruct v; simpl; try discriminate. intros [= <-]. now eexists.
Qed.

Lemma addressed_chart i m d h :
  addressed_to (JStr i) (Request m (chart_url i) d h) = true.
Proof. unfold addressed_to. cbn [url]. now rewrite String.eqb_refl. Qed.

Lemma addressed_data i m d h :
  addressed_to (JStr i) (Request m (data_url i) d h) = true.
Proof.
  unfold addressed_to. cbn [url].
  rewrite (String.eqb_refl (data_url i)). now rewrite orb_true_r.
Qed.

Lemma addressed_publish i m d h :
  addressed_to (JStr i) (Request m (publish_url i) d h) = true.
Proof.
  unfold addressed_to. cbn [url].
  rewrite (String.eqb_refl (publish_url i)). now rewrite orb_true_r.
Qed.

Create HintDb sid.

(** Following the text of a method with [same_identifier]; the methods
    already dealt with are in the hint database. *)
Ltac sid_step :=
  lazymatch goal with
  | |- same_identifier _ (bind get _ _).2 =>
      apply (get_then same_identifier); cbv beta zeta
  | |- same_identifier _ (bind (lift _) _ _).2 =>
      apply (lift_then same_identifier same_identifier_refl); intros ? ?
  | |- same_identifier _ (bind _ _ _).2 =>
      apply (step_then same_identifier same_identifier_trans);
      [ | intros ? ? ?]
  | |- same_identifier _ (logging_debug _ _).2 => apply same_identifier_logging
  | |- same_identifier _ (try_except_HTTPError _ _ _).2 =>
      apply same_identifier_status_check
  | |- same_identifier _ (open_html_w _).2 => apply same_identifier_open_html_w
  | |- same_identifier _ (file_write _ _).2 => apply same_identifier_file_write
  | |- same_identifier _ _ => solve [auto with sid]
  end.

(** The address a method has built from the identifier of the object. *)
Ltac sid_url i Hi :=
  match goal with
  | H : str_add _ _ = Return _ |- _ => apply str_add_inv in H as (i & Hi & ->)
  end.

Lemma same_identifier_configure_map_settings s :
  same_identifier s (configure_map_settings s).2.
Proof.
  unfold configure_map_settings. do 2 sid_step. sid_url i Hi.
  sid_step; [|repeat sid_step].
  apply same_identifier_send. rewrite Hi. apply addressed_chart.
Qed.

Lemma same_identifier_add_map_tooltip s :
  same_identifier s (add_map_tooltip s).2.
Proof.
  unfold add_map_tooltip. do 2 sid_step. sid_url i Hi.
  sid_step; [|repeat sid_step].
  apply same_identifier_send. rewrite Hi. apply addressed_chart.
Qed.

Lemma same_identifier_update_map_data s :
  same_identifier s (update_map_data s).2.
Proof.
  unfold update_map_data. do 2 sid_step. sid_url i Hi.
  do 2 sid_step.
  sid_step; [|repeat sid_step].
  apply same_identifier_send. rewrite Hi, string_app_assoc. apply addressed_data.
Qed.

Lemma same_identifier_set_last_update_timestamp s :
  same_identifier s (set_last_update_timestamp s).2.
Proof.
  unfold set_last_update_timestamp. do 2 sid_step. sid_url i Hi.
  sid_step; [|repeat sid_step].
  apply same_identifier_send. rewrite Hi. apply addressed_chart.
Qed.
#[local] Hint Resolve same_identifier_configure_map_settings
  same_identifier_add_map_tooltip same_identifier_update_map_data
  same_identifier_set_last_update_timestamp : sid.

Lemma same_identifier_publish_map s :
  same_identifier s (publish_map s).2.
Proof.
  unfold publish_map. sid_step; [sid_step|].
  clear dependent s. rename s1 into s.
  do 2 sid_step. sid_url i Hi.
  sid_step; [|repeat sid_step].
  apply same_identifier_send. rewrite Hi, string_app_assoc. apply addressed_publish.
Qed.
#[local] Hint Resolve same_identifier_publish_map : sid.

Lemma same_identifier_run_map_update s :
  same_identifier s (run_map_update s).2.
Proof. unfold run_map_update. repeat sid_step. Qed.

(** In the create workflow, from the state [create_choropleth] leaves. *)
Lemma same_identifier_after_create s :
  same_identifier (create_choropleth s).2 (run_map_creation s).2.
Proof.
  unfold run_map_creation. unfold bind at 1.
  destruct (create_choropleth s) as [[[]|e] s1]; simpl;
    [|apply same_identifier_refl].
  repeat sid_step.
Qed.

(** ** Running a method on a given state *)

Ltac run_get :=
  lazymatch goal with
  | |- context [bind get ?k ?s] => change (bind get k s) with (k s s); cbv beta zeta
  end.

Ltac run_lift :=
  lazymatch goal with
  | |- context [bind (lift (Return ?a)) ?k ?s] =>
      change (bind (lift (Return a)) k s) with (k a s); cbv beta zeta
  end.

Ltac run_send :=
  lazymatch goal with
  | |- context [bind (send ?r) ?k ?s] =>
      change (bind (send r) k s)
        with (k (api (env s) (sent (env s)) r) (record (Sent r) s));
      cbv beta zeta
  end.

(** Going back through a run that returned. *)
Ltac peel H :=
  let a := fresh "a" in
  let s1 := fresh "s" in
  let E := fresh "E" in
  let Eq := fresh "Eq" in
  destruct (bind_returned _ _ _ H) as (a & s1 & E & Eq);
  rewrite Eq in *; clear Eq; cbv beta zeta in *.

Lemma status_check_run r msg s :
  exists l, try_except_HTTPError (raise_for_status r)
              (fun _ => logging_exception msg) s = (Return tt, with_log l s).
Proof.
  unfold try_except_HTTPError, raise_for_status.
  destruct (_ && _); simpl.
  - now eexists.
  - exists (log (env s)). now destruct s as [o []].
Qed.

Lemma bind_run {A B} (m : M A) (k : A -> M B) s a s1 :
  m s = (Return a, s1) -> bind m k s = k a s1.
Proof. unfold bind. now intros ->. Qed.

Ltac run_modify :=
  lazymatch goal with
  | |- context [bind (modify ?f) ?k ?s] =>
      change (bind (modify f) k s) with (k tt (f s)); cbv beta zeta
  end.

Ltac run_status_check :=
  lazymatch goal with
  | |- context [bind (try_except_HTTPError (raise_for_status ?r)
                       (fun _ => logging_exception ?msg)) ?k ?s] =>
      let l := fresh "l" in
      let El := fresh "El" in
      destruct (status_check_run r msg s) as (l & El);
      rewrite (bind_run _ k s _ _ El); cbv beta zeta
  end.

(** A failure of the settings, tooltip, data or timestamp request is logged
    and the method returns. *)
Lemma middle_steps_return s i :
  map_id (self s) = JStr i ->
  (configure_map_settings s).1 = Return tt /\
  (add_map_tooltip s).1 = Return tt /\
  (set_last_update_timestamp s).1 = Return tt /\
  forall raw rows,
    csv_file (env s) = Some raw -> csv_reader raw = Return rows ->
    (update_map_data s).1 = Return tt.
Proof.
  intros Hi. repeat split.
  - unfold configure_map_settings. run_get. rewrite Hi. cbn [str_add].
    run_lift. run_send. now run_status_check.
  - unfold add_map_tooltip. run_get. rewrite Hi. cbn [str_add].
    run_lift. run_send. now run_status_check.
  - unfold set_last_update_timestamp. run_get. rewrite Hi. cbn [str_add].
    run_lift. run_send. now run_status_check.
  - intros raw rows Hf Hr.
    unfold update_map_data. run_get. rewrite Hi. cbn [str_add].
    run_lift. rewrite Hf. run_lift. rewrite Hr. run_lift.
    run_send. now run_status_check.
Qed.

Lemma emits_nothing {A} (m : M A) s :
  emits m [] -> trace (env (m s).2) = trace (env s).
Proof.
  intros H. destruct (H s) as (t & -> & Ht).
  assert (steps_of t = []) as E.
  { destruct (returned _); [assumption|]. now apply prefix_nil_inv. }
  destruct t; [apply app_nil_r | discriminate].
Qed.

(** ** The data payload *)

Lemma concat_empty_cons (x : string) (l : list string) :
  String.concat "" (x :: l) = x +:+ String.concat "" l.
Proof.
  destruct l as [|y l]; simpl; [now rewrite string_app_nil_r | reflexivity].
Qed.

Lemma county_results_from (rows : list (list string)) (acc : string) :
  fold_left (fun county_results row => county_results +:+ (String.concat ", " row +:+ nl))
    rows acc = acc +:+ transcoded rows.
Proof.
  revert acc. induction rows as [|row rows IH]; intros acc.
  - simpl. now rewrite string_app_nil_r.
  - cbn [fold_left]. rewrite IH. unfold transcoded. cbn [map].
    now rewrite concat_empty_cons, string_app_assoc.
Qed.

Lemma county_results_transcoded rows : county_results_of rows = transcoded rows.
Proof. unfold county_results_of. now rewrite county_results_from. Qed.

Lemma transcoded_joined row rows :
  transcoded (row :: rows) =
  String.concat nl (map (String.concat ", ") (row :: rows)) +:+ nl.
Proof.
  revert row. induction rows as [|r rows IH]; intros row; [reflexivity|].
  unfold transcoded in *. cbn [map] in *. rewrite concat_empty_cons, IH.
  unfold row_line. cbn [String.concat].
  now rewrite !string_app_assoc.
Qed.

Lemma update_map_data_trace s raw rows i :
  map_id (self s) = JStr i ->
  csv_file (env s) = Some raw ->
  csv_reader raw = Return rows ->
  trace (env (update_map_data s).2) =
  trace (env s) ++
  [Sent (Request PUT (data_url i) (Text (county_results_of rows))
           (data_headers (api_auth_code (self s))))].
Proof.
  intros Hi Hf Hr. unfold update_map_data. run_get.
  rewrite Hi. cbn [str_add]. run_lift.
  rewrite Hf. run_lift.
  rewrite Hr. run_lift.
  run_send. rewrite emits_nothing by emits_auto.
  now rewrite string_app_assoc.
Qed.

(** ** Steps that a prefix lacks *)

Lemma prefix_of_steps_not_in (l steps : list step) (k : step) :
  l `prefix_of` steps -> k ∉ steps -> k ∉ l.
Proof. intros [rest ->] Hk Hin. apply Hk, elem_of_app. now left. Qed.

(** ** The timestamp *)

Lemma is_digit_digit n : is_digit (digit n) = true.
Proof.
  unfold digit. pose proof (Nat.mod_upper_bound n 10 ltac:(lia)) as H.
  destruct (n mod 10) as [|[|[|[|[|[|[|[|[|[|d]]]]]]]]]]; try reflexivity. lia.
Qed.

Lemma value_digit n : nat_of_ascii (digit n) - 48 = n mod 10.
Proof.
  unfold digit. pose proof (Nat.mod_upper_bound n 10 ltac:(lia)) as H.
  rewrite nat_ascii_embedding by lia. lia.
Qed.

Lemma decimal_pad2 n : n < 100 -> decimal (pad2 n) = n.
Proof.
  intros H. unfold decimal, pad2. cbn [list_ascii_of_string fold_left].
  rewrite !value_digit.
  rewrite (Nat.mod_small (n / 10)) by (apply Nat.Div0.div_lt_upper_bound; lia).
  pose proof (Nat.div_mod_eq n 10). lia.
Qed.

Lemma decimal_pad4 n : (N.of_nat n <= 9999)%N -> decimal (pad4 n) = n.
Proof.
  intros H. unfold decimal, pad4, pad2. cbn [list_ascii_of_string fold_left].
  rewrite !value_digit.
  rewrite (Nat.mod_small (n / 1000)) by (apply Nat.Div0.div_lt_upper_bound; lia).
  pose proof (Nat.div_mod_eq n 10).
  pose proof (Nat.div_mod_eq (n / 10) 10).
  pose proof (Nat.div_mod_eq (n / 100) 10).
  replace (n / 10 / 10) with (n / 100) in * by (now rewrite Nat.Div0.div_div).
  replace (n / 100 / 10) with (n / 1000) in * by (now rewrite Nat.Div0.div_div).
  lia.
Qed.

Lemma strftime_timestamp t :
  strftime timestamp_format t =
  pad2 (month t) +:+ "/" +:+ pad2 (day t) +:+ "/" +:+ pad4 (year t) +:+ ", " +:+
  pad2 (hour t) +:+ ":" +:+ pad2 (minute t) +:+ ":" +:+ pad2 (second t) +:+ " " +:+
  (if (hour t <? 12)%nat then "AM" else "PM").
Proof.
  rewrite <- (string_app_nil_r (if (hour t <? 12)%nat then "AM" else "PM")).
  reflexivity.
Qed.

Lemma strftime_matches t : matches timestamp_pattern (strftime timestamp_format t) = true.
Proof.
  rewrite strftime_timestamp.
  destruct (hour t <? 12)%nat;
    cbv -[digit Nat.div is_digit]; now rewrite !is_digit_digit.
Qed.

Lemma set_last_update_timestamp_trace s i :
  map_id (self s) = JStr i ->
  trace (env (set_last_update_timestamp s).2) =
  trace (env s) ++
  [Sent (Request PATCH (chart_url i)
           (AnnotateNotes ("Last update:" +:+ strftime timestamp_format (clock (env s))))
           (json_headers (api_auth_code (self s))))].
Proof.
  intros Hi. unfold set_last_update_timestamp. run_get.
  rewrite Hi. cbn [str_add]. run_lift. run_send.
  now rewrite emits_nothing by emits_auto.
Qed.

(** ** Text and the reader, character by character *)

Lemma string_length_app (a b : string) :
  String.length (a +:+ b) = String.length a + String.length b.
Proof.
  induction a as [|x a IH]; [reflexivity|].
  rewrite string_app_cons. simpl. now rewrite IH.
Qed.

Lemma string_forallb_app P (a b : string) :
  string_forallb P (a +:+ b) = string_forallb P a && string_forallb P b.
Proof.
  induction a as [|x a IH]; [reflexivity|].
  rewrite string_app_cons. simpl. now rewrite IH, andb_assoc.
Qed.

Lemma string_forallb_impl (P Q : ascii -> bool) (s : string) :
  (forall x, P x = true -> Q x = true) ->
  string_forallb P s = true -> string_forallb Q s = true.
Proof.
  intros HPQ. induction s as [|x s IH]; [reflexivity|]. simpl.
  intros [Hx Hs]%andb_prop. now rewrite (HPQ _ Hx), IH.
Qed.

Lemma feed_line_app (r : reader) (a b : string) :
  feed_line r (a +:+ b) =
  match feed_chars r a with
  | Some r' => feed_line r' b
  | None => None
  end.
Proof.
  revert r. induction a as [|x a IH]; intros r; [reflexivity|].
  rewrite string_app_cons. simpl.
  destruct (parse_process_char r (Some x)); [apply IH | reflexivity].
Qed.

Lemma feed_chars_app (r : reader) (a b : string) :
  feed_chars r (a +:+ b) =
  match feed_chars r a with
  | Some r' => feed_chars r' b
  | None => None
  end.
Proof.
  revert r. induction a as [|x a IH]; intros r; [reflexivity|].
  rewrite string_app_cons. simpl.
  destruct (parse_process_char r (Some x)); [apply IH | reflexivity].
Qed.

Lemma concat_cons_cons (sep x y : string) (l : list string) :
  String.concat sep (x :: y :: l) = x +:+ sep +:+ String.concat sep (y :: l).
Proof. reflexivity. Qed.

(** The file as the reader gets it, line by line. *)
Lemma universal_newlines_id (text : string) :
  string_forallb (is_not CR) text = true -> universal_newlines text = text.
Proof.
  induction text as [|x text IH]; [reflexivity|]. simpl.
  intros [Hx Ht]%andb_prop. unfold is_not in Hx. apply negb_true_iff in Hx.
  now rewrite Hx, IH.
Qed.

Lemma readlines_from_line (body rest cur : string) :
  string_forallb (is_not LF) body = true ->
  readlines_from cur (body +:+ nl +:+ rest) =
  (cur +:+ body +:+ nl) :: readlines_from EmptyString rest.
Proof.
  revert cur. induction body as [|x body IH]; intros cur Hb.
  - reflexivity.
  - simpl in Hb. apply andb_prop in Hb as [Hx Hb].
    unfold is_not in Hx. apply negb_true_iff in Hx.
    rewrite string_app_cons. cbn [readlines_from]. rewrite Hx.
    rewrite IH by assumption. now rewrite !string_app_assoc.
Qed.

(** * The methods, outcome by outcome *)

Lemma status_check_exact r msg s :
  try_except_HTTPError (raise_for_status r) (fun _ => logging_exception msg) s
  = (Return tt, with_log (log (env s) ++ failure_log r msg) s).
Proof.
  unfold try_except_HTTPError, raise_for_status, failure_log, is_http_error.
  destruct (_ && _); simpl; [reflexivity|].
  rewrite app_nil_r. now destruct s as [o []].
Qed.

Ltac run_status_exact :=
  lazymatch goal with
  | |- context [bind (try_except_HTTPError (raise_for_status ?r)
                       (fun _ => logging_exception ?msg)) ?k ?s] =>
      rewrite (bind_run _ k s _ _ (status_check_exact r msg s)); cbv beta zeta
  end.

Lemma after_request_logged r rs msg s :
  logging_debug msg (with_log (log (env (record (Sent r) s)) ++ rs) (record (Sent r) s))
  = (Return tt, after_request r (rs ++ [(DEBUG, msg)]) s).
Proof.
  unfold logging_debug, logging, modify, after_request. cbn.
  now rewrite <- List.app_assoc.
Qed.

Lemma configure_map_settings_exact s i :
  map_id (self s) = JStr i ->
  configure_map_settings s =
  (Return tt,
   after_request (settings_request i (api_auth_code (self s)))
     (failure_log (api (env s) (sent (env s))
                     (settings_request i (api_auth_code (self s))))
        "Map configuration setting failed: error was: %s"
      ++ [(DEBUG, "Updated map settings for map_id: %s")]) s).
Proof.
  intros Hi. unfold configure_map_settings. run_get. rewrite Hi. cbn [str_add].
  run_lift. run_send. run_status_exact. apply after_request_logged.
Qed.

Lemma add_map_tooltip_exact s i :
  map_id (self s) = JStr i ->
  add_map_tooltip s =
  (Return tt,
   after_request (tooltip_request i (api_auth_code (self s)))
     (failure_log (api (env s) (sent (env s))
                     (tooltip_request i (api_auth_code (self s))))
        "Tooltip add failed for map_id: %s: error was: %s"
      ++ [(DEBUG, "Added tooltip hover settings for map_id: %s")]) s).
Proof.
  intros Hi. unfold add_map_tooltip. run_get. rewrite Hi. cbn [str_add].
  run_lift. run_send. run_status_exact. apply after_request_logged.
Qed.

Lemma set_last_update_timestamp_exact s i :
  map_id (self s) = JStr i ->
  set_last_update_timestamp s =
  (Return tt,
   after_request (timestamp_request i (api_auth_code (self s)) (clock (env s)))
     (failure_log (api (env s) (sent (env s))
                     (timestamp_request i (api_auth_code (self s)) (clock (env s))))
        "Set timestamp fail for map_id: %s: error was: %s"
      ++ [(DEBUG, "Set last update timestamp for map_id: %s")]) s).
Proof.
  intros Hi. unfold set_last_update_timestamp. run_get. rewrite Hi. cbn [str_add].
  run_lift. run_send. run_status_exact. apply after_request_logged.
Qed.

Lemma update_map_data_exact s i raw rows :
  map_id (self s) = JStr i ->
  csv_file (env s) = Some raw ->
  csv_reader raw = Return rows ->
  update_map_data s =
  (Return tt,
   after_request (data_request i (api_auth_code (self s)) rows)
     (failure_log (api (env s) (sent (env s))
                     (data_request i (api_auth_code (self s)) rows))
        "Update of map data failed: error was: %s"
      ++ [(DEBUG, "Map data updated successfully from csv for map_id: %s")]) s).
Proof.
  intros Hi Hf Hr. unfold update_map_data. run_get. rewrite Hi. cbn [str_add].
  run_lift. rewrite Hf. run_lift. rewrite Hr. run_lift.
  rewrite string_app_assoc.
  run_send. run_status_exact. apply after_request_logged.
Qed.

(** When the file cannot be read, nothing is sent. *)
Lemma update_map_data_unreadable s i e :
  map_id (self s) = JStr i ->
  match csv_file (env s) with
  | Some raw => csv_reader raw
  | None => Raise FileNotFoundError
  end = Raise e ->
  update_map_data s = (Raise e, s).
Proof.
  intros Hi He. unfold update_map_data. run_get. rewrite Hi. cbn [str_add].
  run_lift.
  destruct (csv_file (env s)) as [raw|].
  - run_lift. now rewrite He.
  - now injection He as <-.
Qed.

(** ** The state a request leaves *)

Lemma sent_record_Sent r s : sent (env (record (Sent r) s)) = sent (env s) ++ [r].
Proof. unfold sent, sent_in. cbn. now rewrite omap_app. Qed.

Lemma sent_after_request r l s :
  sent (env (after_request r l s)) = sent (env s) ++ [r].
Proof. unfold sent, sent_in. cbn. now rewrite omap_app. Qed.

Lemma sent_after_timestamp i s :
  sent (env (after_timestamp i s)) =
  sent (env s) ++ [timestamp_request i (api_auth_code (self s)) (clock (env s))].
Proof. apply sent_after_request. Qed.

Lemma bind_raise {A B} (m : M A) (k : A -> M B) s e s1 :
  m s = (Raise e, s1) -> bind m k s = (Raise e, s1).
Proof. unfold bind. now intros ->. Qed.

Lemma bind_lift {A B} (o : outcome A) (k : A -> M B) s :
  bind (lift o) k s = match o with Return a => k a s | Raise e => (Raise e, s) end.
Proof. now destruct o. Qed.

Lemma publish_map_exact s i :
  map_id (self s) = JStr i ->
  publish_map s =
  match publish_section (publish_response i s) with
  | Raise e => (Raise e, after_publish i s)
  | Return embed_codes =>
      match responsive_code embed_codes with
      | Raise e => (Raise e, artifact_opened (after_publish i s))
      | Return (JStr snippet) =>
          (Return tt,
           record (HtmlWritten snippet)
             (with_html_file (Some snippet) (artifact_opened (after_publish i s))))
      | Return _ => (Raise TypeError, artifact_opened (after_publish i s))
      end
  end.
Proof.
  intros Hi. unfold publish_map.
  rewrite (bind_run _ _ s _ _ (set_last_update_timestamp_exact s i Hi)).
  fold (after_timestamp i s). run_get.
  change (map_id (self (after_timestamp i s))) with (map_id (self s)).
  rewrite Hi. cbn [str_add]. run_lift. rewrite string_app_assoc.
  change (api_auth_code (self (after_timestamp i s))) with (api_auth_code (self s)).
  fold (publish_url i). fold (publish_request i (api_auth_code (self s))).
  run_send.
  change (api (env (after_timestamp i s))) with (api (env s)).
  rewrite sent_after_timestamp.
  fold (publish_response i s).
  run_status_exact.
  rewrite (bind_run _ _ _ _ _ (after_request_logged _ _ _ _)).
  fold (after_publish i s).
  unfold publish_section, responsive_code.
  rewrite bind_lift. destruct (response_json _) as [j|e]; [|reflexivity].
  cbn [outcome_bind]. rewrite bind_lift.
  destruct (subscript j "data") as [d|e]; [|reflexivity].
  cbn [outcome_bind]. rewrite bind_lift.
  destruct (subscript d "metadata") as [m|e]; [|reflexivity].
  cbn [outcome_bind]. rewrite bind_lift.
  destruct (subscript m "publish") as [ec|e]; [|reflexivity].
  unfold logging_debug, logging. run_modify.
  change (bind open_html_w ?k ?s0) with (k tt (record HtmlOpened (with_html_file (Some EmptyString) s0))).
  cbv beta. fold (artifact_opened (after_publish i s)).
  rewrite bind_lift.
  destruct (subscript ec "embed-codes") as [codes|e]; [|reflexivity].
  cbn [outcome_bind]. rewrite bind_lift.
  destruct (subscript codes "embed-method-responsive") as [v|e]; [|reflexivity].
  now destruct v.
Qed.

(** ** The create step *)

Lemma create_choropleth_exact s :
  create_choropleth s =
  match body_id (create_response s) with
  | Raise e => (Raise e, after_create_request s)
  | Return v =>
      match config_set (config (self s)) "DATA_WRAPPER" "MAP_ID" v with
      | Raise e => (Raise e, identifier_assigned v s)
      | Return c => (Return tt, identifier_persisted v c s)
      end
  end.
Proof.
  unfold create_choropleth. run_get. fold (create_request (api_auth_code (self s))).
  run_send. fold (create_response s). run_status_exact.
  rewrite (bind_run _ _ _ _ _ (after_request_logged _ _ _ _)).
  fold (after_create_request s).
  unfold body_id. rewrite bind_lift.
  destruct (response_json _) as [j|e]; [|reflexivity].
  cbn [outcome_bind]. rewrite bind_lift.
  destruct (subscript j "id") as [v|e]; [|reflexivity].
  run_modify. unfold set_map_id, logging_debug, logging. run_modify.
  lazymatch goal with
  | |- context [bind get ?k ?st] => change st with (identifier_assigned v s)
  end.
  run_get. rewrite bind_lift.
  change (config (self (identifier_assigned v s))) with (config (self s)).
  change (map_id (self (identifier_assigned v s))) with v.
  now destruct (config_set _ _ _ v) as [c|e].
Qed.

Lemma config_set_identifier c sec i :
  c !! "DATA_WRAPPER" = Some sec ->
  accepted i = true ->
  config_set c "DATA_WRAPPER" "MAP_ID" (JStr i) = Return (with_identifier i c).
Proof.
  intros H Ha. unfold config_set, with_identifier, before_set, accepted in *.
  rewrite H. destruct (String.eqb i EmptyString); [reflexivity|].
  cbn [orb] in Ha. now rewrite Ha.
Qed.

Lemma config_set_inv c v c' :
  config_set c "DATA_WRAPPER" "MAP_ID" v = Return c' ->
  exists i, v = JStr i /\ accepted i = true /\ c' = with_identifier i c.
Proof.
  unfold config_set, with_identifier, before_set, accepted.
  destruct v as [| | |i| |]; try discriminate.
  intros H. exists i. split; [reflexivity|].
  destruct (String.eqb i EmptyString);
    [|destruct (valid_interpolation_syntax i); [|discriminate]];
    cbn [orb negb andb] in *;
    (destruct (c !! "DATA_WRAPPER") as [sec|]; [|discriminate]);
    injection H as <-; now split.
Qed.

(** Why [config.set] refuses a value: its type first, then its
    interpolation syntax, then the section. *)
Lemma config_set_raises c v e :
  config_set c "DATA_WRAPPER" "MAP_ID" v = Raise e ->
  ((forall i, v <> JStr i) /\ e = TypeError) \/
  (exists i, v = JStr i /\ accepted i = false /\ e = ValueError) \/
  (exists i, v = JStr i /\ accepted i = true /\
             c !! "DATA_WRAPPER" = None /\ e = NoSectionError "DATA_WRAPPER").
Proof.
  unfold config_set, before_set, accepted.
  destruct v as [| | |i| |];
    try (intros [= <-]; left; split; [intros i; discriminate|reflexivity]).
  intros H.
  destruct (String.eqb i EmptyString) eqn:Ei;
    [|destruct (valid_interpolation_syntax i) eqn:Ev]; cbn [orb negb andb] in *.
  - right. right. exists i. destruct (c !! "DATA_WRAPPER") as [sec|]; [discriminate|].
    injection H as <-. rewrite Ei. now repeat split.
  - right. right. exists i. destruct (c !! "DATA_WRAPPER") as [sec|]; [discriminate|].
    injection H as <-. rewrite Ei, Ev. now repeat split.
  - right. left. exists i. injection H as <-. rewrite Ei, Ev. now repeat split.
Qed.

(** ** The workflows from end to end *)

Lemma publish_response_after_data i rows l s :
  publish_response i (after_request (data_request i (api_auth_code (self s)) rows) l s)
  = update_publish_response i rows s.
Proof.
  unfold publish_response, update_publish_response.
  change (api (env (after_request ?r ?l0 s))) with (api (env s)).
  rewrite sent_after_request, <- List.app_assoc. reflexivity.
Qed.

Lemma sent_identifier_persisted v c s :
  sent (env (identifier_persisted v c s))
  = sent (env s) ++ [create_request (api_auth_code (self s))].
Proof. unfold sent, sent_in. cbn. rewrite !omap_app. cbn. now rewrite app_nil_r. Qed.

(** ** Writing the identifier *)

Lemma set_map_id_exact s :
  set_map_id s =
  match config_set (config (self s)) "DATA_WRAPPER" "MAP_ID" (map_id (self s)) with
  | Raise e =>
      (Raise e,
       with_log (log (env s) ++ [(DEBUG, "Writing new map_id to config file: %s")]) s)
  | Return c =>
      (Return tt,
       record (ConfigWritten c)
         (with_config_ini c
            (with_config c
               (with_log (log (env s)
                          ++ [(DEBUG, "Writing new map_id to config file: %s")]) s))))
  end.
Proof.
  unfold set_map_id, logging_debug, logging. run_modify. run_get.
  rewrite bind_lift.
  lazymatch goal with
  | |- context [config_set ?c _ _ ?v] =>
      change c with (config (self s)); change v with (map_id (self s))
  end.
  now destruct (config_set _ _ _ _).
Qed.

(** ** What no method touches *)

Lemma same_inputs_refl s : same_inputs s s.
Proof. now repeat split. Qed.

Lemma same_inputs_trans s1 s2 s3 :
  same_inputs s1 s2 -> same_inputs s2 s3 -> same_inputs s1 s3.
Proof. intros (? & ? & ?) (? & ? & ?). repeat split; congruence. Qed.

Lemma same_inputs_modify (f : state -> state) s :
  same_inputs s (f s) -> same_inputs s (modify f s).2.
Proof. trivial. Qed.

Lemma same_inputs_status_check r msg s :
  same_inputs s
    (try_except_HTTPError (raise_for_status r) (fun _ => logging_exception msg) s).2.
Proof. rewrite status_check_exact. now repeat split. Qed.

Create HintDb inputs.

(** Following the text of a method with [same_inputs]. *)
Ltac inputs_step :=
  lazymatch goal with
  | |- same_inputs _ (bind get _ _).2 =>
      apply (get_then same_inputs); cbv beta zeta
  | |- same_inputs _ (bind (lift _) _ _).2 =>
      apply (lift_then same_inputs same_inputs_refl); intros ? ?
  | |- same_inputs _ (bind _ _ _).2 =>
      apply (step_then same_inputs same_inputs_trans);
      [ | intros ? ? ?]
  | |- same_inputs _ (try_except_HTTPError _ _ _).2 =>
      apply same_inputs_status_check
  | |- same_inputs _ (file_write ?v _).2 => destruct v; now repeat split
  | |- same_inputs _ (ret _ _).2 => apply same_inputs_refl
  | |- same_inputs _ _ => solve [auto with inputs | now repeat split]
  end.

Lemma same_inputs_set_map_id s : same_inputs s (set_map_id s).2.
Proof. unfold set_map_id. repeat inputs_step. Qed.
#[local] Hint Resolve same_inputs_set_map_id : inputs.

Lemma same_inputs_create_choropleth s : same_inputs s (create_choropleth s).2.
Proof. unfold create_choropleth. repeat inputs_step. Qed.

Lemma same_inputs_configure_map_settings s :
  same_inputs s (configure_map_settings s).2.
Proof. unfold configure_map_settings. repeat inputs_step. Qed.

Lemma same_inputs_add_map_tooltip s : same_inputs s (add_map_tooltip s).2.
Proof. unfold add_map_tooltip. repeat inputs_step. Qed.

Lemma same_inputs_update_map_data s : same_inputs s (update_map_data s).2.
Proof. unfold update_map_data. repeat inputs_step. Qed.

Lemma same_inputs_set_last_update_timestamp s :
  same_inputs s (set_last_update_timestamp s).2.
Proof. unfold set_last_update_timestamp. repeat inputs_step. Qed.
#[local] Hint Resolve same_inputs_create_choropleth
  same_inputs_configure_map_settings same_inputs_add_map_tooltip
  same_inputs_update_map_data same_inputs_set_last_update_timestamp : inputs.

Lemma same_inputs_publish_map s : same_inputs s (publish_map s).2.
Proof. unfold publish_map. repeat inputs_step. Qed.
#[local] Hint Resolve same_inputs_publish_map : inputs.

Lemma same_inputs_run_map_creation s : same_inputs s (run_map_creation s).2.
Proof. unfold run_map_creation. repeat inputs_step. Qed.

Lemma same_inputs_run_map_update s : same_inputs s (run_map_update s).2.
Proof. unfold run_map_update. repeat inputs_step. Qed.

(** ** Line endings *)

Lemma universal_newlines_with_crlf (text : string) :
  string_forallb (is_not CR) text = true ->
  universal_newlines (with_crlf text) = text.
Proof.
  induction text as [|x text IH]; [reflexivity|]. simpl.
  intros [Hx Ht]%andb_prop. unfold is_not in Hx. apply negb_true_iff in Hx.
  destruct (Ascii.eqb_spec x LF) as [->|Hn].
  - simpl. now rewrite IH.
  - simpl. now rewrite Hx, IH.
Qed.

Lemma universal_newlines_with_cr (text : string) :
  string_forallb (is_not CR) text = true ->
  universal_newlines (with_cr text) = text.
Proof.
  induction text as [|x text IH]; [reflexivity|]. simpl.
  intros [Hx Ht]%andb_prop. unfold is_not in Hx. apply negb_true_iff in Hx.
  specialize (IH Ht).
  destruct (Ascii.eqb_spec x LF) as [->|Hn].
  - cbn [universal_newlines]. change (Ascii.eqb CR CR) with true. cbv iota.
    destruct text as [|y text]; [reflexivity|].
    cbn [with_cr] in *.
    destruct (Ascii.eqb_spec y LF) as [->|Hy].
    + change (Ascii.eqb CR LF) with false. cbv iota. now rewrite IH.
    + simpl in Ht. apply andb_prop in Ht as [Hy' _].
      unfold is_not in Hy'. apply negb_true_iff in Hy'.
      apply Ascii.eqb_neq in Hy. rewrite Hy. now rewrite IH.
  - simpl. now rewrite Hx, IH.
Qed.

(** ** Files of bare fields *)

Lemma bare_char_inv x :
  bare_char x = true ->
  Ascii.eqb x delimiter = false /\ Ascii.eqb x DQUOTE = false /\
  Ascii.eqb x CR = false /\ Ascii.eqb x LF = false.
Proof.
  unfold bare_char, is_not.
  intros [[[H1 H2]%andb_prop H3]%andb_prop H4]%andb_prop.
  now rewrite !negb_true_iff in *.
Qed.

Lemma bare_field_inv f :
  bare_field f = true ->
  string_forallb bare_char f = true /\
  (N.of_nat (String.length f) <= field_limit)%N.
Proof.
  unfold bare_field. intros [H1 H2]%andb_prop. split; [assumption|].
  now apply N.leb_le.
Qed.

(** Inside an unquoted field bare characters are taken as they are. *)
Lemma feed_bare_body (f : string) (acc : list string) (pre : string) :
  string_forallb bare_char f = true ->
  (N.of_nat (String.length (pre +:+ f)) <= field_limit)%N ->
  feed_chars (Reader IN_FIELD acc pre) f = Some (Reader IN_FIELD acc (pre +:+ f)).
Proof.
  revert pre. induction f as [|x f IH]; intros pre Hp Hl.
  - now rewrite string_app_nil_r.
  - simpl in Hp. apply andb_prop in Hp as [Hx Hf].
    apply bare_char_inv in Hx as (Hd & Hq & Hcr & Hlf).
    rewrite string_length_app in Hl. simpl in Hl.
    cbn [feed_chars]. unfold parse_process_char. cbn [rstate].
    unfold is_eol_or_newline, is_newline. rewrite Hlf, Hcr, Hd. cbn [orb].
    unfold parse_add_char. cbn [field rstate fields].
    destruct (N.leb_spec field_limit (N.of_nat (String.length pre))) as [Hc|Hc]; [lia|].
    rewrite IH; [| assumption |].
    + now rewrite string_app_assoc.
    + rewrite !string_length_app in *. simpl. lia.
Qed.

(** A bare field read where a field is expected: the reader has the field,
    and waits for a field still when the field is empty. *)
Lemma feed_bare_field (f : string) (acc : list string) :
  bare_field f = true ->
  feed_chars (Reader START_FIELD acc EmptyString) f =
  Some (Reader (match f with EmptyString => START_FIELD | _ => IN_FIELD end) acc f).
Proof.
  intros [Hp Hl]%bare_field_inv. destruct f as [|x f]; [reflexivity|].
  simpl in Hp. apply andb_prop in Hp as [Hx Hf].
  apply bare_char_inv in Hx as (Hd & Hq & Hcr & Hlf).
  cbn [feed_chars]. unfold parse_process_char. cbn [rstate].
  unfold start_field, is_eol_or_newline, is_newline. rewrite Hlf, Hcr. cbn [orb].
  unfold quotechar. rewrite Hq, Hd.
  unfold parse_add_char. cbn [field rstate fields String.length].
  change (field_limit <=? N.of_nat 0)%N with false. cbn [option_map].
  unfold set_rstate. cbn [fields field].
  change (EmptyString +:+ String x EmptyString) with (String x EmptyString).
  rewrite feed_bare_body; [reflexivity | assumption |].
  rewrite string_length_app. cbn [String.length] in *. lia.
Qed.

(** After a bare field, a comma makes the reader wait for the next field. *)
Lemma comma_after_bare_field (f : string) (acc : list string) :
  parse_process_char
    (Reader (match f with EmptyString => START_FIELD | _ => IN_FIELD end) acc f)
    (Some delimiter)
  = Some (Reader START_FIELD (acc ++ [f]) EmptyString).
Proof. now destruct f. Qed.

(** After a bare field, the line feed and the end of the line end the
    record. *)
Lemma newline_after_bare_field (f : string) (acc : list string) :
  feed_line
    (Reader (match f with EmptyString => START_FIELD | _ => IN_FIELD end) acc f) nl
  = Some (Reader START_RECORD (acc ++ [f]) EmptyString).
Proof. now destruct f. Qed.

Lemma feed_bare_fields (fs : list string) (f : string) (acc : list string) :
  forallb bare_field (f :: fs) = true ->
  feed_line (Reader START_FIELD acc EmptyString)
    (String.concat "," (f :: fs) +:+ nl) =
  Some (Reader START_RECORD (acc ++ f :: fs) EmptyString).
Proof.
  revert f acc. induction fs as [|g fs IH]; intros f acc Hp;
    cbn [forallb] in Hp; apply andb_prop in Hp as [Hf Hfs].
  - cbn [String.concat].
    rewrite feed_line_app, feed_bare_field by assumption.
    apply newline_after_bare_field.
  - rewrite concat_cons_cons.
    rewrite string_app_assoc, feed_line_app, feed_bare_field by assumption.
    rewrite string_app_assoc, string_app_cons, string_app_nil_l.
    cbn [feed_line]. 
    change (","%char) with delimiter.
    rewrite comma_after_bare_field.
    rewrite IH by assumption. now rewrite <- List.app_assoc.
Qed.

Lemma feed_bare_line (row : list string) :
  bare_row row = true ->
  feed_line parse_reset (bare_line row) = Some (Reader START_RECORD row EmptyString).
Proof.
  unfold bare_row. intros [Hp Hne]%andb_prop.
  destruct row as [|f fs]; [reflexivity|].
  transitivity (feed_line (Reader START_FIELD [] EmptyString)
                  (String.concat "," (f :: fs) +:+ nl));
    [|exact (feed_bare_fields fs f [] Hp)].
  unfold bare_line.
  destruct f as [|x f].
  - destruct fs as [|g fs]; [discriminate|]. reflexivity.
  - cbn [forallb] in Hp. apply andb_prop in Hp as [[Hf _]%bare_field_inv _].
    simpl in Hf. apply andb_prop in Hf as [Hx _].
    apply bare_char_inv in Hx as (Hd & Hq & Hcr & Hlf).
    assert (String.concat "," (String x f :: fs) +:+ nl
            = String x (String.concat "," (f :: fs) +:+ nl)) as ->.
    { destruct fs; reflexivity. }
    cbn [feed_line].
    assert (parse_process_char parse_reset (Some x)
            = parse_process_char (Reader START_FIELD [] EmptyString) (Some x)) as ->;
      [|reflexivity].
    unfold parse_process_char. cbn [rstate parse_reset].
    unfold is_newline. now rewrite Hlf, Hcr.
Qed.

Lemma string_forallb_concat (P : ascii -> bool) (sep : string) (row : list string) :
  string_forallb P sep = true ->
  forallb (string_forallb P) row = true ->
  string_forallb P (String.concat sep row) = true.
Proof.
  intros Hs. induction row as [|f [|g fs] IH]; [reflexivity| |].
  - cbn [String.concat forallb]. now rewrite andb_true_r.
  - intros [Hf Hr]%andb_prop. rewrite concat_cons_cons.
    now rewrite !string_forallb_app, Hf, Hs, (IH Hr).
Qed.

Lemma bare_fields_are (c : ascii) (row : list string) :
  (forall x, bare_char x = true -> is_not c x = true) ->
  forallb bare_field row = true ->
  forallb (string_forallb (is_not c)) row = true.
Proof.
  intros Hc. induction row as [|f fs IH]; [reflexivity|].
  cbn [forallb]. intros [[Hf _]%bare_field_inv Hfs]%andb_prop.
  now rewrite (string_forallb_impl _ _ f Hc Hf), IH.
Qed.

Lemma bare_not_CR x : bare_char x = true -> is_not CR x = true.
Proof. intros (_ & _ & H & _)%bare_char_inv. unfold is_not. now rewrite H. Qed.

Lemma bare_not_LF x : bare_char x = true -> is_not LF x = true.
Proof. intros (_ & _ & _ & H)%bare_char_inv. unfold is_not. now rewrite H. Qed.

Lemma bare_not_comma x : bare_char x = true -> is_not delimiter x = true.
Proof. intros (H & _)%bare_char_inv. unfold is_not. now rewrite H. Qed.

Lemma bare_row_fields row : bare_row row = true -> forallb bare_field row = true.
Proof. unfold bare_row. now intros [H _]%andb_prop. Qed.

Lemma bare_text_cons row rows :
  bare_text (row :: rows) = bare_line row +:+ bare_text rows.
Proof. unfold bare_text. cbn [map]. apply concat_empty_cons. Qed.

Lemma bare_text_no_CR (rows : list (list string)) :
  forallb bare_row rows = true ->
  string_forallb (is_not CR) (bare_text rows) = true.
Proof.
  induction rows as [|row rows IH]; [reflexivity|].
  cbn [forallb]. intros [Hr Hrs]%andb_prop.
  rewrite bare_text_cons, string_forallb_app, (IH Hrs), andb_true_r.
  unfold bare_line. rewrite string_forallb_app, andb_true_r.
  apply string_forallb_concat; [reflexivity|].
  apply bare_fields_are; [apply bare_not_CR | now apply bare_row_fields].
Qed.

Lemma readlines_bare_text (rows : list (list string)) :
  forallb bare_row rows = true ->
  readlines (bare_text rows) = map bare_line rows.
Proof.
  unfold readlines. induction rows as [|row rows IH]; [reflexivity|].
  cbn [forallb]. intros [Hr Hrs]%andb_prop.
  rewrite bare_text_cons. unfold bare_line at 1.
  rewrite string_app_assoc, readlines_from_line.
  - now rewrite (IH Hrs).
  - apply string_forallb_concat; [reflexivity|].
    apply bare_fields_are; [apply bare_not_LF | now apply bare_row_fields].
Qed.

Lemma reader_rows_bare (rows : list (list string)) :
  forallb bare_row rows = true ->
  reader_rows parse_reset (map bare_line rows) = Return rows.
Proof.
  induction rows as [|row rows IH]; [reflexivity|].
  cbn [forallb]. intros [Hr Hrs]%andb_prop.
  cbn [map reader_rows]. rewrite (feed_bare_line row Hr).
  cbn [at_start_record rstate fields]. now rewrite (IH Hrs).
Qed.

Lemma csv_reader_bare (rows : list (list string)) :
  forallb bare_row rows = true ->
  csv_reader (bare_text rows) = Return rows.
Proof.
  intros H. unfold csv_reader.
  rewrite universal_newlines_id by now apply bare_text_no_CR.
  rewrite readlines_bare_text by assumption.
  now apply reader_rows_bare.
Qed.

(** The payload is the text of the file with a space after every comma. *)
Lemma comma_spaced_app (a b : string) :
  comma_spaced (a +:+ b) = comma_spaced a +:+ comma_spaced b.
Proof.
  induction a as [|x a IH]; [reflexivity|].
  rewrite string_app_cons. cbn [comma_spaced].
  destruct (Ascii.eqb x delimiter); now rewrite !string_app_cons, IH.
Qed.

Lemma comma_spaced_id (f : string) :
  string_forallb (is_not delimiter) f = true -> comma_spaced f = f.
Proof.
  induction f as [|x f IH]; [reflexivity|]. simpl.
  intros [Hx Hf]%andb_prop. unfold is_not in Hx. apply negb_true_iff in Hx.
  now rewrite Hx, IH.
Qed.

Lemma comma_spaced_concat (row : list string) :
  forallb (string_forallb (is_not delimiter)) row = true ->
  comma_spaced (String.concat "," row) = String.concat ", " row.
Proof.
  induction row as [|f [|g fs] IH]; [reflexivity| |].
  - cbn [String.concat forallb]. rewrite andb_true_r. apply comma_spaced_id.
  - intros [Hf Hr]%andb_prop. rewrite !concat_cons_cons.
    rewrite !comma_spaced_app, (comma_spaced_id f Hf), (IH Hr). reflexivity.
Qed.

Lemma comma_spaced_bare_text (rows : list (list string)) :
  forallb bare_row rows = true ->
  comma_spaced (bare_text rows) = transcoded rows.
Proof.
  induction rows as [|row rows IH]; [reflexivity|].
  cbn [forallb]. intros [Hr Hrs]%andb_prop.
  rewrite bare_text_cons, comma_spaced_app, (IH Hrs).
  unfold transcoded. cbn [map]. rewrite concat_empty_cons.
  unfold bare_line, row_line. rewrite comma_spaced_app, comma_spaced_concat; [reflexivity|].
  apply bare_fields_are; [apply bare_not_comma | now apply bare_row_fields].
Qed.

(** ** A quote that is never closed *)

Lemma feed_in_quotes (f : string) (acc : list string) (pre : string) :
  string_forallb (is_not DQUOTE) f = true ->
  (N.of_nat (String.length (pre +:+ f)) <= field_limit)%N ->
  feed_chars (Reader IN_QUOTED_FIELD acc pre) f =
  Some (Reader IN_QUOTED_FIELD acc (pre +:+ f)).
Proof.
  revert pre. induction f as [|x f IH]; intros pre Hp Hl.
  - now rewrite string_app_nil_r.
  - simpl in Hp. apply andb_prop in Hp as [Hx Hf].
    unfold is_not in Hx. apply negb_true_iff in Hx.
    rewrite string_length_app in Hl. simpl in Hl.
    cbn [feed_chars]. unfold parse_process_char. cbn [rstate].
    unfold quotechar. rewrite Hx.
    unfold parse_add_char. cbn [field rstate fields].
    destruct (N.leb_spec field_limit (N.of_nat (String.length pre))) as [Hc|Hc]; [lia|].
    rewrite IH; [| assumption |].
    + now rewrite string_app_assoc.
    + rewrite !string_length_app in *. simpl. lia.
Qed.

Lemma reader_rows_in_quotes (lines : list string) (acc : list string) (pre : string) :
  string_forallb (is_not DQUOTE) (String.concat "" lines) = true ->
  (N.of_nat (String.length (pre +:+ String.concat "" lines)) <= field_limit)%N ->
  reader_rows (Reader IN_QUOTED_FIELD acc pre) lines =
  Return [acc ++ [pre +:+ String.concat "" lines]].
Proof.
  revert pre. induction lines as [|line lines IH]; intros pre Hp Hl.
  - cbn [reader_rows in_quoted_field rstate]. rewrite orb_true_r.
    cbn. now rewrite string_app_nil_r.
  - rewrite concat_empty_cons in *.
    rewrite string_forallb_app in Hp. apply andb_prop in Hp as [Hline Hrest].
    cbn [reader_rows].
    rewrite <- (string_app_nil_r line) at 1.
    rewrite feed_line_app, feed_in_quotes; [| assumption |].
    + cbn [feed_line parse_process_char rstate at_start_record].
      rewrite IH; [now rewrite string_app_assoc | assumption |].
      now rewrite string_app_assoc.
    + rewrite <- string_app_assoc, string_length_app in Hl.
      lia.
Qed.

Lemma concat_readlines_from (text cur : string) :
  String.concat "" (readlines_from cur text) = cur +:+ text.
Proof.
  revert cur. induction text as [|x text IH]; intros cur.
  - cbn [readlines_from]. destruct cur; [reflexivity|].
    cbn [String.concat]. now rewrite string_app_nil_r.
  - cbn [readlines_from]. destruct (Ascii.eqb_spec x LF) as [->|Hx].
    + rewrite concat_empty_cons, IH. unfold nl.
      now rewrite string_app_assoc.
    + rewrite IH. now rewrite string_app_assoc.
Qed.

Lemma readlines_from_cons (c : ascii) (text cur : string) :
  readlines_from (String c cur) text =
  match readlines_from cur text with
  | [] => [String c EmptyString]
  | line :: lines => String c line :: lines
  end.
Proof.
  revert cur. induction text as [|x text IH]; intros cur.
  - now destruct cur.
  - cbn [readlines_from]. destruct (Ascii.eqb x LF); [reflexivity|].
    rewrite string_app_cons. apply IH.
Qed.

(** ** The field limit *)

Lemma feed_bare_overflow (f : string) (acc : list string) (pre : string) :
  string_forallb bare_char f = true ->
  (N.of_nat (String.length pre) <= field_limit)%N ->
  (field_limit < N.of_nat (String.length pre + String.length f))%N ->
  feed_chars (Reader IN_FIELD acc pre) f = None.
Proof.
  revert pre. induction f as [|x f IH]; intros pre Hp Hle Hlt.
  - cbn [String.length] in Hlt. lia.
  - simpl in Hp. apply andb_prop in Hp as [Hx Hf].
    apply bare_char_inv in Hx as (Hd & Hq & Hcr & Hlf).
    cbn [feed_chars]. unfold parse_process_char. cbn [rstate].
    unfold is_eol_or_newline, is_newline. rewrite Hlf, Hcr, Hd. cbn [orb].
    unfold parse_add_char. cbn [field rstate fields].
    destruct (N.leb_spec field_limit (N.of_nat (String.length pre))) as [Hc|Hc];
      [reflexivity|].
    apply IH; [assumption | |].
    + rewrite string_length_app. cbn [String.length]. lia.
    + rewrite string_length_app. cbn [String.length] in *. lia.
Qed.

Lemma feed_line_overflow (f rest : string) :
  string_forallb bare_char f = true ->
  (field_limit < N.of_nat (String.length f))%N ->
  feed_line parse_reset (f +:+ rest) = None.
Proof.
  intros Hp Hlt. destruct f as [|x f]; [cbn [String.length] in Hlt; lia|].
  simpl in Hp. apply andb_prop in Hp as [Hx Hf].
  apply bare_char_inv in Hx as (Hd & Hq & Hcr & Hlf).
  rewrite feed_line_app. cbn [feed_chars].
  assert (parse_process_char parse_reset (Some x)
          = Some (Reader IN_FIELD [] (String x EmptyString))) as ->.
  { unfold parse_process_char. cbn [rstate parse_reset].
    unfold is_newline. rewrite Hlf, Hcr. cbn [orb].
    unfold start_field, is_eol_or_newline, is_newline. rewrite Hlf, Hcr. cbn [orb].
    unfold quotechar. now rewrite Hq, Hd. }
  rewrite feed_bare_overflow; [reflexivity | assumption | |].
  - cbn [String.length]. unfold field_limit. lia.
  - cbn [String.length] in *. lia.
Qed.

Lemma universal_newlines_app (f text : string) :
  string_forallb (is_not CR) f = true ->
  universal_newlines (f +:+ text) = f +:+ universal_newlines text.
Proof.
  induction f as [|x f IH]; [reflexivity|]. simpl.
  intros [Hx Hf]%andb_prop. unfold is_not in Hx. apply negb_true_iff in Hx.
  rewrite !string_app_cons. cbn [universal_newlines]. now rewrite Hx, IH.
Qed.

Lemma readlines_from_app (f text cur : string) :
  string_forallb (is_not LF) f = true ->
  readlines_from cur (f +:+ text) = readlines_from (cur +:+ f) text.
Proof.
  revert cur. induction f as [|x f IH]; intros cur Hf.
  - now rewrite string_app_nil_r.
  - simpl in Hf. apply andb_prop in Hf as [Hx Hf].
    unfold is_not in Hx. apply negb_true_iff in Hx.
    rewrite string_app_cons. cbn [readlines_from]. rewrite Hx.
    rewrite IH by assumption. now rewrite string_app_assoc.
Qed.

Lemma readlines_from_head (text : string) (c : ascii) (cur : string) :
  exists line lines,
    readlines_from (String c cur) text = (String c cur +:+ line) :: lines.
Proof.
  revert cur. induction text as [|x text IH]; intros cur.
  - exists EmptyString, []. cbn. now rewrite string_app_nil_r.
  - cbn [readlines_from]. destruct (Ascii.eqb x LF).
    + now exists nl, (readlines_from EmptyString text).
    + rewrite string_app_cons.
      destruct (IH (cur +:+ String x EmptyString)) as (line & lines & ->).
      exists (String x line), lines.
      now rewrite !string_app_cons, string_app_assoc.
Qed.

Lemma csv_reader_overflow (f rest : string) :
  string_forallb bare_char f = true ->
  (field_limit < N.of_nat (String.length f))%N ->
  csv_reader (f +:+ rest) = Raise CsvError.
Proof.
  intros Hp Hlt. unfold csv_reader, readlines.
  rewrite universal_newlines_app
    by exact (string_forallb_impl _ _ f bare_not_CR Hp).
  rewrite readlines_from_app, string_app_nil_l
    by exact (string_forallb_impl _ _ f bare_not_LF Hp).
  destruct f as [|x f]; [cbn [String.length] in Hlt; lia|].
  destruct (readlines_from_head (universal_newlines rest) x f) as (line & lines & ->).
  cbn [reader_rows]. now rewrite feed_line_overflow.
Qed.

(** ** The configuration parser on values without percent signs *)

Lemma match_key_no_percent (s : string) :
  has_percent s = false -> match_key s = None.
Proof.
  destruct s as [|x [|y r]]; try reflexivity.
  cbn [has_percent match_key]. intros H.
  apply orb_false_iff in H as [-> _]. reflexivity.
Qed.

Lemma without_escaped_percents_id (s : string) :
  has_percent s = false -> without_escaped_percents s = s.
Proof.
  induction s as [|x r IH]; [reflexivity|].
  cbn [has_percent]. intros H. apply orb_false_iff in H as [Hx Hr].
  cbn [without_escaped_percents]. destruct r as [|y r']; [reflexivity|].
  rewrite Hx. cbn [andb]. now rewrite (IH Hr).
Qed.

Lemma without_keys_id (n : nat) (s : string) :
  has_percent s = false -> without_keys n s = s.
Proof.
  revert s. induction n as [|n IH]; intros s H; [now destruct s|].
  destruct s as [|x r]; [reflexivity|].
  cbn [without_keys]. rewrite (match_key_no_percent _ H).
  cbn [has_percent] in H. apply orb_false_iff in H as [_ Hr].
  now rewrite (IH _ Hr).
Qed.

Lemma valid_interpolation_syntax_no_percent (s : string) :
  has_percent s = false -> valid_interpolation_syntax s = true.
Proof.
  intros H. unfold valid_interpolation_syntax.
  rewrite (without_escaped_percents_id _ H), (without_keys_id _ _ H), H.
  reflexivity.
Qed.

Lemma interpolate_loop_no_percent nested map (n : nat) (s : string) :
  has_percent s = false -> String.length s <= n ->
  interpolate_loop nested map n s = Return s.
Proof.
  revert s. induction n as [|n IH]; intros s H Hn.
  - destruct s; [reflexivity|]. cbn [String.length] in Hn. lia.
  - destruct s as [|x r]; [reflexivity|].
    cbn [has_percent] in H. apply orb_false_iff in H as [Hx Hr].
    cbn [String.length] in Hn.
    cbn [interpolate_loop]. rewrite Hx. cbn [negb].
    rewrite (IH r Hr) by lia. reflexivity.
Qed.

Lemma before_get_no_percent map (v : string) :
  has_percent v = false -> before_get map v = Return v.
Proof.
  intros H. unfold before_get, MAX_INTERPOLATION_DEPTH.
  cbn [interpolate_some]. now apply interpolate_loop_no_percent.
Qed.

(** ** Identifiers the configuration stores as they are *)

Lemma storable_inv x i :
  storable (String x i) = true ->
  Ascii.eqb x PERCENT = false /\ is_space x = false /\ storable i = true.
Proof.
  unfold storable. cbn [string_forallb]. intros H.
  apply andb_prop in H as [H Hi]. apply andb_prop in H as [Hp Hs].
  apply negb_true_iff in Hp. apply negb_true_iff in Hs. now repeat split.
Qed.

Lemma storable_no_percent i : storable i = true -> has_percent i = false.
Proof.
  induction i as [|x i IH]; [reflexivity|]. intros H.
  apply storable_inv in H as (Hp & _ & Hi).
  cbn [has_percent]. now rewrite Hp, (IH Hi).
Qed.

Lemma storable_accepted i : storable i = true -> accepted i = true.
Proof.
  intros H. unfold accepted.
  rewrite (valid_interpolation_syntax_no_percent _ (storable_no_percent _ H)).
  apply orb_true_r.
Qed.

Lemma storable_lstrip i : storable i = true -> lstrip i = i.
Proof.
  destruct i as [|x i]; [reflexivity|]. intros H.
  apply storable_inv in H as (_ & Hs & _). cbn [lstrip]. now rewrite Hs.
Qed.

Lemma storable_rstrip i : storable i = true -> rstrip i = i.
Proof.
  induction i as [|x i IH]; [reflexivity|]. intros H.
  apply storable_inv in H as (_ & Hs & Hi).
  cbn [rstrip]. rewrite (IH Hi), Hs. now destruct i.
Qed.

Lemma storable_strip i : storable i = true -> strip i = i.
Proof.
  intros H. unfold strip. now rewrite (storable_lstrip _ H), (storable_rstrip _ H).
Qed.

Lemma is_newline_is_space x : is_newline x = true -> is_space x = true.
Proof.
  unfold is_newline. intros H. apply orb_prop in H as [H|H];
    apply Ascii.eqb_eq in H; subst x; reflexivity.
Qed.

Lemma storable_one_line i : storable i = true -> one_line i = true.
Proof.
  induction i as [|x i IH]; [reflexivity|]. intros H.
  apply storable_inv in H as (_ & Hs & Hi).
  unfold one_line in *. cbn [string_forallb]. rewrite (IH Hi), andb_true_r.
  apply negb_true_iff. destruct (is_newline x) eqn:E; [|reflexivity].
  apply is_newline_is_space in E. congruence.
Qed.

(** ** The identifier in the configuration *)

Lemma config_raw_with_identifier c sec i :
  c !! "DATA_WRAPPER" = Some sec ->
  config_raw (with_identifier i c) "DATA_WRAPPER" "map_id" = Some i.
Proof.
  intros H. unfold config_raw, with_identifier. rewrite H, lookup_insert_eq.
  cbn. now rewrite lookup_insert_eq.
Qed.

Lemma config_raw_with_identifier_other c i section name :
  (section, name) <> ("DATA_WRAPPER", "map_id") ->
  config_raw (with_identifier i c) section name = config_raw c section name.
Proof.
  intros Hne. unfold with_identifier, config_raw.
  destruct (c !! "DATA_WRAPPER") as [sec|] eqn:Hs; [|reflexivity].
  destruct (decide (section = "DATA_WRAPPER")) as [->|Hsec].
  - rewrite lookup_insert_eq, Hs. cbn.
    rewrite lookup_insert_ne; [reflexivity|]. congruence.
  - rewrite lookup_insert_ne; [reflexivity|]. congruence.
Qed.

(** A stored identifier without percent signs is what the object reads. *)
Lemma config_getitem_raw c i :
  config_raw c "DATA_WRAPPER" "map_id" = Some i ->
  has_percent i = false ->
  config_getitem c "DATA_WRAPPER" "MAP_ID" = Return i.
Proof.
  unfold config_raw, config_getitem.
  change (String.eqb "DATA_WRAPPER" "DEFAULT") with false. cbv iota.
  change (optionxform "MAP_ID") with "map_id".
  destruct (c !! "DATA_WRAPPER") as [sec|]; [|discriminate].
  intros Hi Hp. change (sec !! "map_id" = Some i) in Hi.
  unfold unify_values at 1. rewrite Hi.
  now apply before_get_no_percent.
Qed.

Lemma config_getitem_section c section option v :
  section <> "DEFAULT" ->
  config_getitem c section option = Return v ->
  exists sec, c !! section = Some sec.
Proof.
  intros Hd. unfold config_getitem.
  apply String.eqb_neq in Hd. rewrite Hd.
  destruct (c !! section) as [sec|]; [|discriminate]. now exists sec.
Qed.

Lemma init_inv c environ mapper :
  init c environ = Return mapper ->
  exists var auth id html csv,
    config_getitem c "DATA_WRAPPER" "API_AUTH_CODE" = Return var /\
    environ !! var = Some auth /\
    config_getitem c "DATA_WRAPPER" "MAP_ID" = Return id /\
    config_getitem c "DATA_SOURCES" "HTML_OUTPUT_FILE_PATH" = Return html /\
    config_getitem c "DATA_SOURCES" "OUTPUT_CSV_FILE_PATH" = Return csv /\
    mapper = Self c auth (JStr id) html csv.
Proof.
  unfold init.
  destruct (config_getitem c "DATA_WRAPPER" "API_AUTH_CODE") as [var|]; [|discriminate].
  destruct (environ !! var) as [auth|] eqn:Ev; [|discriminate].
  destruct (config_getitem c "DATA_WRAPPER" "MAP_ID") as [id|]; [|discriminate].
  destruct (config_getitem c "DATA_SOURCES" "HTML_OUTPUT_FILE_PATH") as [html|]; [|discriminate].
  destruct (config_getitem c "DATA_SOURCES" "OUTPUT_CSV_FILE_PATH") as [csv|]; [|discriminate].
  intros [= <-]. now exists var, auth, id, html, csv.
Qed.

Lemma init_section c environ mapper :
  init c environ = Return mapper ->
  config mapper = c /\ exists sec, c !! "DATA_WRAPPER" = Some sec.
Proof.
  intros H. apply init_inv in H as (var & auth & id & html & csv & _ & _ & Hi & _ & _ & ->).
  split; [reflexivity|].
  now apply (config_getitem_section c "DATA_WRAPPER" "MAP_ID" id).
Qed.

(** ** The file, read again *)

Lemma reread_inv c c2 :
  reread c = Some c2 -> plain_file c /\ c2 = stripped <$> c.
Proof.
  unfold reread. destruct (decide (plain_file c)); [|discriminate].
  intros [= <-]. now split.
Qed.

Lemma config_raw_reread c c2 section name :
  reread c = Some c2 ->
  config_raw c2 section name = strip <$> config_raw c section name.
Proof.
  intros H. apply reread_inv in H as [_ ->].
  unfold config_raw. rewrite lookup_fmap.
  destruct (c !! section) as [sec|]; [|reflexivity].
  cbn. unfold stripped. now rewrite lookup_fmap.
Qed.

Lemma plain_file_with_identifier c i :
  plain_file c -> one_line i = true -> plain_file (with_identifier i c).
Proof.
  intros Hc Hi. unfold with_identifier.
  destruct (c !! "DATA_WRAPPER") as [sec|] eqn:Hs; [|assumption].
  unfold plain_file. apply map_Forall_insert_2; [|assumption].
  destruct (Hc _ _ Hs) as [Hn Hsec]. split; [assumption|].
  apply map_Forall_insert_2; [|assumption]. split; [reflexivity|assumption].
Qed.

Lemma reread_with_identifier c i :
  reread c = Some c -> storable i = true ->
  reread (with_identifier i c) = Some (with_identifier i c).
Proof.
  intros H Hi. apply reread_inv in H as [Hp Hc].
  unfold reread.
  destruct (decide (plain_file (with_identifier i c))) as [_|Hn].
  - f_equal. unfold with_identifier.
    destruct (c !! "DATA_WRAPPER") as [sec|] eqn:Hs; [|now symmetry].
    rewrite fmap_insert, <- Hc. f_equal.
    unfold stripped at 1. rewrite fmap_insert, (storable_strip _ Hi). f_equal.
    assert ((stripped <$> c) !! "DATA_WRAPPER" = Some sec) as Hs' by now rewrite <- Hc.
    rewrite lookup_fmap, Hs in Hs'. now injection Hs'.
  - destruct Hn. apply plain_file_with_identifier; [assumption|].
    now apply storable_one_line.
Qed.

Lemma reread_example_config : reread example_config = Some example_config.
Proof. vm_compute. reflexivity. Qed.

(** ** The workflows, request by request *)

Lemma run_map_update_uses_identifier s i :
  map_id (self s) = JStr i ->
  exists t,
    trace (env (run_map_update s).2) = trace (env s) ++ t /\
    forallb (addressed_to (JStr i)) (sent_in t) = true /\
    (Create ∉ steps_of t) /\
    (PersistIdentifier ∉ steps_of t) /\
    config_ini (env (run_map_update s).2) = config_ini (env s) /\
    (forall raw rows,
        csv_file (env s) = Some raw -> csv_reader raw = Return rows ->
        exists t',
          t = Sent (Request PUT (data_url i) (Text (county_results_of rows))
                      (data_headers (api_auth_code (self s)))) :: t').
Proof.
  intros Hi.
  destruct (same_identifier_run_map_update s) as (_ & Hc & t & Ht & Ha).
  destruct (emits_run_map_update s) as (t0 & Ht0 & Hs).
  assert (t0 = t) as -> by (apply (app_inv_head (trace (env s))); congruence).
  assert (steps_of t `prefix_of` update_steps) as Hp.
  { destruct (returned _); [now rewrite Hs | assumption]. }
  exists t. rewrite Hi in Ha.
  split; [assumption|]. split; [assumption|].
  split; [|split; [|split; [assumption|]]].
  - apply (prefix_of_steps_not_in _ _ _ Hp). unfold update_steps.
    rewrite !not_elem_of_cons. repeat split; try discriminate. apply not_elem_of_nil.
  - apply (prefix_of_steps_not_in _ _ _ Hp). unfold update_steps.
    rewrite !not_elem_of_cons. repeat split; try discriminate. apply not_elem_of_nil.
  - intros raw rows Hf Hr.
    pose proof (update_map_data_trace s raw rows i Hi Hf Hr) as Hu.
    unfold run_map_update, bind in Ht.
    destruct (update_map_data s) as [[[]|e] s1]; cbn [fst snd] in *.
    + destruct (emits_publish_map s1) as (t2 & Ht2 & _).
      exists t2. apply (app_inv_head (trace (env s))).
      rewrite <- Ht, Ht2, Hu. now rewrite <- List.app_assoc.
    + exists []. apply (app_inv_head (trace (env s))). congruence.
Qed.

Lemma read_csv_inv w rows :
  read_csv w = Return rows ->
  exists raw, csv_file w = Some raw /\ csv_reader raw = Return rows.
Proof.
  unfold read_csv. destruct (csv_file w) as [raw|]; [|discriminate].
  intros H. now exists raw.
Qed.

Lemma json_string_or_not (v : json) :
  (exists i, v = JStr i) \/ (forall i, v <> JStr i).
Proof. destruct v; try (right; intros i; discriminate). left. now eexists. Qed.

Lemma update_map_data_not_string s :
  (forall i, map_id (self s) <> JStr i) ->
  update_map_data s = (Raise TypeError, s).
Proof.
  intros H. unfold update_map_data. run_get.
  destruct (map_id (self s)) as [| | |i| |] eqn:E; try reflexivity.
  now destruct (H i).
Qed.

(** The update workflow that runs to its end. *)
Lemma run_map_update_complete s i rows embed_codes snippet :
  map_id (self s) = JStr i ->
  read_csv (env s) = Return rows ->
  publish_section (update_publish_response i rows s) = Return embed_codes ->
  responsive_code embed_codes = Return (JStr snippet) ->
  (run_map_update s).1 = Return tt /\
  trace (env (run_map_update s).2) =
    trace (env s)
    ++ [Sent (data_request i (api_auth_code (self s)) rows);
        Sent (timestamp_request i (api_auth_code (self s)) (clock (env s)));
        Sent (publish_request i (api_auth_code (self s)));
        HtmlOpened; HtmlWritten snippet] /\
  html_file (env (run_map_update s).2) = Some snippet /\
  self (run_map_update s).2 = self s /\
  config_ini (env (run_map_update s).2) = config_ini (env s) /\
  csv_file (env (run_map_update s).2) = csv_file (env s).
Proof.
  intros Hi (raw & Hf & Hr)%read_csv_inv Hs Hc. unfold run_map_update.
  rewrite (bind_run _ _ s _ _ (update_map_data_exact s i raw rows Hi Hf Hr)).
  cbv beta.
  lazymatch goal with
  | |- context [publish_map ?su] => rewrite (publish_map_exact su i Hi)
  end.
  rewrite publish_response_after_data, Hs, Hc.
  cbn [fst snd]. repeat split.
  cbn. rewrite <- !List.app_assoc. reflexivity.
Qed.

(** The update workflow returns only when it has run to its end. *)
Lemma run_map_update_returned s :
  returned (run_map_update s).1 = true ->
  exists i rows embed_codes snippet,
    map_id (self s) = JStr i /\
    read_csv (env s) = Return rows /\
    publish_section (update_publish_response i rows s) = Return embed_codes /\
    responsive_code embed_codes = Return (JStr snippet).
Proof.
  intros H. unfold run_map_update in H.
  destruct (json_string_or_not (map_id (self s))) as [[i Hi]|Hn].
  - destruct (read_csv (env s)) as [rows|e] eqn:Hr.
    + pose proof Hr as (raw & Hf & Hrd)%read_csv_inv.
      rewrite (bind_run _ _ s _ _ (update_map_data_exact s i raw rows Hi Hf Hrd)) in H.
      cbv beta in H.
      lazymatch type of H with
      | context [publish_map ?su] => rewrite (publish_map_exact su i Hi) in H
      end.
      rewrite publish_response_after_data in H.
      destruct (publish_section _) as [ec|e] eqn:Hs; [|discriminate].
      destruct (responsive_code ec) as [[| | |snippet| |]|e] eqn:Hc; try discriminate.
      now exists i, rows, ec, snippet.
    + rewrite (bind_raise _ _ s _ _ (update_map_data_unreadable s i e Hi Hr)) in H.
      discriminate.
  - rewrite (bind_raise _ _ s _ _ (update_map_data_not_string s Hn)) in H.
    discriminate.
Qed.

(** What [publish_map] does to the world: the timestamp request and the
    publish request whatever the answers, then the artifact. *)
Lemma publish_map_trace s i :
  map_id (self s) = JStr i ->
  exists t,
    trace (env (publish_map s).2) =
      trace (env s)
      ++ [Sent (timestamp_request i (api_auth_code (self s)) (clock (env s)));
          Sent (publish_request i (api_auth_code (self s)))] ++ t /\
    steps_of t `prefix_of` [OpenArtifact; WriteArtifact] /\
    (returned (publish_map s).1 = true -> steps_of t = [OpenArtifact; WriteArtifact]).
Proof.
  intros Hi. rewrite (publish_map_exact s i Hi).
  destruct (publish_section _) as [ec|e].
  - destruct (responsive_code ec) as [[| | |snippet| |]|e]; cbn [fst snd returned].
    all: try (exists [HtmlOpened]; split; [cbn; now rewrite <- !List.app_assoc|];
              split; [now exists [WriteArtifact] | discriminate]).
    exists [HtmlOpened; HtmlWritten snippet].
    split; [cbn; now rewrite <- !List.app_assoc|]. now split.
  - exists []. cbn [fst snd returned].
    split; [cbn; now rewrite <- !List.app_assoc|].
    split; [apply prefix_nil | discriminate].
Qed.

(** The create workflow up to its publish step, when the body of the create
    response carries an identifier and the CSV file can be read. *)
Lemma run_map_creation_to_publish s sec i rows :
  config (self s) !! "DATA_WRAPPER" = Some sec ->
  body_id (create_response s) = Return (JStr i) ->
  accepted i = true ->
  read_csv (env s) = Return rows ->
  exists s4,
    run_map_creation s = publish_map s4 /\
    self s4 = Self (with_identifier i (config (self s))) (api_auth_code (self s))
                   (JStr i) (html_map_output (self s)) (csv_file_path (self s)) /\
    clock (env s4) = clock (env s) /\
    trace (env s4) =
      trace (env s)
      ++ [Sent (create_request (api_auth_code (self s)));
          ConfigWritten (with_identifier i (config (self s)));
          Sent (settings_request i (api_auth_code (self s)));
          Sent (tooltip_request i (api_auth_code (self s)));
          Sent (data_request i (api_auth_code (self s)) rows)] /\
    config_ini (env s4) = with_identifier i (config (self s)) /\
    html_file (env s4) = html_file (env s) /\
    csv_file (env s4) = csv_file (env s) /\
    publish_response i s4 = creation_publish_response i rows s.
Proof.
  intros Hsec Hid Ha (raw & Hf & Hr)%read_csv_inv. unfold run_map_creation.
  pose proof (create_choropleth_exact s) as Hcreate.
  rewrite Hid, (config_set_identifier _ _ i Hsec Ha) in Hcreate.
  rewrite (bind_run _ _ s _ _ Hcreate). cbv beta.
  set (sc := identifier_persisted (JStr i) (with_identifier i (config (self s))) s).
  assert (map_id (self sc) = JStr i) as Hi by reflexivity.
  rewrite (bind_run _ _ sc _ _ (configure_map_settings_exact sc i Hi)). cbv beta.
  lazymatch goal with
  | |- context [bind add_map_tooltip ?k ?s1] =>
      rewrite (bind_run _ k s1 _ _ (add_map_tooltip_exact s1 i Hi)); cbv beta
  end.
  lazymatch goal with
  | |- context [bind update_map_data ?k ?s2] =>
      rewrite (bind_run _ k s2 _ _ (update_map_data_exact s2 i raw rows Hi Hf Hr));
      cbv beta
  end.
  eexists. split; [reflexivity|].
  split; [now destruct s as [[] ?]|]. split; [reflexivity|].
  split; [cbn; now rewrite <- !List.app_assoc|].
  split; [reflexivity|]. split; [reflexivity|]. split; [reflexivity|].
  unfold publish_response, creation_publish_response.
  rewrite !sent_after_request. subst sc. rewrite sent_identifier_persisted.
  rewrite <- !List.app_assoc. reflexivity.
Qed.

(** The create request is the first thing the create workflow does. *)
Lemma create_choropleth_first s :
  exists t,
    trace (env (create_choropleth s).2)
    = trace (env s) ++ Sent (create_request (api_auth_code (self s))) :: t.
Proof.
  rewrite create_choropleth_exact.
  destruct (body_id (create_response s)) as [v|e]; [|now exists []].
  destruct (config_set _ _ _ v) as [c|e]; [|now exists []].
  exists [ConfigWritten c]. cbn. now rewrite <- List.app_assoc.
Qed.

Lemma emits_after_create :
  emits (configure_map_settings ;;; add_map_tooltip ;;; update_map_data ;;; publish_map)
        [Configure; SetTooltip; PushData; StampTimestamp; Publish;
         OpenArtifact; WriteArtifact].
Proof.
  eapply emits_bind; [apply emits_configure_map_settings | intros | reflexivity].
  eapply emits_bind; [apply emits_add_map_tooltip | intros | reflexivity].
  eapply emits_bind; [apply emits_update_map_data | intros | reflexivity].
  apply emits_publish_map.
Qed.

Lemma run_map_creation_first s :
  exists t,
    trace (env (run_map_creation s).2)
    = trace (env s) ++ Sent (create_request (api_auth_code (self s))) :: t.
Proof.
  destruct (create_choropleth_first s) as (t1 & H1).
  unfold run_map_creation.
  destruct (create_choropleth s) as [[[]|e] s1] eqn:E; cbn [fst snd] in H1.
  - rewrite (bind_run _ _ s _ _ E).
    destruct (emits_after_create s1) as (t2 & H2 & _).
    exists (t1 ++ t2). rewrite H2, H1, <- List.app_assoc. reflexivity.
  - rewrite (bind_raise _ _ s _ _ E). now exists t1.
Qed.

(** The body of an answer, and the identifier in it. *)
Lemma body_id_of r j v :
  body r = Some j -> subscript j "id" = Return v -> body_id r = Return v.
Proof. intros Hb Hj. unfold body_id, response_json. now rewrite Hb. Qed.

(** ** Files that mix quoted and bare fields *)

Lemma quotable_char_inv x :
  quotable_char x = true -> Ascii.eqb x CR = false /\ Ascii.eqb x LF = false.
Proof.
  unfold quotable_char, is_not. intros [H1 H2]%andb_prop.
  now rewrite !negb_true_iff in *.
Qed.

(** Inside a quoted field every character of the line is taken as it is, a
    doubled quote as one quote. *)
Lemma feed_doubled (f : string) (acc : list string) (pre : string) :
  string_forallb quotable_char f = true ->
  (N.of_nat (String.length (pre +:+ f)) <= field_limit)%N ->
  feed_chars (Reader IN_QUOTED_FIELD acc pre) (doubled f) =
  Some (Reader IN_QUOTED_FIELD acc (pre +:+ f)).
Proof.
  revert pre. induction f as [|x f IH]; intros pre Hp Hl.
  - now rewrite string_app_nil_r.
  - simpl in Hp. apply andb_prop in Hp as [Hx Hf].
    rewrite string_length_app in Hl. simpl in Hl.
    assert ((field_limit <=? N.of_nat (String.length pre))%N = false) as Hc
      by (apply N.leb_gt; lia).
    assert (N.of_nat (String.length ((pre +:+ String x EmptyString) +:+ f))
            <= field_limit)%N as Hl'
      by (rewrite !string_length_app; simpl; lia).
    cbn [doubled]. destruct (Ascii.eqb x DQUOTE) eqn:Hq.
    + apply Ascii.eqb_eq in Hq. subst x.
      cbn [feed_chars]. unfold parse_process_char at 1. cbn [rstate].
      unfold quotechar. rewrite Ascii.eqb_refl.
      unfold set_rstate. cbn [fields field].
      unfold parse_process_char at 1. cbn [rstate].
      unfold quotechar. rewrite Ascii.eqb_refl.
      unfold parse_add_char. cbn [field rstate fields]. rewrite Hc.
      cbn [option_map]. unfold set_rstate. cbn [fields field].
      rewrite (IH _ Hf Hl'). now rewrite string_app_assoc.
    + cbn [feed_chars]. unfold parse_process_char at 1. cbn [rstate].
      unfold quotechar. rewrite Hq.
      unfold parse_add_char. cbn [field rstate fields]. rewrite Hc.
      rewrite (IH _ Hf Hl'). now rewrite string_app_assoc.
Qed.

Lemma feed_cell (c : cell) (acc : list string) :
  well_formed_cell c = true ->
  feed_chars (Reader START_FIELD acc EmptyString) (cell_text c)
  = Some (after_cell c acc).
Proof.
  destruct c as [f|f]; cbn [well_formed_cell cell_text after_cell].
  - intros [Hp Hl%N.leb_le]%andb_prop.
    unfold dq. rewrite string_app_cons, string_app_nil_l.
    cbn [feed_chars].
    change (parse_process_char (Reader START_FIELD acc EmptyString) (Some DQUOTE))
      with (Some (Reader IN_QUOTED_FIELD acc EmptyString)).
    cbv beta iota.
    rewrite feed_chars_app, feed_doubled by (rewrite ?string_app_nil_l; assumption).
    rewrite string_app_nil_l. reflexivity.
  - apply feed_bare_field.
Qed.

Lemma comma_after_cell (c : cell) (acc : list string) :
  parse_process_char (after_cell c acc) (Some delimiter)
  = Some (Reader START_FIELD (acc ++ [content_of c]) EmptyString).
Proof. destruct c as [f|f]; [reflexivity|]. apply comma_after_bare_field. Qed.

Lemma newline_after_cell (c : cell) (acc : list string) :
  feed_line (after_cell c acc) nl
  = Some (Reader START_RECORD (acc ++ [content_of c]) EmptyString).
Proof. destruct c as [f|f]; [reflexivity|]. apply newline_after_bare_field. Qed.

Lemma feed_cells (cs : list cell) (c : cell) (acc : list string) :
  forallb well_formed_cell (c :: cs) = true ->
  feed_line (Reader START_FIELD acc EmptyString)
    (String.concat "," (map cell_text (c :: cs)) +:+ nl) =
  Some (Reader START_RECORD (acc ++ map content_of (c :: cs)) EmptyString).
Proof.
  revert c acc. induction cs as [|d cs IH]; intros c acc Hp;
    cbn [forallb] in Hp; apply andb_prop in Hp as [Hc Hcs].
  - cbn [map String.concat].
    rewrite feed_line_app, feed_cell by assumption.
    apply newline_after_cell.
  - cbn [map]. rewrite concat_cons_cons.
    rewrite string_app_assoc, feed_line_app, feed_cell by assumption.
    rewrite string_app_assoc, string_app_cons, string_app_nil_l.
    cbn [feed_line].
    change (","%char) with delimiter.
    rewrite comma_after_cell.
    change (cell_text d :: map cell_text cs) with (map cell_text (d :: cs)).
    rewrite IH by assumption. now rewrite <- List.app_assoc.
Qed.

(** The first character of the line of a row does not end the line. *)
Lemma feed_cells_line (row : list cell) :
  well_formed_row row = true ->
  feed_line parse_reset (cells_line row)
  = Some (Reader START_RECORD (map content_of row) EmptyString).
Proof.
  unfold well_formed_row. intros [Hp Hne]%andb_prop.
  destruct row as [|c cs]; [reflexivity|].
  transitivity (feed_line (Reader START_FIELD [] EmptyString)
                  (String.concat "," (map cell_text (c :: cs)) +:+ nl));
    [|exact (feed_cells cs c [] Hp)].
  unfold cells_line.
  assert (exists x rest,
             String.concat "," (map cell_text (c :: cs)) = String x rest /\
             is_newline x = false) as (x & rest & -> & Hx).
  { destruct c as [f|[|y f]].
    - exists DQUOTE. cbn [map cell_text]. unfold dq.
      destruct cs; cbn; eexists; now split.
    - destruct cs as [|d cs]; [discriminate|].
      exists delimiter. cbn. eexists. now split.
    - cbn [forallb well_formed_cell] in Hp.
      apply andb_prop in Hp as [[Hf _]%bare_field_inv _].
      simpl in Hf. apply andb_prop in Hf as [Hy _].
      apply bare_char_inv in Hy as (_ & _ & Hcr & Hlf).
      exists y. destruct cs; cbn; eexists; (split; [reflexivity|]);
        unfold is_newline; now rewrite Hlf, Hcr. }
  rewrite string_app_cons. cbn [feed_line].
  unfold parse_process_char at 1. cbn [rstate parse_reset]. rewrite Hx.
  reflexivity.
Qed.

Lemma string_forallb_doubled (P : ascii -> bool) (f : string) :
  P DQUOTE = true -> string_forallb P f = true ->
  string_forallb P (doubled f) = true.
Proof.
  intros Hq. induction f as [|x f IH]; [reflexivity|].
  simpl. intros [Hx Hf]%andb_prop.
  destruct (Ascii.eqb x DQUOTE); simpl; now rewrite ?Hq, ?Hx, (IH Hf).
Qed.

Lemma string_forallb_cell (P : ascii -> bool) (c : cell) :
  P DQUOTE = true -> string_forallb P (content_of c) = true ->
  string_forallb P (cell_text c) = true.
Proof.
  intros Hq Hc. destruct c as [f|f]; [|assumption].
  cbn [cell_text content_of] in *. unfold dq.
  rewrite string_app_cons, string_app_nil_l. simpl.
  rewrite Hq, string_forallb_app, (string_forallb_doubled P f Hq Hc). simpl.
  now rewrite Hq.
Qed.

Lemma cells_are (x : ascii) (row : list cell) :
  Ascii.eqb x CR = true \/ Ascii.eqb x LF = true ->
  forallb well_formed_cell row = true ->
  forallb (string_forallb (is_not x)) (map cell_text row) = true.
Proof.
  intros Hx. induction row as [|c cs IH]; [reflexivity|].
  cbn [forallb map]. intros [Hc Hcs]%andb_prop. rewrite (IH Hcs), andb_true_r.
  assert (is_not x DQUOTE = true) as Hq.
  { unfold is_not. destruct Hx as [Hx|Hx]; apply Ascii.eqb_eq in Hx; now subst x. }
  apply string_forallb_cell; [assumption|].
  destruct c as [f|f]; cbn [well_formed_cell content_of] in *.
  - apply andb_prop in Hc as [Hf _].
    apply (string_forallb_impl quotable_char); [|assumption].
    intros y [Hcr Hlf]%quotable_char_inv. unfold is_not.
    destruct Hx as [Hx|Hx]; apply Ascii.eqb_eq in Hx; subst x;
      now rewrite ?Hcr, ?Hlf.
  - apply bare_field_inv in Hc as [Hf _].
    apply (string_forallb_impl bare_char); [|assumption].
    intros y (_ & _ & Hcr & Hlf)%bare_char_inv. unfold is_not.
    destruct Hx as [Hx|Hx]; apply Ascii.eqb_eq in Hx; subst x;
      now rewrite ?Hcr, ?Hlf.
Qed.

Lemma well_formed_row_cells row :
  well_formed_row row = true -> forallb well_formed_cell row = true.
Proof. unfold well_formed_row. now intros [H _]%andb_prop. Qed.

Lemma cells_text_cons row rows :
  cells_text (row :: rows) = cells_line row +:+ cells_text rows.
Proof. unfold cells_text. cbn [map]. apply concat_empty_cons. Qed.

Lemma cells_text_no_CR (rows : list (list cell)) :
  forallb well_formed_row rows = true ->
  string_forallb (is_not CR) (cells_text rows) = true.
Proof.
  induction rows as [|row rows IH]; [reflexivity|].
  cbn [forallb]. intros [Hr Hrs]%andb_prop.
  rewrite cells_text_cons, string_forallb_app, (IH Hrs), andb_true_r.
  unfold cells_line. rewrite string_forallb_app, andb_true_r.
  apply string_forallb_concat; [reflexivity|].
  apply cells_are; [now left | now apply well_formed_row_cells].
Qed.

Lemma readlines_cells_text (rows : list (list cell)) :
  forallb well_formed_row rows = true ->
  readlines (cells_text rows) = map cells_line rows.
Proof.
  unfold readlines. induction rows as [|row rows IH]; [reflexivity|].
  cbn [forallb]. intros [Hr Hrs]%andb_prop.
  rewrite cells_text_cons. unfold cells_line at 1.
  rewrite string_app_assoc, readlines_from_line.
  - now rewrite (IH Hrs).
  - apply string_forallb_concat; [reflexivity|].
    apply cells_are; [now right | now apply well_formed_row_cells].
Qed.

Lemma reader_rows_cells (rows : list (list cell)) :
  forallb well_formed_row rows = true ->
  reader_rows parse_reset (map cells_line rows) = Return (contents rows).
Proof.
  induction rows as [|row rows IH]; [reflexivity|].
  cbn [forallb]. intros [Hr Hrs]%andb_prop.
  cbn [map reader_rows]. rewrite (feed_cells_line row Hr).
  cbn [at_start_record rstate fields]. now rewrite (IH Hrs).
Qed.

(** Reading a file gives the fields without their quotes. *)
Lemma csv_reader_cells (rows : list (list cell)) :
  forallb well_formed_row rows = true ->
  csv_reader (cells_text rows) = Return (contents rows).
Proof.
  intros H. unfold csv_reader.
  rewrite universal_newlines_id by now apply cells_text_no_CR.
  rewrite readlines_cells_text by assumption.
  now apply reader_rows_cells.
Qed.

(** * The claims *)

(** ** C1 *)

(** C1. For every input CSV whose rows are [rows], the payload that
    [update_map_data] sends in its PUT request is [transcoded rows]: each
    row's fields joined by a comma and a space, each row followed by a line
    feed, the rows in their order, none dropped and none merged.  When there
    is a row this is the rows joined by line feeds, with a line feed at the
    end; the rows CARLOW,5 and CAVAN,5 give the payload of the example. *)
Theorem C1_pushData_payload (s : state) (raw : string) (rows : list (list string))
    (i : string) :
  map_id (self s) = JStr i ->
  csv_file (env s) = Some raw ->
  csv_reader raw = Return rows ->
  trace (env (update_map_data s).2) =
    trace (env s) ++
    [Sent (Request PUT (data_url i) (Text (transcoded rows))
             (data_headers (api_auth_code (self s))))] /\
  (forall row rest, rows = row :: rest ->
     transcoded rows = String.concat nl (map (String.concat ", ") rows) +:+ nl) /\
  transcoded example_rows = "CARLOW, 5" +:+ nl +:+ "CAVAN, 5" +:+ nl.
Proof.
  intros Hi Hf Hr. split; [|split].
  - rewrite <- county_results_transcoded. now apply (update_map_data_trace s raw).
  - intros row rest ->. apply transcoded_joined.
  - reflexivity.
Qed.

Lemma C1_pushData_payload_witness :
  csv_reader example_csv = Return example_rows /\
  trace (env (update_map_data (example_state api_ok)).2) =
    [Sent (Request PUT "https://api.datawrapper.de/v3/charts/abcde/data"
             (Text ("CARLOW, 5" +:+ nl +:+ "CAVAN, 5" +:+ nl))
             (data_headers "secret"))].
Proof.
  split; [reflexivity|].
  exact (proj1 (C1_pushData_payload (example_state api_ok) example_csv
                  example_rows "abcde" eq_refl eq_refl eq_refl)).
Defined.

(** ** C2 *)

(** C2, as the code has it.  [run_map_update] pushes the data, stamps the
    time and publishes, in that order, and does nothing else to the world:
    no create request, no identifier written, no configure and no tooltip
    request.  The embed artifact is written by [publish_map] itself: a run of
    the update workflow returns exactly when the CSV file can be read and the
    body of the answer to its publish request carries the responsive embed
    code, and the HTML file then holds that code, the one of this answer. *)
Theorem C2_update_rewrites_artifact (s : state) :
  (exists t,
     trace (env (run_map_update s).2) = trace (env s) ++ t /\
     steps_of t `prefix_of` update_steps /\
     (forall k, k ∈ [Create; PersistIdentifier; Configure; SetTooltip] ->
                k ∉ steps_of t)) /\
  (returned (run_map_update s).1 = true ->
   exists i rows embed_codes snippet,
     map_id (self s) = JStr i /\
     read_csv (env s) = Return rows /\
     publish_section (update_publish_response i rows s) = Return embed_codes /\
     responsive_code embed_codes = Return (JStr snippet) /\
     html_file (env (run_map_update s).2) = Some snippet /\
     trace (env (run_map_update s).2) =
       trace (env s)
       ++ [Sent (data_request i (api_auth_code (self s)) rows);
           Sent (timestamp_request i (api_auth_code (self s)) (clock (env s)));
           Sent (publish_request i (api_auth_code (self s)));
           HtmlOpened; HtmlWritten snippet]) /\
  (forall i rows embed_codes snippet,
     map_id (self s) = JStr i ->
     read_csv (env s) = Return rows ->
     publish_section (update_publish_response i rows s) = Return embed_codes ->
     responsive_code embed_codes = Return (JStr snippet) ->
     returned (run_map_update s).1 = true /\
     html_file (env (run_map_update s).2) = Some snippet).
Proof.
  split; [|split].
  - destruct (emits_run_map_update s) as (t & Ht & Hs).
    assert (steps_of t `prefix_of` update_steps) as Hp.
    { destruct (returned _); [now rewrite Hs | assumption]. }
    exists t. split; [assumption|]. split; [assumption|].
    intros k Hk. apply (prefix_of_steps_not_in _ _ _ Hp).
    intros Hin. unfold update_steps in Hin.
    repeat match goal with
           | H : _ ∈ _ :: _ |- _ =>
               apply elem_of_cons in H as [E|H]; [try discriminate E; subst|]
           | H : _ ∈ [] |- _ => now apply elem_of_nil in H
           end.
  - intros H.
    destruct (run_map_update_returned s H) as (i & rows & ec & snippet & Hi & Hr & Hs & Hc).
    destruct (run_map_update_complete s i rows ec snippet Hi Hr Hs Hc)
      as (_ & Ht & Hh & _).
    now exists i, rows, ec, snippet.
  - intros i rows ec snippet Hi Hr Hs Hc.
    destruct (run_map_update_complete s i rows ec snippet Hi Hr Hs Hc)
      as (Hret & _ & Hh & _).
    split; [now rewrite Hret | assumption].
Qed.

Lemma C2_update_rewrites_artifact_witness :
  publish_section (update_publish_response "abcde" example_rows (example_state api_ok))
    = Return example_embed_codes /\
  responsive_code example_embed_codes = Return (JStr "<iframe/>") /\
  returned (run_map_update (example_state api_ok)).1 = true /\
  html_file (env (run_map_update (example_state api_ok)).2) = Some "<iframe/>".
Proof.
  split; [reflexivity|]. split; [reflexivity|].
  exact (proj2 (proj2 (C2_update_rewrites_artifact (example_state api_ok)))
           "abcde" example_rows example_embed_codes "<iframe/>"
           eq_refl eq_refl eq_refl eq_refl).
Defined.

(** C2 as the specification states it fails: on the update path the HTML
    file is rewritten.  The file held the old snippet before the run and
    holds the snippet of the publish response after it. *)
Lemma C2_counterexample :
  html_file (env (example_state api_ok)) = Some "<old/>" /\
  html_file (env (run_map_update (example_state api_ok)).2) = Some "<iframe/>" /\
  html_file (env (run_map_update (example_state api_ok)).2)
    <> html_file (env (example_state api_ok)).
Proof. repeat split; [reflexivity.. | discriminate]. Qed.

(** ** C3 and C4: a failed call whose body is read all the same *)

(** C3, at a failing publish.  The service answers the publish request with
    status 500 and an error body.  The failure is logged, then the embed
    codes are looked up in that body: [KeyError] leaves [publish_map],
    [run_map_update] and [main], the artifact is not written, and the exit
    status is 1.  The same happens on the create workflow. *)
Theorem C3_failed_publish_escapes :
  (main_body "update" example_environ (example_world api_publish_fails)).1
    = Raise (KeyError "data") /\
  (main "update" example_environ (example_world api_publish_fails)).1 = 1 /\
  steps_of (trace (main "update" example_environ (example_world api_publish_fails)).2)
    = [PushData; StampTimestamp; Publish] /\
  log (main "update" example_environ (example_world api_publish_fails)).2
    = [(INFO, "Initiating map data update process");
       (DEBUG, "Map data updated successfully from csv for map_id: %s");
       (DEBUG, "Set last update timestamp for map_id: %s");
       (ERROR, "Map publishing fail for map_id: %s: error was: %s");
       (DEBUG, "Map published successfully for map_id: %s")] /\
  html_file (main "update" example_environ (example_world api_publish_fails)).2
    = Some "<old/>" /\
  (main_body "create" example_environ (example_world api_publish_fails)).1
    = Raise (KeyError "data") /\
  (main "create" example_environ (example_world api_publish_fails)).1 = 1.
Proof. repeat split; vm_compute; reflexivity. Qed.

(** C4, at a failing create.  The service answers the create request with
    status 401 and an error body without an identifier.  The failure is
    logged, then the identifier is looked up in that body: [KeyError] leaves
    [create_choropleth] and [run_map_creation]; the create request is the
    only step of the run, no later step is attempted. *)
Theorem C4_failed_create_stops_the_run :
  (run_map_creation (example_state api_create_fails)).1 = Raise (KeyError "id") /\
  steps_of (trace (env (run_map_creation (example_state api_create_fails)).2))
    = [Create] /\
  log (env (run_map_creation (example_state api_create_fails)).2)
    = [(ERROR, "Map Create Failed: error was: %s");
       (DEBUG, "Created new choropleth with map_id: %s")] /\
  (main "create" example_environ (example_world api_create_fails)).1 = 1.
Proof. repeat split; vm_compute; reflexivity. Qed.

(** ** C5 *)

(** C5, at an identifier with a percent sign.  The service answers the
    create request with status 201 and the identifier 50%.  The object takes
    the identifier, then [config.set] refuses its lone percent sign:
    [ValueError] leaves [create_choropleth] and [main], nothing is written,
    and config.ini still names the old map, not the one of the response.
    With the identifier a%%b the call returns and config.ini holds a%%b, but
    the next process reads it as a%b and sends its data request to the map
    a%b.  With white space at an end of the identifier, the next process
    reads it without the white space. *)
Theorem C5_identifier_with_percent_sign_is_not_reused :
  (is_success (create_response (example_state (api_create_with_id "50%"))) = true /\
   body_id (create_response (example_state (api_create_with_id "50%")))
   = Return (JStr "50%") /\
   (create_choropleth (example_state (api_create_with_id "50%"))).1 = Raise ValueError /\
   map_id (self (create_choropleth (example_state (api_create_with_id "50%"))).2)
   = JStr "50%" /\
   config_raw
     (config_ini (env (create_choropleth (example_state (api_create_with_id "50%"))).2))
     "DATA_WRAPPER" "map_id" = Some "abcde" /\
   steps_of (trace (env (create_choropleth (example_state (api_create_with_id "50%"))).2))
   = [Create] /\
   (main_body "create" example_environ (example_world (api_create_with_id "50%"))).1
   = Raise ValueError /\
   (main "create" example_environ (example_world (api_create_with_id "50%"))).1 = 1) /\
  (is_success (create_response (example_state (api_create_with_id "a%%b"))) = true /\
   body_id (create_response (example_state (api_create_with_id "a%%b")))
   = Return (JStr "a%%b") /\
   (create_choropleth (example_state (api_create_with_id "a%%b"))).1 = Return tt /\
   config_raw
     (config_ini (env (create_choropleth (example_state (api_create_with_id "a%%b"))).2))
     "DATA_WRAPPER" "map_id" = Some "a%%b" /\
   later_map_id
     (config_ini (env (create_choropleth (example_state (api_create_with_id "a%%b"))).2))
     example_environ
   = Some (JStr "a%b") /\
   later_first_url
     (create_choropleth (example_state (api_create_with_id "a%%b"))).2 example_environ
   = Some "https://api.datawrapper.de/v3/charts/a%b/data") /\
  (body_id (create_response (example_state (api_create_with_id " ab ")))
   = Return (JStr " ab ") /\
   (create_choropleth (example_state (api_create_with_id " ab "))).1 = Return tt /\
   config_raw
     (config_ini (env (create_choropleth (example_state (api_create_with_id " ab "))).2))
     "DATA_WRAPPER" "map_id" = Some " ab " /\
   later_map_id
     (config_ini (env (create_choropleth (example_state (api_create_with_id " ab "))).2))
     example_environ
   = Some (JStr "ab")).
Proof. repeat split; vm_compute; reflexivity. Qed.

(** ** C6 *)

(** C6. Whatever the service answers, [run_map_creation] first sends the
    create request, and what it does to the world is, in this order: the
    create request, the write of the identifier, the configure request, the
    tooltip request, the data request, the timestamp request, the publish
    request, and then the opening and the writing of the artifact.  A run
    that returns has done all of them; a run that raises has done the first
    few of them.  No answer stops the run by its status: when the body of
    the answer to the create request carries an identifier the configuration
    takes and the CSV file can be read, the six requests are sent and the
    identifier is written, in that order, whatever the statuses of the
    answers; the artifact is written after them. *)
Theorem C6_creation_step_order (s : state) :
  (exists t,
     trace (env (run_map_creation s).2)
     = trace (env s) ++ Sent (create_request (api_auth_code (self s))) :: t /\
     (if returned (run_map_creation s).1
      then steps_of (Sent (create_request (api_auth_code (self s))) :: t) =
           [Create; PersistIdentifier; Configure; SetTooltip; PushData;
            StampTimestamp; Publish; OpenArtifact; WriteArtifact]
      else steps_of (Sent (create_request (api_auth_code (self s))) :: t) `prefix_of`
           [Create; PersistIdentifier; Configure; SetTooltip; PushData;
            StampTimestamp; Publish; OpenArtifact; WriteArtifact])) /\
  (forall (sec : gmap string string) (i : string) (rows : list (list string)),
     config (self s) !! "DATA_WRAPPER" = Some sec ->
     body_id (create_response s) = Return (JStr i) ->
     accepted i = true ->
     read_csv (env s) = Return rows ->
     exists t,
       trace (env (run_map_creation s).2) =
         trace (env s)
         ++ [Sent (create_request (api_auth_code (self s)));
             ConfigWritten (with_identifier i (config (self s)));
             Sent (settings_request i (api_auth_code (self s)));
             Sent (tooltip_request i (api_auth_code (self s)));
             Sent (data_request i (api_auth_code (self s)) rows);
             Sent (timestamp_request i (api_auth_code (self s)) (clock (env s)));
             Sent (publish_request i (api_auth_code (self s)))] ++ t /\
       steps_of t `prefix_of` [OpenArtifact; WriteArtifact] /\
       (returned (run_map_creation s).1 = true ->
        steps_of t = [OpenArtifact; WriteArtifact])).
Proof.
  split.
  - destruct (run_map_creation_first s) as (t & Ht).
    destruct (emits_run_map_creation s) as (t0 & Ht0 & Hs).
    assert (t0 = Sent (create_request (api_auth_code (self s))) :: t) as ->
      by (apply (app_inv_head (trace (env s))); congruence).
    exists t. split; assumption.
  - intros sec i rows Hsec Hid Ha Hr.
    destruct (run_map_creation_to_publish s sec i rows Hsec Hid Ha Hr)
      as (s4 & -> & Hself & Hclock & Htr & _).
    assert (map_id (self s4) = JStr i) as Hi by now rewrite Hself.
    destruct (publish_map_trace s4 i Hi) as (t & Ht & Hp & Hret).
    exists t. split; [|now split].
    rewrite Ht, Htr, Hclock, Hself. cbn [api_auth_code].
    rewrite <- !List.app_assoc. reflexivity.
Qed.

Lemma C6_creation_step_order_witness :
  steps_of (trace (env (run_map_creation (example_state api_errors_with_bodies)).2))
  = [Create; PersistIdentifier; Configure; SetTooltip; PushData;
     StampTimestamp; Publish; OpenArtifact; WriteArtifact] /\
  map (fun r => status_code (api_errors_with_bodies [] r))
      (sent (env (run_map_creation (example_state api_errors_with_bodies)).2))
  = [500; 500; 500; 500; 500; 500].
Proof.
  destruct (proj2 (C6_creation_step_order (example_state api_errors_with_bodies))
              example_section "XyZ12" example_rows
              ltac:(vm_compute; reflexivity) eq_refl eq_refl eq_refl)
    as (t & Ht & _ & Hret).
  split; [|vm_compute; reflexivity].
  rewrite Ht. unfold steps_of in *. rewrite !map_app, (Hret eq_refl).
  reflexivity.
Defined.

(** ** C7 *)

(** C7. For every time the clock can show, [set_last_update_timestamp]
    sends one PATCH request to the map whose annotation note is
    "Last update:" followed by the time formatted as MM/DD/YYYY, HH:MM:SS
    and AM or PM: month, day, hour, minute and second on two digits and the
    year on four, each the decimal writing of the field of the time, padded
    with zeros. *)
Theorem C7_timestamp_note (s : state) (i : string) :
  map_id (self s) = JStr i ->
  valid_datetime (clock (env s)) = true ->
  trace (env (set_last_update_timestamp s).2) =
    trace (env s) ++
    [Sent (Request PATCH (chart_url i)
             (AnnotateNotes
                ("Last update:" +:+ strftime timestamp_format (clock (env s))))
             (json_headers (api_auth_code (self s))))] /\
  matches timestamp_pattern (strftime timestamp_format (clock (env s))) = true /\
  strftime timestamp_format (clock (env s)) =
    pad2 (month (clock (env s))) +:+ "/" +:+ pad2 (day (clock (env s))) +:+ "/" +:+
    pad4 (year (clock (env s))) +:+ ", " +:+
    pad2 (hour (clock (env s))) +:+ ":" +:+ pad2 (minute (clock (env s))) +:+ ":" +:+
    pad2 (second (clock (env s))) +:+ " " +:+
    (if (hour (clock (env s)) <? 12)%nat then "AM" else "PM") /\
  decimal (pad2 (month (clock (env s)))) = month (clock (env s)) /\
  decimal (pad2 (day (clock (env s)))) = day (clock (env s)) /\
  decimal (pad4 (year (clock (env s)))) = year (clock (env s)) /\
  decimal (pad2 (hour (clock (env s)))) = hour (clock (env s)) /\
  decimal (pad2 (minute (clock (env s)))) = minute (clock (env s)) /\
  decimal (pad2 (second (clock (env s)))) = second (clock (env s)).
Proof.
  intros Hi Hv. unfold valid_datetime in Hv.
  repeat (apply andb_prop in Hv as [Hv ?]).
  repeat match goal with
         | H : (_ <=? _)%nat = true |- _ => apply Nat.leb_le in H
         | H : (_ <=? _)%N = true |- _ => apply N.leb_le in H
         end.
  split; [exact (set_last_update_timestamp_trace s i Hi)|].
  split; [exact (strftime_matches _)|].
  split; [exact (strftime_timestamp _)|].
  split; [apply decimal_pad2; lia|].
  split; [apply decimal_pad2; lia|].
  split; [apply decimal_pad4; assumption|].
  split; [apply decimal_pad2; lia|].
  split; apply decimal_pad2; lia.
Qed.

Lemma C7_timestamp_note_witness :
  trace (env (set_last_update_timestamp (example_state api_ok)).2) =
  [Sent (Request PATCH "https://api.datawrapper.de/v3/charts/abcde"
           (AnnotateNotes "Last update:03/21/2020, 18:39:33 PM")
           (json_headers "secret"))].
Proof.
  exact (proj1 (C7_timestamp_note (example_state api_ok) "abcde" eq_refl eq_refl)).
Defined.

(** ** C8 *)

(** C8. With a mode argument other than create and update, [main] leaves
    the world as it found it: no request is sent, no file is written and
    nothing is logged.  When the start of [main] goes through (the
    configuration holds the two logging settings, the log file can be opened,
    the level is the name of a level, and the configuration and the
    environment hold what [__init__] reads) the exit status is 0. *)
Theorem C8_unrecognised_mode_does_nothing
    (run_type : string) (environ : gmap string string) (w : world) :
  run_type <> "create" ->
  run_type <> "update" ->
  (main run_type environ w).2 = w /\
  sent (main run_type environ w).2 = sent w /\
  forall dir lvl mapper,
    config_getitem (config_ini w) "LOGGING" "LOG_DIR" = Return dir ->
    config_getitem (config_ini w) "LOGGING" "LOG_LEVEL" = Return lvl ->
    logging_basicConfig dir lvl w = Return tt ->
    init (config_ini w) environ = Return mapper ->
    main run_type environ w = (0, w).
Proof.
  intros Hc Hu.
  apply String.eqb_neq in Hc. apply String.eqb_neq in Hu.
  assert ((main run_type environ w).2 = w) as Hw.
  { unfold main, main_body. rewrite Hc, Hu.
    destruct (config_getitem _ "LOGGING" "LOG_DIR") as [dir|]; [|reflexivity].
    destruct (config_getitem _ "LOGGING" "LOG_LEVEL") as [lvl|]; [|reflexivity].
    destruct (logging_basicConfig dir lvl w); [|reflexivity].
    destruct (init _ _); reflexivity. }
  split; [assumption|]. split; [now rewrite Hw|].
  intros dir lvl mapper Hd Hl Hb Hi.
  unfold main, main_body. now rewrite Hc, Hu, Hd, Hl, Hb, Hi.
Qed.

Lemma C8_unrecognised_mode_does_nothing_witness :
  main "delete" example_environ (example_world api_ok)
  = (0, example_world api_ok).
Proof.
  exact (proj2 (proj2
    (C8_unrecognised_mode_does_nothing "delete" example_environ
       (example_world api_ok)
       ltac:(discriminate) ltac:(discriminate)))
    "logs" "DEBUG" example_mapper
    ltac:(vm_compute; reflexivity) ltac:(vm_compute; reflexivity)
    ltac:(vm_compute; reflexivity) ltac:(vm_compute; reflexivity)).
Defined.

(** ** C9 *)

(** C9. [update_map_data] transcodes the fields the CSV reader returns, not
    the text of the lines.  For every file of one-line fields, each written
    between double quotes (commas and doubled quotes inside) or bare, quoted
    and bare fields mixed at will, the reader returns the fields without
    their quotes, and the payload is these fields joined by a comma and a
    space, each row followed by a line feed.  So the quoting is lost and the
    transform is not injective: two files whose rows hold the same fields,
    quoted in one and not in the other, give the same payload; the quoted
    field a,b next to the field 1 is sent as the line a,b, 1 which reads
    back as three fields. *)
Theorem C9_quoted_fields_lose_their_quotes
    (s : state) (rows : list (list cell)) (i : string) :
  map_id (self s) = JStr i ->
  csv_file (env s) = Some (cells_text rows) ->
  forallb well_formed_row rows = true ->
  csv_reader (cells_text rows) = Return (contents rows) /\
  payload_of (cells_text rows) = Return (transcoded (contents rows)) /\
  trace (env (update_map_data s).2) =
    trace (env s) ++
    [Sent (Request PUT (data_url i) (Text (transcoded (contents rows)))
             (data_headers (api_auth_code (self s))))] /\
  (forall rows2 : list (list cell),
     forallb well_formed_row rows2 = true ->
     contents rows2 = contents rows ->
     payload_of (cells_text rows2) = payload_of (cells_text rows)) /\
  (cells_text [[Quoted "CARLOW"; Bare "5"]] <> cells_text [[Bare "CARLOW"; Bare "5"]] /\
   payload_of (cells_text [[Quoted "CARLOW"; Bare "5"]])
   = payload_of (cells_text [[Bare "CARLOW"; Bare "5"]])) /\
  (payload_of (cells_text [[Quoted "a,b"; Bare "1"]]) = Return ("a,b, 1" +:+ nl) /\
   csv_reader ("a,b, 1" +:+ nl) = Return [["a"; "b"; " 1"]]).
Proof.
  intros Hi Hf Hp.
  pose proof (csv_reader_cells rows Hp) as Hr.
  assert (forall rs, forallb well_formed_row rs = true ->
            payload_of (cells_text rs) = Return (transcoded (contents rs))) as Hpay.
  { intros rs Hrs. unfold payload_of.
    now rewrite (csv_reader_cells rs Hrs), county_results_transcoded. }
  split; [assumption|]. split; [now apply Hpay|]. split.
  - rewrite <- county_results_transcoded.
    exact (update_map_data_trace s _ _ i Hi Hf Hr).
  - split.
    + intros rows2 Hp2 Hc. now rewrite (Hpay _ Hp2), (Hpay _ Hp), Hc.
    + split; [split; [discriminate | vm_compute; reflexivity]|].
      split; vm_compute; reflexivity.
Qed.

Lemma C9_quoted_fields_lose_their_quotes_witness :
  csv_file (env example_cells_state)
    = Some (dq +:+ "Cork, City" +:+ dq +:+ ",7" +:+ nl
            +:+ "CAVAN," +:+ dq +:+ "5" +:+ dq +:+ nl) /\
  trace (env (update_map_data example_cells_state).2) =
    [Sent (Request PUT "https://api.datawrapper.de/v3/charts/abcde/data"
             (Text ("Cork, City, 7" +:+ nl +:+ "CAVAN, 5" +:+ nl))
             (data_headers "secret"))].
Proof.
  split; [reflexivity|].
  exact (proj1 (proj2 (proj2
    (C9_quoted_fields_lose_their_quotes example_cells_state
       example_cells "abcde" eq_refl eq_refl
       ltac:(vm_compute; reflexivity))))).
Defined.

(** ** C10 *)

(** C10. Configure, tooltip, data push, timestamp and publish, and so the
    whole update workflow and the create workflow after its create step,
    leave the object as it is (its [map_id] and its configuration) and leave
    config.ini as it is, and every request they send goes to the map the
    object names.  The create step is the one that changes the identifier:
    in the sample installation the object and config.ini name the map abcde
    before it and the map XyZ12 after it. *)
Theorem C10_only_create_changes_identifier (s : state) :
  same_identifier s (configure_map_settings s).2 /\
  same_identifier s (add_map_tooltip s).2 /\
  same_identifier s (update_map_data s).2 /\
  same_identifier s (set_last_update_timestamp s).2 /\
  same_identifier s (publish_map s).2 /\
  same_identifier s (run_map_update s).2 /\
  same_identifier (create_choropleth s).2 (run_map_creation s).2 /\
  (map_id (self (example_state api_ok)) = JStr "abcde" /\
   map_id (self (create_choropleth (example_state api_ok)).2) = JStr "XyZ12" /\
   config_getitem (config_ini (env (example_state api_ok)))
     "DATA_WRAPPER" "MAP_ID" = Return "abcde" /\
   config_getitem (config_ini (env (create_choropleth (example_state api_ok)).2))
     "DATA_WRAPPER" "MAP_ID" = Return "XyZ12").
Proof.
  split; [apply same_identifier_configure_map_settings|].
  split; [apply same_identifier_add_map_tooltip|].
  split; [apply same_identifier_update_map_data|].
  split; [apply same_identifier_set_last_update_timestamp|].
  split; [apply same_identifier_publish_map|].
  split; [apply same_identifier_run_map_update|].
  split; [apply same_identifier_after_create|].
  repeat split; vm_compute; reflexivity.
Qed.

(** * Further properties *)

(** X1. A failure of the settings, tooltip, timestamp or data request is
    logged and not raised.  Each of the four methods returns; it leaves its
    request in the trace and, in the log, an ERROR record exactly when the
    status of the answer is 4xx or 5xx, followed by its DEBUG record; nothing
    else changes. *)
Theorem X1_request_failures_are_logged_not_raised (s : state) (i : string) :
  map_id (self s) = JStr i ->
  configure_map_settings s =
    (Return tt,
     after_request (settings_request i (api_auth_code (self s)))
       (failure_log (api (env s) (sent (env s))
                       (settings_request i (api_auth_code (self s))))
          "Map configuration setting failed: error was: %s"
        ++ [(DEBUG, "Updated map settings for map_id: %s")]) s) /\
  add_map_tooltip s =
    (Return tt,
     after_request (tooltip_request i (api_auth_code (self s)))
       (failure_log (api (env s) (sent (env s))
                       (tooltip_request i (api_auth_code (self s))))
          "Tooltip add failed for map_id: %s: error was: %s"
        ++ [(DEBUG, "Added tooltip hover settings for map_id: %s")]) s) /\
  set_last_update_timestamp s =
    (Return tt,
     after_request (timestamp_request i (api_auth_code (self s)) (clock (env s)))
       (failure_log (api (env s) (sent (env s))
                       (timestamp_request i (api_auth_code (self s)) (clock (env s))))
          "Set timestamp fail for map_id: %s: error was: %s"
        ++ [(DEBUG, "Set last update timestamp for map_id: %s")]) s) /\
  forall rows,
    read_csv (env s) = Return rows ->
    update_map_data s =
      (Return tt,
       after_request (data_request i (api_auth_code (self s)) rows)
         (failure_log (api (env s) (sent (env s))
                         (data_request i (api_auth_code (self s)) rows))
            "Update of map data failed: error was: %s"
          ++ [(DEBUG, "Map data updated successfully from csv for map_id: %s")]) s).
Proof.
  intros Hi.
  split; [exact (configure_map_settings_exact s i Hi)|].
  split; [exact (add_map_tooltip_exact s i Hi)|].
  split; [exact (set_last_update_timestamp_exact s i Hi)|].
  intros rows Hr. unfold read_csv in Hr.
  destruct (csv_file (env s)) as [raw|] eqn:Hf; [|discriminate].
  exact (update_map_data_exact s i raw rows Hi Hf Hr).
Qed.

Lemma X1_request_failures_are_logged_not_raised_witness :
  (configure_map_settings (example_state api_unavailable)).1 = Return tt /\
  log (env (configure_map_settings (example_state api_unavailable)).2)
  = [(ERROR, "Map configuration setting failed: error was: %s");
     (DEBUG, "Updated map settings for map_id: %s")].
Proof.
  pose proof (proj1 (X1_request_failures_are_logged_not_raised
                       (example_state api_unavailable) "abcde" eq_refl)) as H.
  split; [exact (f_equal fst H) | exact (f_equal (fun p => log (env p.2)) H)].
Defined.

(** X2. When the CSV file is missing or cannot be parsed, [update_map_data]
    raises that error before it sends anything, and [run_map_update] stops
    there: the state is left as it was. *)
Theorem X2_unreadable_csv_sends_nothing (s : state) (i : string) (e : exn) :
  map_id (self s) = JStr i ->
  read_csv (env s) = Raise e ->
  update_map_data s = (Raise e, s) /\
  run_map_update s = (Raise e, s).
Proof.
  intros Hi He.
  pose proof (update_map_data_unreadable s i e Hi He) as Hu.
  split; [assumption|]. unfold run_map_update. now apply bind_raise.
Qed.

Lemma X2_unreadable_csv_sends_nothing_witness :
  run_map_update example_state_without_csv
  = (Raise FileNotFoundError, example_state_without_csv).
Proof.
  exact (proj2 (X2_unreadable_csv_sends_nothing example_state_without_csv "abcde"
                  FileNotFoundError eq_refl eq_refl)).
Defined.

(** X3. For a file of bare fields separated by commas, the format the
    docstring of [update_map_data] gives, the reader returns the rows of the
    file (an empty line is an empty row, an empty field is an empty string),
    and the payload sent is the text of the file with a space after every
    comma. *)
Theorem X3_bare_file_is_sent_with_spaced_commas
    (s : state) (i : string) (rows : list (list string)) :
  map_id (self s) = JStr i ->
  csv_file (env s) = Some (bare_text rows) ->
  forallb bare_row rows = true ->
  csv_reader (bare_text rows) = Return rows /\
  trace (env (update_map_data s).2) =
    trace (env s)
    ++ [Sent (Request PUT (data_url i) (Text (comma_spaced (bare_text rows)))
                (data_headers (api_auth_code (self s))))].
Proof.
  intros Hi Hf Hb. pose proof (csv_reader_bare rows Hb) as Hr.
  split; [assumption|].
  rewrite (comma_spaced_bare_text rows Hb), <- county_results_transcoded.
  exact (update_map_data_trace s _ rows i Hi Hf Hr).
Qed.

Lemma X3_bare_file_is_sent_with_spaced_commas_witness :
  trace (env (update_map_data (example_state api_ok)).2) =
  [Sent (Request PUT "https://api.datawrapper.de/v3/charts/abcde/data"
           (Text (comma_spaced example_csv)) (data_headers "secret"))].
Proof.
  exact (proj2 (X3_bare_file_is_sent_with_spaced_commas (example_state api_ok)
                  "abcde" example_rows eq_refl eq_refl
                  ltac:(vm_compute; reflexivity))).
Defined.

(** X4. The file is read the same whether its lines end with a line feed,
    with a carriage return and a line feed, or with a carriage return. *)
Theorem X4_line_endings_do_not_matter (text : string) :
  string_forallb (is_not CR) text = true ->
  csv_reader (with_crlf text) = csv_reader text /\
  csv_reader (with_cr text) = csv_reader text.
Proof.
  intros H. unfold csv_reader.
  now rewrite universal_newlines_with_crlf, universal_newlines_with_cr,
    universal_newlines_id.
Qed.

Lemma X4_line_endings_do_not_matter_witness :
  csv_reader (with_crlf example_csv) = Return example_rows.
Proof.
  exact (eq_trans
           (proj1 (X4_line_endings_do_not_matter example_csv
                     ltac:(vm_compute; reflexivity)))
           ltac:(vm_compute; reflexivity)).
Defined.

(** X5. A quote that is never closed is no error: everything after it,
    commas and line feeds included, is read as one field of one row, and is
    sent as one line. *)
Theorem X5_unclosed_quote_swallows_the_rest (body : string) :
  string_forallb (is_not DQUOTE) body = true ->
  string_forallb (is_not CR) body = true ->
  (N.of_nat (String.length body) <= field_limit)%N ->
  csv_reader (dq +:+ body) = Return [[body]] /\
  county_results_of [[body]] = body +:+ nl.
Proof.
  intros Hq Hcr Hl. split; [|reflexivity].
  unfold csv_reader, dq. rewrite string_app_cons, string_app_nil_l.
  rewrite universal_newlines_id by (simpl; now rewrite Hcr).
  unfold readlines. cbn [readlines_from].
  change (Ascii.eqb DQUOTE LF) with false. cbv iota.
  change (EmptyString +:+ String DQUOTE EmptyString) with (String DQUOTE EmptyString).
  rewrite readlines_from_cons.
  pose proof (concat_readlines_from body EmptyString) as Hc.
  rewrite string_app_nil_l in Hc.
  destruct (readlines_from EmptyString body) as [|line lines].
  - cbn in Hc. subst body. reflexivity.
  - cbn [reader_rows feed_line].
    change (parse_process_char parse_reset (Some DQUOTE))
      with (Some (Reader IN_QUOTED_FIELD [] EmptyString)).
    cbv iota beta.
    rewrite concat_empty_cons in Hc.
    pose proof (reader_rows_in_quotes (line :: lines) [] EmptyString) as H.
    rewrite concat_empty_cons, Hc, string_app_nil_l in H.
    specialize (H Hq Hl). cbn [reader_rows] in H. exact H.
Qed.

Lemma X5_unclosed_quote_swallows_the_rest_witness :
  csv_reader (dq +:+ example_csv) = Return [[example_csv]].
Proof.
  exact (proj1 (X5_unclosed_quote_swallows_the_rest example_csv
                  ltac:(vm_compute; reflexivity) ltac:(vm_compute; reflexivity)
                  ltac:(vm_compute; discriminate))).
Defined.

(** X6. A bare field longer than the field limit of the reader, at the start
    of the file, makes the reader raise: [update_map_data] raises [CsvError]
    and sends nothing. *)
Theorem X6_field_over_the_limit_stops_the_push
    (s : state) (i : string) (f rest : string) :
  map_id (self s) = JStr i ->
  csv_file (env s) = Some (f +:+ rest) ->
  string_forallb bare_char f = true ->
  (field_limit < N.of_nat (String.length f))%N ->
  csv_reader (f +:+ rest) = Raise CsvError /\
  update_map_data s = (Raise CsvError, s).
Proof.
  intros Hi Hf Hp Hlt. pose proof (csv_reader_overflow f rest Hp Hlt) as Hr.
  split; [assumption|].
  apply (update_map_data_unreadable s i CsvError Hi). now rewrite Hf.
Qed.

Lemma X6_field_over_the_limit_stops_the_push_witness :
  update_map_data example_state_long_field
  = (Raise CsvError, example_state_long_field).
Proof.
  exact (proj2 (X6_field_over_the_limit_stops_the_push example_state_long_field
                  "abcde" example_long_field ("," +:+ "5" +:+ nl)
                  eq_refl eq_refl
                  ltac:(vm_compute; reflexivity) ltac:(vm_compute; reflexivity))).
Defined.

(** X7. When the body of the publish response has no publish section (it is not
    JSON, or a key of the path is missing), [publish_map] raises that error
    after its two requests and leaves the HTML file as it was. *)
Theorem X7_publish_without_section_keeps_artifact (s : state) (i : string) (e : exn) :
  map_id (self s) = JStr i ->
  publish_section (publish_response i s) = Raise e ->
  (publish_map s).1 = Raise e /\
  html_file (env (publish_map s).2) = html_file (env s) /\
  trace (env (publish_map s).2) =
    trace (env s)
    ++ [Sent (timestamp_request i (api_auth_code (self s)) (clock (env s)));
        Sent (publish_request i (api_auth_code (self s)))].
Proof.
  intros Hi He. rewrite (publish_map_exact s i Hi), He.
  repeat split. cbn. now rewrite <- List.app_assoc.
Qed.

Lemma X7_publish_without_section_keeps_artifact_witness :
  (publish_map (example_state api_publish_fails)).1 = Raise (KeyError "data") /\
  html_file (env (publish_map (example_state api_publish_fails)).2) = Some "<old/>".
Proof.
  pose proof (X7_publish_without_section_keeps_artifact
                (example_state api_publish_fails) "abcde" (KeyError "data")
                eq_refl eq_refl) as (H1 & H2 & _).
  split; [exact H1 | exact H2].
Defined.

(** X8. When the publish section is there but the responsive embed code is
    missing or is not a string, [publish_map] raises after it has opened the
    HTML file for writing: the file is left empty. *)
Theorem X8_publish_without_code_empties_artifact
    (s : state) (i : string) (embed_codes : json) :
  map_id (self s) = JStr i ->
  publish_section (publish_response i s) = Return embed_codes ->
  (forall snippet, responsive_code embed_codes <> Return (JStr snippet)) ->
  returned (publish_map s).1 = false /\
  html_file (env (publish_map s).2) = Some EmptyString /\
  trace (env (publish_map s).2) =
    trace (env s)
    ++ [Sent (timestamp_request i (api_auth_code (self s)) (clock (env s)));
        Sent (publish_request i (api_auth_code (self s)));
        HtmlOpened].
Proof.
  intros Hi Hs Hn. rewrite (publish_map_exact s i Hi), Hs.
  destruct (responsive_code embed_codes) as [v|e].
  - destruct v; try (repeat split; cbn; now rewrite <- !List.app_assoc).
    now destruct (Hn s0).
  - repeat split. cbn. now rewrite <- !List.app_assoc.
Qed.

Lemma X8_publish_without_code_empties_artifact_witness :
  returned (publish_map (example_state api_publish_no_code)).1 = false /\
  html_file (env (publish_map (example_state api_publish_no_code)).2)
  = Some EmptyString.
Proof.
  pose proof (X8_publish_without_code_empties_artifact
                (example_state api_publish_no_code) "abcde" (JObj [])
                eq_refl eq_refl ltac:(intros snippet; vm_compute; discriminate))
    as (H1 & H2 & _).
  split; [exact H1 | exact H2].
Defined.

(** X9. When the body of the publish response carries the responsive embed
    code, [publish_map] returns and the HTML file holds that snippet,
    whatever the statuses of the answers: a 4xx or 5xx status only adds an
    ERROR record to the log. *)
Theorem X9_publish_writes_the_snippet_whatever_the_status
    (s : state) (i : string) (embed_codes : json) (snippet : string) :
  map_id (self s) = JStr i ->
  publish_section (publish_response i s) = Return embed_codes ->
  responsive_code embed_codes = Return (JStr snippet) ->
  (publish_map s).1 = Return tt /\
  html_file (env (publish_map s).2) = Some snippet /\
  log (env (publish_map s).2) =
    log (env s)
    ++ failure_log (api (env s) (sent (env s))
                      (timestamp_request i (api_auth_code (self s)) (clock (env s))))
         "Set timestamp fail for map_id: %s: error was: %s"
    ++ [(DEBUG, "Set last update timestamp for map_id: %s")]
    ++ failure_log (publish_response i s)
         "Map publishing fail for map_id: %s: error was: %s"
    ++ [(DEBUG, "Map published successfully for map_id: %s");
        (DEBUG, "Writing html iframe to disk for map_id: %s")].
Proof.
  intros Hi Hs Hc. rewrite (publish_map_exact s i Hi), Hs, Hc.
  repeat split. cbn. now rewrite <- !List.app_assoc.
Qed.

Lemma X9_publish_writes_the_snippet_whatever_the_status_witness :
  status_code (publish_response "abcde" (example_state api_publish_error_with_snippet))
  = 500 /\
  (publish_map (example_state api_publish_error_with_snippet)).1 = Return tt /\
  html_file (env (publish_map (example_state api_publish_error_with_snippet)).2)
  = Some "<iframe/>".
Proof.
  pose proof (X9_publish_writes_the_snippet_whatever_the_status
                (example_state api_publish_error_with_snippet) "abcde"
                example_embed_codes "<iframe/>" eq_refl eq_refl eq_refl)
    as (H1 & H2 & _).
  split; [reflexivity|]. split; [exact H1 | exact H2].
Defined.

(** X10. When the body of the create response gives no identifier,
    [create_choropleth] raises that error after its one request; the object,
    its [map_id] and config.ini are left as they were. *)
Theorem X10_create_without_id_keeps_identifier (s : state) (e : exn) :
  body_id (create_response s) = Raise e ->
  (create_choropleth s).1 = Raise e /\
  self (create_choropleth s).2 = self s /\
  config_ini (env (create_choropleth s).2) = config_ini (env s) /\
  trace (env (create_choropleth s).2) =
    trace (env s) ++ [Sent (create_request (api_auth_code (self s)))].
Proof.
  intros He. rewrite create_choropleth_exact, He. repeat split.
Qed.

Lemma X10_create_without_id_keeps_identifier_witness :
  (create_choropleth (example_state api_create_fails)).1 = Raise (KeyError "id") /\
  self (create_choropleth (example_state api_create_fails)).2 = example_mapper.
Proof.
  pose proof (X10_create_without_id_keeps_identifier (example_state api_create_fails)
                (KeyError "id") eq_refl) as (H1 & H2 & _).
  split; [exact H1 | exact H2].
Defined.

(** X11. When the body of the create response carries a string identifier
    that [config.set] takes (it is empty, or its interpolation syntax is
    valid), [create_choropleth] returns, the object names that map, and the
    configuration of the object with that MAP_ID is written to config.ini,
    whatever the status: a 4xx or 5xx status only adds an ERROR record to the
    log. *)
Theorem X11_create_stores_the_id_whatever_the_status
    (s : state) (sec : gmap string string) (i : string) :
  config (self s) !! "DATA_WRAPPER" = Some sec ->
  body_id (create_response s) = Return (JStr i) ->
  accepted i = true ->
  (create_choropleth s).1 = Return tt /\
  map_id (self (create_choropleth s).2) = JStr i /\
  config (self (create_choropleth s).2) = with_identifier i (config (self s)) /\
  config_ini (env (create_choropleth s).2) = with_identifier i (config (self s)) /\
  log (env (create_choropleth s).2) =
    log (env s)
    ++ failure_log (create_response s) "Map Create Failed: error was: %s"
    ++ [(DEBUG, "Created new choropleth with map_id: %s");
        (DEBUG, "Writing new map_id to config file: %s")].
Proof.
  intros Hsec Hid Ha.
  rewrite create_choropleth_exact, Hid, (config_set_identifier _ _ i Hsec Ha).
  repeat split. cbn. now rewrite <- !List.app_assoc.
Qed.

Lemma X11_create_stores_the_id_whatever_the_status_witness :
  status_code (create_response (example_state api_create_error_with_id)) = 500 /\
  (create_choropleth (example_state api_create_error_with_id)).1 = Return tt /\
  map_id (self (create_choropleth (example_state api_create_error_with_id)).2)
  = JStr "XyZ12".
Proof.
  pose proof (X11_create_stores_the_id_whatever_the_status
                (example_state api_create_error_with_id) example_section "XyZ12"
                ltac:(vm_compute; reflexivity) eq_refl eq_refl) as (H1 & H2 & _).
  split; [reflexivity|]. split; [exact H1 | exact H2].
Defined.

(** X12. When the identifier in the body of the create response is not a
    string, [create_choropleth] raises [TypeError] in [config.set]: the
    object already names that value as its [map_id], while its configuration
    and config.ini are left as they were. *)
Theorem X12_create_with_a_non_string_id (s : state) (sec : gmap string string) (v : json) :
  config (self s) !! "DATA_WRAPPER" = Some sec ->
  body_id (create_response s) = Return v ->
  (forall i, v <> JStr i) ->
  (create_choropleth s).1 = Raise TypeError /\
  map_id (self (create_choropleth s).2) = v /\
  config (self (create_choropleth s).2) = config (self s) /\
  config_ini (env (create_choropleth s).2) = config_ini (env s).
Proof.
  intros Hsec Hid Hv. rewrite create_choropleth_exact, Hid.
  unfold config_set.
  destruct v; try (repeat split; fail). now destruct (Hv s0).
Qed.

Lemma X12_create_with_a_non_string_id_witness :
  (create_choropleth (example_state api_create_numeric_id)).1 = Raise TypeError /\
  map_id (self (create_choropleth (example_state api_create_numeric_id)).2) = JNum 7.
Proof.
  pose proof (X12_create_with_a_non_string_id
                (example_state api_create_numeric_id) example_section (JNum 7)
                ltac:(vm_compute; reflexivity) eq_refl ltac:(intros i; discriminate))
    as (H1 & H2 & _).
  split; [exact H1 | exact H2].
Defined.

(** X13. In every case [create_choropleth] sends exactly one request, the create
    request, and leaves the HTML file and the CSV file alone; config.ini is
    either left as it was or is the configuration of the object with the
    string identifier of the response body as its MAP_ID. *)
Theorem X13_create_sends_one_request_and_writes_only_an_identifier (s : state) :
  sent (env (create_choropleth s).2)
    = sent (env s) ++ [create_request (api_auth_code (self s))] /\
  html_file (env (create_choropleth s).2) = html_file (env s) /\
  csv_file (env (create_choropleth s).2) = csv_file (env s) /\
  (config_ini (env (create_choropleth s).2) = config_ini (env s) \/
   exists i,
     body_id (create_response s) = Return (JStr i) /\
     config_ini (env (create_choropleth s).2) = with_identifier i (config (self s))).
Proof.
  rewrite create_choropleth_exact.
  destruct (body_id (create_response s)) as [v|e] eqn:Hid.
  - destruct (config_set _ _ _ v) as [c|e] eqn:Hc.
    + apply config_set_inv in Hc as (i & -> & _ & ->).
      split; [apply sent_identifier_persisted|].
      repeat split. right. now exists i.
    + split; [apply sent_after_request|]. repeat split. now left.
  - split; [apply sent_after_request|]. repeat split. now left.
Qed.

(** X14. When the object names a map by a string that [config.set] takes and
    its configuration has the DATA_WRAPPER section, [set_map_id] returns and
    writes the configuration with that string stored as MAP_ID: every other
    stored value is that of the configuration of the object, and the object
    and the file agree.  An identifier without percent signs is what the
    object then reads as MAP_ID.  When the file is read again the stored value
    comes back without the white space at its ends, and an identifier without
    percent signs and white space is read as it was written. *)
Theorem X14_set_map_id_round_trip (s : state) (sec : gmap string string) (i : string) :
  config (self s) !! "DATA_WRAPPER" = Some sec ->
  map_id (self s) = JStr i ->
  accepted i = true ->
  (set_map_id s).1 = Return tt /\
  config_raw (config_ini (env (set_map_id s).2)) "DATA_WRAPPER" "map_id" = Some i /\
  (forall section name,
      (section, name) <> ("DATA_WRAPPER", "map_id") ->
      config_raw (config_ini (env (set_map_id s).2)) section name
      = config_raw (config (self s)) section name) /\
  config (self (set_map_id s).2) = config_ini (env (set_map_id s).2) /\
  trace (env (set_map_id s).2)
    = trace (env s) ++ [ConfigWritten (with_identifier i (config (self s)))] /\
  (has_percent i = false ->
   config_getitem (config (self (set_map_id s).2)) "DATA_WRAPPER" "MAP_ID"
   = Return i) /\
  (forall c2,
      reread (config_ini (env (set_map_id s).2)) = Some c2 ->
      config_raw c2 "DATA_WRAPPER" "map_id" = Some (strip i) /\
      (storable i = true ->
       config_getitem c2 "DATA_WRAPPER" "MAP_ID" = Return i)).
Proof.
  intros Hsec Hi Ha.
  rewrite set_map_id_exact, Hi, (config_set_identifier _ _ i Hsec Ha).
  cbn [fst snd].
  change (config_ini (env (record ?e (with_config_ini ?c ?s0)))) with c.
  change (config (self (record ?e (with_config_ini ?c0 (with_config ?c ?s0))))) with c.
  pose proof (config_raw_with_identifier _ _ i Hsec) as Hraw.
  split; [reflexivity|]. split; [assumption|].
  split; [intros section name Hne; now apply config_raw_with_identifier_other|].
  split; [reflexivity|]. split; [reflexivity|].
  split; [intros Hp; now apply config_getitem_raw|].
  intros c2 Hc2.
  assert (config_raw c2 "DATA_WRAPPER" "map_id" = Some (strip i)) as H2.
  { now rewrite (config_raw_reread _ _ _ _ Hc2), Hraw. }
  split; [assumption|]. intros Hst.
  apply config_getitem_raw; [|now apply storable_no_percent].
  now rewrite H2, (storable_strip i Hst).
Qed.

Lemma X14_set_map_id_round_trip_witness :
  config_raw (config_ini (env (set_map_id (example_state api_ok)).2))
    "DATA_WRAPPER" "map_id" = Some "abcde" /\
  config_getitem (config (self (set_map_id (example_state api_ok)).2))
    "DATA_WRAPPER" "MAP_ID" = Return "abcde".
Proof.
  pose proof (X14_set_map_id_round_trip (example_state api_ok)
                example_section "abcde"
                ltac:(vm_compute; reflexivity) eq_refl eq_refl)
    as (_ & H2 & _ & _ & _ & H6 & _).
  split; [exact H2 | exact (H6 eq_refl)].
Defined.

(** X15. When [set_map_id] raises, it has written nothing: config.ini, the
    object and the trace are as they were.  It raises [TypeError] when the
    identifier is not a string; [ValueError] when the identifier is a string
    that is not empty and whose interpolation syntax is not valid, a lone
    percent sign for one; and [NoSectionError] when the identifier is a
    string that [config.set] takes and the configuration has no DATA_WRAPPER
    section. *)
Theorem X15_set_map_id_writes_only_when_it_returns (s : state) (e : exn) :
  (set_map_id s).1 = Raise e ->
  config_ini (env (set_map_id s).2) = config_ini (env s) /\
  self (set_map_id s).2 = self s /\
  trace (env (set_map_id s).2) = trace (env s) /\
  (((forall i, map_id (self s) <> JStr i) /\ e = TypeError) \/
   (exists i, map_id (self s) = JStr i /\ accepted i = false /\ e = ValueError) \/
   (exists i, map_id (self s) = JStr i /\ accepted i = true /\
              config (self s) !! "DATA_WRAPPER" = None /\
              e = NoSectionError "DATA_WRAPPER")).
Proof.
  rewrite set_map_id_exact.
  destruct (config_set _ _ _ _) as [c|e'] eqn:Hc; cbn [fst snd]; [discriminate|].
  intros [= ->]. repeat split. exact (config_set_raises _ _ _ Hc).
Qed.

Lemma X15_set_map_id_writes_only_when_it_returns_witness :
  (set_map_id (with_map_id (JStr "50%") (example_state api_ok))).1 = Raise ValueError /\
  config_raw
    (config_ini (env (set_map_id (with_map_id (JStr "50%") (example_state api_ok))).2))
    "DATA_WRAPPER" "map_id" = Some "abcde" /\
  (set_map_id example_state_without_section).1 = Raise (NoSectionError "DATA_WRAPPER") /\
  trace (env (set_map_id example_state_without_section).2) = [].
Proof.
  split; [reflexivity|]. split.
  - rewrite (proj1 (X15_set_map_id_writes_only_when_it_returns
                      (with_map_id (JStr "50%") (example_state api_ok)) ValueError
                      eq_refl)).
    reflexivity.
  - split; [reflexivity|].
    exact (proj1 (proj2 (proj2 (X15_set_map_id_writes_only_when_it_returns
                                  example_state_without_section
                                  (NoSectionError "DATA_WRAPPER") eq_refl)))).
Defined.

(** X16. When the CSV file can be read and the body of the publish response
    carries the responsive embed code, [run_map_update] returns, whatever the
    statuses of the three answers.  It has sent the data request, the
    timestamp request and the publish request to the map of the object, in
    that order, and written the snippet to the HTML file; the object,
    config.ini and the CSV file are as they were. *)
Theorem X16_run_map_update_completes s i raw rows embed_codes snippet :
  map_id (self s) = JStr i ->
  csv_file (env s) = Some raw ->
  csv_reader raw = Return rows ->
  publish_section (update_publish_response i rows s) = Return embed_codes ->
  responsive_code embed_codes = Return (JStr snippet) ->
  (run_map_update s).1 = Return tt /\
  trace (env (run_map_update s).2) =
    trace (env s)
    ++ [Sent (data_request i (api_auth_code (self s)) rows);
        Sent (timestamp_request i (api_auth_code (self s)) (clock (env s)));
        Sent (publish_request i (api_auth_code (self s)));
        HtmlOpened; HtmlWritten snippet] /\
  html_file (env (run_map_update s).2) = Some snippet /\
  self (run_map_update s).2 = self s /\
  config_ini (env (run_map_update s).2) = config_ini (env s) /\
  csv_file (env (run_map_update s).2) = csv_file (env s).
Proof.
  intros Hi Hf Hr Hs Hc.
  apply (run_map_update_complete s i rows embed_codes snippet Hi); try assumption.
  unfold read_csv. now rewrite Hf.
Qed.

Lemma X16_run_map_update_completes_witness :
  (run_map_update (example_state api_ok)).1 = Return tt /\
  html_file (env (run_map_update (example_state api_ok)).2) = Some "<iframe/>".
Proof.
  pose proof (X16_run_map_update_completes (example_state api_ok) "abcde"
                example_csv example_rows example_embed_codes "<iframe/>"
                eq_refl eq_refl eq_refl eq_refl eq_refl) as (H1 & _ & H2 & _).
  split; [exact H1 | exact H2].
Defined.

(** X17. When the create response carries a string identifier that
    [config.set] takes, the CSV file can be read and the publish response
    carries the responsive embed code,
    [run_map_creation] returns, whatever the statuses of the six answers.
    The five requests after the create request go to the new map; the object
    and config.ini name the new map, and the HTML file holds the snippet. *)
Theorem X17_run_map_creation_completes s sec i raw rows embed_codes snippet :
  config (self s) !! "DATA_WRAPPER" = Some sec ->
  body_id (create_response s) = Return (JStr i) ->
  accepted i = true ->
  csv_file (env s) = Some raw ->
  csv_reader raw = Return rows ->
  publish_section (creation_publish_response i rows s) = Return embed_codes ->
  responsive_code embed_codes = Return (JStr snippet) ->
  (run_map_creation s).1 = Return tt /\
  trace (env (run_map_creation s).2) =
    trace (env s)
    ++ [Sent (create_request (api_auth_code (self s)));
        ConfigWritten (with_identifier i (config (self s)));
        Sent (settings_request i (api_auth_code (self s)));
        Sent (tooltip_request i (api_auth_code (self s)));
        Sent (data_request i (api_auth_code (self s)) rows);
        Sent (timestamp_request i (api_auth_code (self s)) (clock (env s)));
        Sent (publish_request i (api_auth_code (self s)));
        HtmlOpened; HtmlWritten snippet] /\
  html_file (env (run_map_creation s).2) = Some snippet /\
  map_id (self (run_map_creation s).2) = JStr i /\
  config (self (run_map_creation s).2) = with_identifier i (config (self s)) /\
  config_ini (env (run_map_creation s).2) = with_identifier i (config (self s)) /\
  csv_file (env (run_map_creation s).2) = csv_file (env s).
Proof.
  intros Hsec Hid Ha Hf Hr Hs Hc. unfold run_map_creation.
  pose proof (create_choropleth_exact s) as Hcreate.
  rewrite Hid, (config_set_identifier _ _ i Hsec Ha) in Hcreate.
  rewrite (bind_run _ _ s _ _ Hcreate). cbv beta.
  set (sc := identifier_persisted (JStr i) (with_identifier i (config (self s))) s).
  assert (map_id (self sc) = JStr i) as Hi by reflexivity.
  rewrite (bind_run _ _ sc _ _ (configure_map_settings_exact sc i Hi)). cbv beta.
  lazymatch goal with
  | |- context [bind add_map_tooltip ?k ?s1] =>
      rewrite (bind_run _ k s1 _ _ (add_map_tooltip_exact s1 i Hi)); cbv beta
  end.
  lazymatch goal with
  | |- context [bind update_map_data ?k ?s2] =>
      rewrite (bind_run _ k s2 _ _ (update_map_data_exact s2 i raw rows Hi Hf Hr));
      cbv beta
  end.
  lazymatch goal with
  | |- context [publish_map ?s3] => rewrite (publish_map_exact s3 i Hi)
  end.
  lazymatch goal with
  | |- context [publish_section ?r] =>
      replace r with (creation_publish_response i rows s)
  end.
  - rewrite Hs, Hc. cbn [fst snd]. repeat split.
    cbn. rewrite <- !List.app_assoc. reflexivity.
  - unfold publish_response, creation_publish_response.
    rewrite !sent_after_request. subst sc. rewrite sent_identifier_persisted.
    rewrite <- !List.app_assoc. reflexivity.
Qed.

Lemma X17_run_map_creation_completes_witness :
  (run_map_creation (example_state api_ok)).1 = Return tt /\
  map_id (self (run_map_creation (example_state api_ok)).2) = JStr "XyZ12".
Proof.
  pose proof (X17_run_map_creation_completes (example_state api_ok) example_section
                "XyZ12" example_csv example_rows example_embed_codes "<iframe/>"
                ltac:(vm_compute; reflexivity) eq_refl eq_refl eq_refl eq_refl eq_refl
                eq_refl)
    as (H1 & _ & _ & H2 & _).
  split; [exact H1 | exact H2].
Defined.

(** X18. When the CSV file cannot be read and the create response carries an
    identifier that [config.set] takes, the create workflow has already
    created the map, rewritten config.ini with the new identifier and sent the
    settings and the tooltip requests when it raises: no data is pushed, the
    map is not published and the HTML file is left as it was. *)
Theorem X18_creation_without_csv_stops_after_tooltip
    (s : state) (sec : gmap string string) (i : string) (e : exn) :
  config (self s) !! "DATA_WRAPPER" = Some sec ->
  body_id (create_response s) = Return (JStr i) ->
  accepted i = true ->
  read_csv (env s) = Raise e ->
  (run_map_creation s).1 = Raise e /\
  trace (env (run_map_creation s).2) =
    trace (env s)
    ++ [Sent (create_request (api_auth_code (self s)));
        ConfigWritten (with_identifier i (config (self s)));
        Sent (settings_request i (api_auth_code (self s)));
        Sent (tooltip_request i (api_auth_code (self s)))] /\
  config_ini (env (run_map_creation s).2) = with_identifier i (config (self s)) /\
  html_file (env (run_map_creation s).2) = html_file (env s).
Proof.
  intros Hsec Hid Ha He. unfold run_map_creation.
  pose proof (create_choropleth_exact s) as Hcreate.
  rewrite Hid, (config_set_identifier _ _ i Hsec Ha) in Hcreate.
  rewrite (bind_run _ _ s _ _ Hcreate). cbv beta.
  set (sc := identifier_persisted (JStr i) (with_identifier i (config (self s))) s).
  assert (map_id (self sc) = JStr i) as Hi by reflexivity.
  rewrite (bind_run _ _ sc _ _ (configure_map_settings_exact sc i Hi)). cbv beta.
  lazymatch goal with
  | |- context [bind add_map_tooltip ?k ?s1] =>
      rewrite (bind_run _ k s1 _ _ (add_map_tooltip_exact s1 i Hi)); cbv beta
  end.
  lazymatch goal with
  | |- context [bind update_map_data ?k ?s2] =>
      rewrite (bind_raise _ k s2 _ _ (update_map_data_unreadable s2 i e Hi He))
  end.
  cbn [fst snd]. repeat split.
  cbn. rewrite <- !List.app_assoc. reflexivity.
Qed.

Lemma X18_creation_without_csv_stops_after_tooltip_witness :
  (run_map_creation example_state_without_csv).1 = Raise FileNotFoundError /\
  steps_of (trace (env (run_map_creation example_state_without_csv).2))
  = [Create; PersistIdentifier; Configure; SetTooltip].
Proof.
  pose proof (X18_creation_without_csv_stops_after_tooltip example_state_without_csv
                example_section "XyZ12" FileNotFoundError
                ltac:(vm_compute; reflexivity) eq_refl eq_refl eq_refl) as (H1 & H2 & _).
  split; [exact H1 | exact (f_equal steps_of H2)].
Defined.

(** X19. When a setting read at the start of [main] is missing (a logging
    setting, or one that [__init__] reads), [main] ends with exit status 1 in
    every mode and leaves the world as it found it: no request, no file
    written, nothing logged. *)
Theorem X19_startup_failure_touches_nothing
    (run_type : string) (environ : gmap string string) (w : world) (e : exn) :
  config_getitem (config_ini w) "LOGGING" "LOG_DIR" = Raise e \/
  config_getitem (config_ini w) "LOGGING" "LOG_LEVEL" = Raise e \/
  init (config_ini w) environ = Raise e ->
  main run_type environ w = (1, w).
Proof.
  unfold main, main_body. intros [H|[H|H]].
  - now rewrite H.
  - rewrite H. now destruct (config_getitem _ "LOGGING" "LOG_DIR").
  - rewrite H. destruct (config_getitem _ "LOGGING" "LOG_DIR") as [dir|]; [|reflexivity].
    destruct (config_getitem _ "LOGGING" "LOG_LEVEL") as [lvl|]; [|reflexivity].
    now destruct (logging_basicConfig dir lvl w).
Qed.

Lemma X19_startup_failure_touches_nothing_witness :
  main "create" example_environ example_world_without_config
  = (1, example_world_without_config).
Proof.
  exact (X19_startup_failure_touches_nothing "create" example_environ
           example_world_without_config (KeyError "LOGGING")
           ltac:(left; vm_compute; reflexivity)).
Defined.

(** X20. When the start of [main] has set up logging (the configuration
    holds the two logging settings, the log file can be opened and the level
    is the name of a level) and the environment variable named by
    API_AUTH_CODE is not set, [KeyError] with the name of the variable leaves
    [main], in every mode, before anything is sent or written; the exit
    status is 1. *)
Theorem X20_missing_token_stops_main
    (run_type : string) (environ : gmap string string) (w : world)
    (dir lvl var : string) :
  config_getitem (config_ini w) "LOGGING" "LOG_DIR" = Return dir ->
  config_getitem (config_ini w) "LOGGING" "LOG_LEVEL" = Return lvl ->
  logging_basicConfig dir lvl w = Return tt ->
  config_getitem (config_ini w) "DATA_WRAPPER" "API_AUTH_CODE" = Return var ->
  environ !! var = None ->
  main_body run_type environ w = (Raise (KeyError var), w) /\
  main run_type environ w = (1, w).
Proof.
  intros Hd Hl Hb Hv He. unfold main, main_body, init.
  now rewrite Hd, Hl, Hb, Hv, He.
Qed.

Lemma X20_missing_token_stops_main_witness :
  main "update" ∅ (example_world api_ok) = (1, example_world api_ok).
Proof.
  exact (proj2 (X20_missing_token_stops_main "update" ∅ (example_world api_ok)
                  "logs" "DEBUG" "DW_TOKEN"
                  ltac:(vm_compute; reflexivity) ltac:(vm_compute; reflexivity)
                  ltac:(vm_compute; reflexivity) ltac:(vm_compute; reflexivity)
                  ltac:(vm_compute; reflexivity))).
Defined.

(** X21. In every mode and whatever the service answers, [main] leaves the CSV
    file as it found it; in every mode but create it leaves config.ini as it
    found it. *)
Theorem X21_main_never_writes_the_csv_file
    (run_type : string) (environ : gmap string string) (w : world) :
  csv_file (main run_type environ w).2 = csv_file w /\
  (run_type <> "create" ->
   config_ini (main run_type environ w).2 = config_ini w).
Proof.
  unfold main, main_body.
  destruct (config_getitem _ "LOGGING" "LOG_DIR") as [dir|]; [|now split].
  destruct (config_getitem _ "LOGGING" "LOG_LEVEL") as [lvl|]; [|now split].
  destruct (logging_basicConfig dir lvl w); [|now split].
  destruct (init _ _) as [mapper|]; [|now split].
  destruct (String.eqb_spec run_type "create") as [->|Hc].
  - split; [|congruence].
    assert (same_inputs (State mapper w)
              ((logging_info "Initiating map creation process";;;
                run_map_creation) (State mapper w)).2) as (_ & _ & H).
    { inputs_step; [now repeat split|]. apply same_inputs_run_map_creation. }
    destruct ((_ ;;; _) (State mapper w)) as [o s']. exact H.
  - destruct (String.eqb_spec run_type "update") as [->|Hu]; [|now split].
    assert (same_inputs (State mapper w)
              ((logging_info "Initiating map data update process";;;
                run_map_update) (State mapper w)).2) as (_ & _ & H).
    { inputs_step; [now repeat split|]. apply same_inputs_run_map_update. }
    assert (same_identifier (State mapper w)
              ((logging_info "Initiating map data update process";;;
                run_map_update) (State mapper w)).2) as (_ & H' & _).
    { apply (step_then same_identifier same_identifier_trans).
      - apply same_identifier_logging.
      - intros ? ? ?. apply same_identifier_run_map_update. }
    destruct ((_ ;;; _) (State mapper w)) as [o s']. now split.
Qed.

Lemma X21_main_never_writes_the_csv_file_witness :
  config_ini (main "update" example_environ (example_world api_ok)).2
  = example_config.
Proof.
  exact (proj2 (X21_main_never_writes_the_csv_file "update" example_environ
                  (example_world api_ok)) ltac:(discriminate)).
Defined.

(** X22. After a successful create call whose response body carries an
    identifier [i] without percent signs and white space: [create_choropleth]
    returns, the object names the map [i], and the MAP_ID entry written to
    config.ini is [i].  When config.ini is read again, MAP_ID reads as [i];
    the file can be read again when the one the process started from could.
    A later process started on the file reads [i] as its map identifier, and
    its [run_map_update] sends its requests to the map [i], sends no create
    request and leaves config.ini as it is; when the CSV file can be read,
    its first request is the data request to the map [i]. *)
Theorem X22_storable_identifier_is_reused
    (c : config_parser) (environ : gmap string string) (mapper : DataWrapperMap)
    (w : world) (j : json) (i : string) :
  init c environ = Return mapper ->
  is_success (api w (sent w) (create_request (api_auth_code mapper))) = true ->
  body (api w (sent w) (create_request (api_auth_code mapper))) = Some j ->
  subscript j "id" = Return (JStr i) ->
  storable i = true ->
  (create_choropleth (State mapper w)).1 = Return tt /\
  map_id (self (create_choropleth (State mapper w)).2) = JStr i /\
  config_raw (config_ini (env (create_choropleth (State mapper w)).2))
    "DATA_WRAPPER" "map_id" = Some i /\
  (reread c = Some c ->
   reread (config_ini (env (create_choropleth (State mapper w)).2))
   = Some (config_ini (env (create_choropleth (State mapper w)).2))) /\
  forall (c2 : config_parser),
    reread (config_ini (env (create_choropleth (State mapper w)).2)) = Some c2 ->
    config_getitem c2 "DATA_WRAPPER" "MAP_ID" = Return i /\
    forall (environ2 : gmap string string) (w2 : world) (mapper2 : DataWrapperMap),
      config_ini w2 = c2 ->
      init (config_ini w2) environ2 = Return mapper2 ->
      map_id mapper2 = JStr i /\
      exists t,
        trace (env (run_map_update (State mapper2 w2)).2) = trace w2 ++ t /\
        forallb (addressed_to (JStr i)) (sent_in t) = true /\
        (Create ∉ steps_of t) /\
        (PersistIdentifier ∉ steps_of t) /\
        config_ini (env (run_map_update (State mapper2 w2)).2) = config_ini w2 /\
        (forall raw rows,
            csv_file w2 = Some raw -> csv_reader raw = Return rows ->
            exists t',
              t = Sent (Request PUT (data_url i) (Text (county_results_of rows))
                          (data_headers (api_auth_code mapper2))) :: t').
Proof.
  intros Hinit _ Hb Hj Hst.
  destruct (init_section c environ mapper Hinit) as (Hcfg & sec & Hsec).
  pose proof (create_choropleth_exact (State mapper w)) as Hcreate.
  unfold create_response in Hcreate. cbn [self env] in Hcreate.
  rewrite (body_id_of _ j (JStr i) Hb Hj), Hcfg in Hcreate.
  rewrite (config_set_identifier c sec i Hsec (storable_accepted i Hst)) in Hcreate.
  rewrite Hcreate. cbn [fst snd].
  change (config_ini (env (identifier_persisted (JStr i) (with_identifier i c)
                             (State mapper w))))
    with (with_identifier i c).
  split; [reflexivity|]. split; [reflexivity|].
  split; [exact (config_raw_with_identifier c sec i Hsec)|].
  split; [intros Hc; now apply reread_with_identifier|].
  intros c2 Hc2.
  assert (config_getitem c2 "DATA_WRAPPER" "MAP_ID" = Return i) as Hget.
  { apply config_getitem_raw; [|now apply storable_no_percent].
    rewrite (config_raw_reread _ _ _ _ Hc2).
    rewrite (config_raw_with_identifier c sec i Hsec). cbn.
    now rewrite (storable_strip i Hst). }
  split; [assumption|].
  intros environ2 w2 mapper2 Hw2 Hinit2.
  assert (map_id mapper2 = JStr i) as Hi2.
  { apply init_inv in Hinit2
      as (var2 & auth2 & id2 & html2 & csv2 & _ & _ & Hid2 & _ & _ & ->).
    rewrite Hw2, Hget in Hid2. now injection Hid2 as <-. }
  split; [assumption|].
  exact (run_map_update_uses_identifier (State mapper2 w2) i Hi2).
Qed.

Lemma X22_storable_identifier_is_reused_witness :
  (create_choropleth (example_state api_ok)).1 = Return tt /\
  config_raw (config_ini (env (create_choropleth (example_state api_ok)).2))
    "DATA_WRAPPER" "map_id" = Some "XyZ12" /\
  reread (config_ini (env (create_choropleth (example_state api_ok)).2))
  = Some (config_ini (env (create_choropleth (example_state api_ok)).2)) /\
  config_getitem (config_ini (env (create_choropleth (example_state api_ok)).2))
    "DATA_WRAPPER" "MAP_ID" = Return "XyZ12".
Proof.
  pose proof (X22_storable_identifier_is_reused example_config example_environ
                example_mapper (example_world api_ok)
                (JObj [("id", JStr "XyZ12")]) "XyZ12"
                ltac:(vm_compute; reflexivity) eq_refl eq_refl eq_refl eq_refl)
    as (H1 & _ & H3 & H4 & H5).
  pose proof (H4 reread_example_config) as H6.
  split; [exact H1|]. split; [exact H3|]. split; [exact H6|].
  exact (proj1 (H5 _ H6)).
Defined.

(** X23. When the start of [main] cannot set up logging, because the log file
    cannot be opened or because LOG_LEVEL is not the name of a level (the
    names are in capitals), the exception leaves [main] in every mode before
    the mode is looked at: exit status 1, nothing sent, written or logged.
    The file is opened before the level is checked. *)
Theorem X23_logging_setup_failure_stops_main
    (run_type : string) (environ : gmap string string) (w : world)
    (dir lvl : string) (e : exn) :
  config_getitem (config_ini w) "LOGGING" "LOG_DIR" = Return dir ->
  config_getitem (config_ini w) "LOGGING" "LOG_LEVEL" = Return lvl ->
  logging_basicConfig dir lvl w = Raise e ->
  main_body run_type environ w = (Raise e, w) /\
  main run_type environ w = (1, w) /\
  (log_file w dir = Raise e \/
   (log_file w dir = Return tt /\ (lvl ∉ level_names) /\ e = ValueError)).
Proof.
  intros Hd Hl Hb. unfold main, main_body. rewrite Hd, Hl, Hb.
  split; [reflexivity|]. split; [reflexivity|].
  unfold logging_basicConfig in Hb.
  destruct (log_file w dir) as [[]|e'] eqn:Hf; [|left; congruence].
  right. split; [reflexivity|].
  destruct (existsb (String.eqb lvl) level_names) eqn:Hex; [discriminate|].
  split; [|congruence].
  intros Hin. apply list_elem_of_In in Hin.
  assert (existsb (String.eqb lvl) level_names = true) as Ht; [|congruence].
  apply existsb_exists. exists lvl. split; [assumption | apply String.eqb_refl].
Qed.

Lemma X23_logging_setup_failure_stops_main_witness :
  main_body "update" example_environ (example_world_with_level "debug")
  = (Raise ValueError, example_world_with_level "debug").
Proof.
  exact (proj1 (X23_logging_setup_failure_stops_main "update" example_environ
                  (example_world_with_level "debug") "logs" "debug" ValueError
                  ltac:(vm_compute; reflexivity) ltac:(vm_compute; reflexivity)
                  ltac:(vm_compute; reflexivity))).
Defined.
